(** * Realtime whiteboard: room sessions, permission gate, image transfer

    A shallow embedding of [backend/server.js] (the Socket.IO / Express
    server) and of the image-chunk receiver of the browser client, with the
    properties of the room-session subsystem stated and proved over it.

    Conventions of the embedding.
    - Every listener of the server is a computation in the monad [M]: it
      reads and writes the server [State], may raise (a rejected store
      command, a [TypeError] on a null client, a [ReferenceError]) and
      appends to the list of emitted Socket.IO messages.
    - A listener is one step of [run]: [run] describes the sequences of
      events in which none arrives while a listener is suspended at an
      [await].  Two suspensions are written out, because what happens
      during them shows: that of the first [joinRoom] listener, during
      which the second one runs ([on_joinRoom_listeners]), and that of the
      periodic sweep between reading a member count and reporting it
      ([sweep_reconcile_begin], [sweep_reconcile_resume],
      [sweep_reconcile_interleaved]).
    - The second [joinRoom] listener ends in a [ReferenceError] that nothing
      catches, and [handle] gives [Thrown] for the event.  What becomes of
      the process is up to Node: [run] goes on, as Node does before version
      15 or with [--unhandled-rejections=warn]; [served] gives the events
      that are handled when the process ends there, as it does from version
      15 on (the [Dockerfile] asks for [node:16]).
    - The Redis store is the three key families the server uses, kept in
      three maps indexed by the room code: the hash [room:CODE], the list
      [room:CODE:points] and the list [room:CODE:images].  A list element is
      the payload itself: [JSON.parse (JSON.stringify x)] is taken to be [x].
      Times to live are not part of the model: nothing modelled reads them,
      so [expire] and [persist] are commands that can only fail or succeed.
    - A numeric hash field holds the number whose decimal rendering Redis
      stores; [parseInt] of that rendering is the number again.
    - Room codes are not property names of [Object.prototype].
    - One [Date.now()] per handler run: the handler's argument [now].
    - Left out, as they neither write the state modelled here nor emit one
      of the messages modelled here: logging, the [error] listener, the
      [disconnect] listener registered first (it only broadcasts
      [usersList]), the route [/api/health] and the start-up code.  The
      answers of [requestServerStatus], [requestUsersList] and
      [/api/check-room] are given as functions of the state.
      [setupRedisExpireMonitoring] is never called; the callback it would
      subscribe is [on_key_expired]. *)

From stdpp Require Import gmap strings list fin_maps.
From Stdlib Require Import ZArith DecimalString Ascii.

Local Open Scope Z_scope.

(** ** JavaScript values held in room records *)

Inductive jsval : Type :=
  | VUndef
  | VNull
  | VBool (b : bool)
  | VNum (n : Z)
  | VStr (s : string).

#[global] Instance jsval_eq_dec : EqDecision jsval.
Proof. solve_decision. Defined.

(** [a === b] on the values above (no NaN among them). *)
Definition strict_eq (a b : jsval) : bool := bool_decide (a = b).

(** Truthiness, as used by [x ? a : b], [!x] and [x || y]. *)
Definition truthy (v : jsval) : bool :=
  match v with
  | VUndef | VNull => false
  | VBool b => b
  | VNum n => negb (n =? 0)
  | VStr s => negb (bool_decide (s = EmptyString))
  end.

(** ** Payloads *)

(** The object the client sends with [draw] (client [draw(e)]). *)
Record Stroke : Type := mkStroke {
  startX : Z; startY : Z; endX : Z; endY : Z;
  color : string; stroke_size : Z; tool : string
}.

(** The object sent with [pasteImage]. *)
Record ImageRec : Type := mkImageRec {
  imageData : string;
  img_x : Z; img_y : Z; img_width : Z; img_height : Z;
  img_timestamp : jsval;
  img_userId : jsval;
  synced : jsval
}.

(** Placement metadata carried by chunk 0 ([meta] in [sendImageInChunks]). *)
Record Meta : Type := mkMeta {
  meta_x : Z; meta_y : Z; meta_width : Z; meta_height : Z;
  meta_timestamp : Z; meta_userId : string
}.

(** The object sent with [imageChunk]. *)
Record Chunk : Type := mkChunk {
  chunkIndex : nat;
  totalChunks : nat;
  chunk : string;
  chunk_userId : string;
  chunk_timestamp : Z;
  chunk_meta : option Meta
}.

#[global] Instance Stroke_eq_dec : EqDecision Stroke.
Proof. solve_decision. Defined.
#[global] Instance ImageRec_eq_dec : EqDecision ImageRec.
Proof. solve_decision. Defined.

(** ** Server state *)

(** An entry of [rooms]. *)
Record Room : Type := mkRoom {
  createdAt : Z;
  lastActive : Z;
  users : Z;
  creatorId : jsval;
  drawingEnabled : jsval
}.

(** The Redis hash [room:CODE]; an absent field is [None]. *)
Record RoomHash : Type := mkRoomHash {
  h_createdAt : option Z;
  h_lastActive : option Z;
  h_users : option Z;
  h_creatorId : option string;
  h_drawingEnabled : option string
}.

(** The store and the server's view of it.
    [client] is [redisClient !== null]; [enabled] is
    [redisEnabled && redisClient.isOpen]; [failing] says that a command
    issued to a non-null client is rejected. *)
Record Redis : Type := mkRedis {
  client : bool;
  enabled : bool;
  failing : bool;
  hashes : gmap string RoomHash;
  points : gmap string (list Stroke);
  images : gmap string (list ImageRec)
}.

(** Per-connection data: the closure variable [currentRoom] and the
    [x-creator-id] handshake header. *)
Record Socket : Type := mkSocket {
  currentRoom : option string;
  creatorHeader : option string
}.

Record State : Type := mkState {
  rooms : gmap string Room;
  userRooms : gmap string string;
  connectedClients : Z;
  sockets : gmap string Socket;
  adapter : gmap string (gset string);   (* io.sockets.adapter.rooms *)
  redis : Redis
}.

Definition set_rooms (f : gmap string Room → gmap string Room) (st : State) : State :=
  mkState (f (rooms st)) (userRooms st) (connectedClients st) (sockets st) (adapter st) (redis st).
Definition set_userRooms (f : gmap string string → gmap string string) (st : State) : State :=
  mkState (rooms st) (f (userRooms st)) (connectedClients st) (sockets st) (adapter st) (redis st).
Definition set_connectedClients (f : Z → Z) (st : State) : State :=
  mkState (rooms st) (userRooms st) (f (connectedClients st)) (sockets st) (adapter st) (redis st).
Definition set_sockets (f : gmap string Socket → gmap string Socket) (st : State) : State :=
  mkState (rooms st) (userRooms st) (connectedClients st) (f (sockets st)) (adapter st) (redis st).
Definition set_adapter (f : gmap string (gset string) → gmap string (gset string)) (st : State) : State :=
  mkState (rooms st) (userRooms st) (connectedClients st) (sockets st) (f (adapter st)) (redis st).
Definition set_redis (f : Redis → Redis) (st : State) : State :=
  mkState (rooms st) (userRooms st) (connectedClients st) (sockets st) (adapter st) (f (redis st)).

Definition set_hashes (f : gmap string RoomHash → gmap string RoomHash) (r : Redis) : Redis :=
  mkRedis (client r) (enabled r) (failing r) (f (hashes r)) (points r) (images r).
Definition set_points (f : gmap string (list Stroke) → gmap string (list Stroke)) (r : Redis) : Redis :=
  mkRedis (client r) (enabled r) (failing r) (hashes r) (f (points r)) (images r).
Definition set_images (f : gmap string (list ImageRec) → gmap string (list ImageRec)) (r : Redis) : Redis :=
  mkRedis (client r) (enabled r) (failing r) (hashes r) (points r) (f (images r)).

(** The live connection set of a room: [io.sockets.adapter.rooms.get(code)],
    the empty set standing for [undefined]. *)
Definition live_of (a : gmap string (gset string)) (code : string) : gset string :=
  default ∅ (a !! code).
Definition live (st : State) (code : string) : gset string := live_of (adapter st) code.

(** [sockets ? sockets.size : 0] *)
Definition actual_of (a : gmap string (gset string)) (code : string) : Z :=
  Z.of_nat (size (live_of a code)).
Definition actualUsers (st : State) (code : string) : Z := actual_of (adapter st) code.

(** ** Emitted messages *)

Inductive ErrMsg : Type :=
  | ErrJoin                (* joinRoom catch *)
  | ErrLoadDrawing         (* requestDrawingData catch *)
  | ErrLoadImages          (* requestImageData catch *)
  | ErrNotJoined           (* "not in a room" (toggleDrawing) *)
  | ErrNotJoinedRefresh    (* "not in a room, please reload" *)
  | ErrNoRoomInfo          (* "room information not found" *)
  | ErrToggleNotCreator
  | ErrToggle              (* toggleDrawing catch *)
  | ErrChunk               (* imageChunk catch *)
  | ErrImageSave           (* saveImage returned false *)
  | ErrImage               (* pasteImage catch *)
  | ErrClearNotCreator
  | ErrClear.              (* clearCanvas catch *)

Inductive Msg : Type :=
  | ConnectionEstablished (socketId : string)
  | RoomJoined (roomCode id : string) (n : Z) (isCreator : bool) (enabledField : jsval)
  | UserJoined (id : string) (n : Z)
  | UserLeft (id : string) (n : option Z)
  | UserCountUpdated (n : Z)
  | LoadDrawing (pts : list Stroke)
  | LoadImages (imgs : list ImageRec)
  | DrawMsg (data : Stroke)
  | ImageChunkMsg (data : Chunk)
  | PasteImageMsg (data : ImageRec)
  | DrawingPermissionChanged (enabledField : jsval) (changedBy : string)
  | ClearCanvasMsg
  | PongMsg (id : string) (clients roomUsers : Z)
  | RoomInfoMsg (roomCode : string) (n : Z) (created : Z)
  | ErrorMsg (e : ErrMsg).

Inductive Target : Type :=
  | ToSocket (sid : string)                 (* socket.emit *)
  | ToOthers (code : string) (sid : string) (* socket.to(code).emit *)
  | ToRoom (code : string).                 (* io.to(code).emit *)

(** An emission together with the adapter's rooms at the moment of the
    call: Socket.IO resolves the recipients of a room broadcast then. *)
Record Emission : Type := mkEmission {
  e_target : Target;
  e_msg : Msg;
  e_adapter : gmap string (gset string)
}.

Definition recipients (e : Emission) : gset string :=
  match e_target e with
  | ToSocket sid => {[ sid ]}
  | ToOthers code sid => live_of (e_adapter e) code ∖ {[ sid ]}
  | ToRoom code => live_of (e_adapter e) code
  end.

Definition is_error (m : Msg) : bool :=
  match m with ErrorMsg _ => true | _ => false end.

(** ** The handler monad: state, exceptions, output *)

Inductive Res (A : Type) : Type :=
  | Ok (a : A)
  | Thrown.
Arguments Ok {A} a.
Arguments Thrown {A}.

Definition M (A : Type) : Type := State → Res A * State * list Emission.

Definition ret {A} (a : A) : M A := λ st, (Ok a, st, []).

Definition bind {A B} (m : M A) (k : A → M B) : M B := λ st,
  match m st with
  | (Ok a, st1, o1) =>
      match k a st1 with (r, st2, o2) => (r, st2, o1 ++ o2) end
  | (Thrown, st1, o1) => (Thrown, st1, o1)
  end.

Notation "'let*' x ':=' m 'in' k" := (bind m (λ x, k))
  (at level 10, x name, m at level 100, k at level 200, only parsing).

Definition throw {A} : M A := λ st, (Thrown, st, []).

(** [try { body } catch (e) { handler }] *)
Definition try_catch {A} (body handler : M A) : M A := λ st,
  match body st with
  | (Ok a, st1, o1) => (Ok a, st1, o1)
  | (Thrown, st1, o1) =>
      match handler st1 with (r, st2, o2) => (r, st2, o1 ++ o2) end
  end.

Definition gets {A} (f : State → A) : M A := λ st, (Ok (f st), st, []).
Definition modify (f : State → State) : M unit := λ st, (Ok tt, f st, []).

Definition emit (t : Target) (m : Msg) : M unit := λ st,
  (Ok tt, st, [mkEmission t m (adapter st)]).

(** The three parts of what a computation gives. *)
Definition state_of {A} (x : Res A * State * list Emission) : State := x.1.2.
Definition out_of {A} (x : Res A * State * list Emission) : list Emission := x.2.
Definition res_of {A} (x : Res A * State * list Emission) : Res A := x.1.1.

(** ** Store commands *)

(** [isRedisAvailable()] *)
Definition isRedisAvailable (st : State) : bool :=
  enabled (redis st) && client (redis st).

(** A command on [redisClient]: a [TypeError] when the client is [null], a
    rejection when the store fails, the command's effect otherwise. *)
Definition redis_cmd {A} (f : Redis → A * Redis) : M A := λ st,
  if client (redis st) && negb (failing (redis st))
  then match f (redis st) with (a, r) => (Ok a, set_redis (λ _, r) st, []) end
  else (Thrown, st, []).

Definition cmd_exists (code : string) : M bool :=
  redis_cmd (λ r, (bool_decide (is_Some (hashes r !! code)), r)).
Definition cmd_hGetAll (code : string) : M RoomHash :=
  redis_cmd (λ r, (default (mkRoomHash None None None None None) (hashes r !! code), r)).
Definition cmd_hSet (code : string) (upd : RoomHash → RoomHash) : M unit :=
  redis_cmd (λ r,
    (tt, set_hashes (λ h, <[code := upd (default (mkRoomHash None None None None None) (h !! code))]> h) r)).
Definition cmd_expire : M unit := redis_cmd (λ r, (tt, r)).
Definition cmd_persist : M unit := redis_cmd (λ r, (tt, r)).
Definition cmd_rPush_points (code : string) (p : Stroke) : M unit :=
  redis_cmd (λ r, (tt, set_points (λ m, <[code := default [] (m !! code) ++ [p]]> m) r)).
Definition cmd_rPush_images (code : string) (i : ImageRec) : M unit :=
  redis_cmd (λ r, (tt, set_images (λ m, <[code := default [] (m !! code) ++ [i]]> m) r)).
Definition cmd_lRange_points (code : string) : M (list Stroke) :=
  redis_cmd (λ r, (default [] (points r !! code), r)).
Definition cmd_lRange_images (code : string) : M (list ImageRec) :=
  redis_cmd (λ r, (default [] (images r !! code), r)).
Definition cmd_del_hash (code : string) : M unit :=
  redis_cmd (λ r, (tt, set_hashes (delete code) r)).
Definition cmd_del_points (code : string) : M unit :=
  redis_cmd (λ r, (tt, set_points (delete code) r)).
Definition cmd_del_images (code : string) : M unit :=
  redis_cmd (λ r, (tt, set_images (delete code) r)).

(** The persisted stroke log and image sequence of a room. *)
Definition stroke_log (st : State) (code : string) : list Stroke :=
  default [] (points (redis st) !! code).
Definition image_log (st : State) (code : string) : list ImageRec :=
  default [] (images (redis st) !! code).

(** ** Store adapter functions of the server *)

(** [saveDrawingPoint(roomCode, point)] *)
Definition saveDrawingPoint (code : string) (point : Stroke) : M unit :=
  try_catch
    (let* avail := gets isRedisAvailable in
     if avail then
       (let* _ := cmd_rPush_points code point in
        cmd_expire)
     else ret tt)
    (ret tt).

(** [getDrawingPoints(roomCode)] *)
Definition getDrawingPoints (code : string) : M (list Stroke) :=
  let* r := try_catch
        (let* avail := gets isRedisAvailable in
         if avail then
           (let* pts := cmd_lRange_points code in
            ret (Some pts))
         else ret None)
        (ret None) in
  ret (default [] r).

(** [clearDrawingPoints(roomCode)] *)
Definition clearDrawingPoints (code : string) : M unit :=
  try_catch
    (let* avail := gets isRedisAvailable in
     if avail then cmd_del_points code else ret tt)
    (ret tt).

(** [saveImage(roomCode, imageData)] *)
Definition saveImage (code : string) (img : ImageRec) : M bool :=
  let* r := try_catch
        (let* avail := gets isRedisAvailable in
         if avail then
           (let* _ := cmd_rPush_images code img in
            let* _ := cmd_expire in
            ret true)
         else ret false)
        (ret false) in
  ret r.

(** [getImages(roomCode)] *)
Definition getImages (code : string) : M (list ImageRec) :=
  let* r := try_catch
        (let* avail := gets isRedisAvailable in
         if avail then
           (let* imgs := cmd_lRange_images code in
            ret (Some imgs))
         else ret None)
        (ret None) in
  ret (default [] r).

(** [clearImages(roomCode)] *)
Definition clearImages (code : string) : M unit :=
  try_catch
    (let* avail := gets isRedisAvailable in
     if avail then cmd_del_images code else ret tt)
    (ret tt).

(** ** Socket bookkeeping *)

(** The closure variable [currentRoom] of a connection. *)
Definition currentRoom_of (sid : string) (st : State) : option string :=
  sockets st !! sid ≫= currentRoom.

(** The [x-creator-id] handshake header, [undefined] when absent. *)
Definition header_of (sid : string) (st : State) : jsval :=
  from_option VStr VUndef (sockets st !! sid ≫= creatorHeader).

(** [if (currentRoom)]: [null] and the empty string are falsy. *)
Definition room_truthy (cur : option string) : bool :=
  match cur with
  | None => false
  | Some code => negb (bool_decide (code = EmptyString))
  end.

Definition set_currentRoom (sid : string) (cur : option string) : M unit :=
  modify (set_sockets (λ m,
    <[sid := mkSocket cur (m !! sid ≫= creatorHeader)]> m)).

(** [socket.join(code)] *)
Definition socket_join (sid code : string) : M unit :=
  modify (set_adapter (λ a, <[code := {[ sid ]} ∪ live_of a code]> a)).

(** [socket.leave(code)] *)
Definition socket_leave (sid code : string) : M unit :=
  modify (set_adapter (λ a, <[code := live_of a code ∖ {[ sid ]}]> a)).

(** ** Room registry *)

(** [parseInt(field) || dflt] *)
Definition parseIntOr (field : option Z) (dflt : Z) : Z :=
  match field with
  | Some n => if n =? 0 then dflt else n
  | None => dflt
  end.

(** The object built from [hGetAll]: the three numeric fields are parsed,
    every other field stays the string Redis returned. *)
Definition roomFromHash (now : Z) (h : RoomHash) : Room :=
  mkRoom (parseIntOr (h_createdAt h) now)
         (parseIntOr (h_lastActive h) now)
         (parseIntOr (h_users h) 0)
         (from_option VStr VUndef (h_creatorId h))
         (from_option VStr VUndef (h_drawingEnabled h)).

(** [getRoomInfo(roomCode)] *)
Definition getRoomInfo (now : Z) (code : string) : M (option Room) :=
  try_catch
    (let* cached := gets (λ st, rooms st !! code) in
     match cached with
     | Some r => ret (Some r)
     | None =>
         let* avail := gets isRedisAvailable in
         if avail then
           try_catch
             (let* ex := cmd_exists code in
              if ex then
                (let* h := cmd_hGetAll code in
                 let roomData := roomFromHash now h in
                 let* _ := modify (set_rooms (<[code := roomData]>)) in
                 ret (Some roomData))
              else ret None)
             (ret None)
         else ret None
     end)
    (ret (Some (mkRoom now now 0 VUndef VUndef))).

(** [createRoom(roomCode, creatorId = null)] *)
Definition createRoom (now : Z) (code : string) (creator : option string) : M Room :=
  let room := mkRoom now now 0 (from_option VStr VNull creator) (VBool true) in
  let* _ := modify (set_rooms (<[code := room]>)) in
  let* _ := try_catch
              (let* avail := gets isRedisAvailable in
               if avail then
                 (let* _ := cmd_hSet code (λ _,
                    mkRoomHash (Some now) (Some now) (Some 0)
                               (Some (default EmptyString creator)) (Some "true"%string)) in
                  cmd_expire)
               else ret tt)
              (ret tt) in
  ret room.

(** The page route [GET /room/:roomCode], up to the file it serves. *)
Definition http_room_page (now : Z) (code : string) : M unit :=
  let* cached := gets (λ st, rooms st !! code) in
  match cached with
  | Some _ => ret tt
  | None =>
      let* _ := modify (set_rooms (<[code := mkRoom now now 0 VUndef VUndef]>)) in
      let* avail := gets isRedisAvailable in
      if avail then
        try_catch
          (let* _ := cmd_hSet code (λ h,
             mkRoomHash (Some now) (Some now) (Some 0) (h_creatorId h) (h_drawingEnabled h)) in
           cmd_expire)
          (ret tt)
      else ret tt
  end.

(** [updateRoomInfo(roomCode)] *)
Definition updateRoomInfo (now : Z) (code : string) : M unit :=
  let* cached := gets (λ st, rooms st !! code) in
  match cached with
  | None => ret tt
  | Some room =>
      let* n := gets (λ st, actualUsers st code) in
      if negb (users room =? n) then
        (let* _ := modify (set_rooms
           (<[code := mkRoom (createdAt room) now n (creatorId room) (drawingEnabled room)]>)) in
         emit (ToRoom code) (UserCountUpdated n))
      else ret tt
  end.

(** ** Socket event handlers *)

(** [io.on('connection')]: every socket starts in the room named by its
    own id. *)
Definition on_connection (sid : string) (hdr : option string) : M unit :=
  let* _ := modify (set_connectedClients (λ n, n + 1)) in
  let* _ := modify (set_sockets (<[sid := mkSocket None hdr]>)) in
  let* _ := socket_join sid sid in
  emit (ToSocket sid) (ConnectionEstablished sid).

(** [socket.on('joinRoom')] (first registration), in the order of the
    source: leave the previous room, find the room in the cache or in the
    store, create it when it is nowhere, enter and announce, replay the
    strokes, replay the images. *)

(** [if (currentRoom) { socket.leave ... userRooms.delete(socket.id) }] *)
Definition leave_previous (now : Z) (sid : string) : M unit :=
  let* cur := gets (currentRoom_of sid) in
  if room_truthy cur then
    let prev := default EmptyString cur in
    (let* _ := socket_leave sid prev in
     let* _ := updateRoomInfo now prev in
     let* _ := emit (ToOthers prev sid) (UserLeft sid None) in
     modify (set_userRooms (delete sid)))
  else ret tt.

(** [let roomInfo = rooms[roomCode]; if (!roomInfo && isRedisAvailable()) ...] *)
Definition lookup_room (now : Z) (code : string) : M (option Room) :=
  let* cached := gets (λ st, rooms st !! code) in
  match cached with
  | Some r => ret (Some r)
  | None =>
      let* avail := gets isRedisAvailable in
      if avail then
        try_catch
          (let* ex := cmd_exists code in
           if ex then
             (let* h := cmd_hGetAll code in
              let roomData := roomFromHash now h in
              let* _ := modify (set_rooms (<[code := roomData]>)) in
              ret (Some roomData))
           else ret None)
          (ret None)
      else ret None
  end.

(** [if (!roomInfo) { rooms[roomCode] = { ..., creatorId: socket.id, ... } }];
    the [hSet] promise is not awaited and carries its own [catch]. *)
Definition create_on_join (now : Z) (sid code : string) : M Room :=
  let r := mkRoom now now 0 (VStr sid) (VBool true) in
  let* _ := modify (set_rooms (<[code := r]>)) in
  let* avail := gets isRedisAvailable in
  let* _ :=
    (if avail then
       try_catch
         (let* _ := cmd_hSet code (λ _,
            mkRoomHash (Some now) (Some now) (Some 0) (Some sid) (Some "true"%string)) in
          cmd_expire)
         (ret tt)
     else ret tt) in
  ret r.

(** [socket.join(roomCode)] up to the [userJoined] broadcast. *)
Definition enter_room (now : Z) (sid code : string) (roomInfo : Room) : M unit :=
  let* _ := socket_join sid code in
  let* _ := set_currentRoom sid (Some code) in
  let* _ := modify (set_userRooms (<[sid := code]>)) in
  let* _ := updateRoomInfo now code in
  let* n := gets (λ st, actualUsers st code) in
  let* _ := emit (ToSocket sid)
              (RoomJoined code sid n (strict_eq (VStr sid) (creatorId roomInfo))
                          (drawingEnabled roomInfo)) in
  emit (ToOthers code sid) (UserJoined sid n).

(** The stroke replay of [joinRoom]. *)
Definition send_drawing (sid code : string) : M unit :=
  try_catch
    (let* avail := gets isRedisAvailable in
     if avail then
       (let* pts := cmd_lRange_points code in
        emit (ToSocket sid) (LoadDrawing pts))
     else emit (ToSocket sid) (LoadDrawing []))
    (emit (ToSocket sid) (LoadDrawing [])).

(** The image replay of [joinRoom]: nothing is sent when the store holds
    no image for the room. *)
Definition send_images (sid code : string) : M unit :=
  try_catch
    (let* avail := gets isRedisAvailable in
     if avail then
       (let* imgs := cmd_lRange_images code in
        if (0 <? Z.of_nat (length imgs)) then emit (ToSocket sid) (LoadImages imgs)
        else ret tt)
     else emit (ToSocket sid) (LoadImages []))
    (emit (ToSocket sid) (LoadImages [])).

Definition on_joinRoom (now : Z) (sid code : string) : M unit :=
  try_catch
    (let* _ := leave_previous now sid in
     let* loaded := lookup_room now code in
     let* roomInfo :=
       (match loaded with
        | Some r => ret r
        | None => create_on_join now sid code
        end) in
     let* _ := enter_room now sid code roomInfo in
     let* _ := send_drawing sid code in
     send_images sid code)
    (emit (ToSocket sid) (ErrorMsg ErrJoin)).

(** [socket.on('requestDrawingData')] *)
Definition on_requestDrawingData (sid : string) : M unit :=
  try_catch
    (let* cur := gets (currentRoom_of sid) in
     if negb (room_truthy cur) then ret tt
     else
       let code := default EmptyString cur in
       (let* pts := getDrawingPoints code in
        emit (ToSocket sid) (LoadDrawing pts)))
    (emit (ToSocket sid) (ErrorMsg ErrLoadDrawing)).

(** [socket.on('requestImageData')] *)
Definition on_requestImageData (sid : string) : M unit :=
  try_catch
    (let* cur := gets (currentRoom_of sid) in
     if negb (room_truthy cur) then emit (ToSocket sid) (ErrorMsg ErrNotJoinedRefresh)
     else
       let code := default EmptyString cur in
       (let* imgs := getImages code in
        emit (ToSocket sid) (LoadImages imgs)))
    (emit (ToSocket sid) (ErrorMsg ErrLoadImages)).

(** [socket.id === roomInfo.creatorId ||
     socket.handshake.headers['x-creator-id'] === roomInfo.creatorId] *)
Definition isCreator (sid : string) (st : State) (room : Room) : bool :=
  strict_eq (VStr sid) (creatorId room) || strict_eq (header_of sid st) (creatorId room).

(** [socket.on('toggleDrawing')] *)
Definition on_toggleDrawing (sid : string) (enabledArg : jsval) : M unit :=
  try_catch
    (let* cur := gets (currentRoom_of sid) in
     if negb (room_truthy cur) then emit (ToSocket sid) (ErrorMsg ErrNotJoined)
     else
       let code := default EmptyString cur in
       (let* cached := gets (λ st, rooms st !! code) in
        match cached with
        | None => emit (ToSocket sid) (ErrorMsg ErrNoRoomInfo)
        | Some roomInfo =>
            let* creator := gets (λ st, isCreator sid st roomInfo) in
            if negb creator then emit (ToSocket sid) (ErrorMsg ErrToggleNotCreator)
            else
              (let* _ := modify (set_rooms
                 (<[code := mkRoom (createdAt roomInfo) (lastActive roomInfo) (users roomInfo)
                                   (creatorId roomInfo) enabledArg]>)) in
               let* avail := gets isRedisAvailable in
               let* _ :=
                 (if avail then
                    cmd_hSet code (λ h,
                      mkRoomHash (h_createdAt h) (h_lastActive h) (h_users h) (h_creatorId h)
                        (Some (if truthy enabledArg then "true" else "false")%string))
                  else ret tt) in
               emit (ToRoom code) (DrawingPermissionChanged enabledArg sid))
        end))
    (emit (ToSocket sid) (ErrorMsg ErrToggle)).

(** [socket.on('draw')] *)
Definition on_draw (sid : string) (data : Stroke) : M unit :=
  try_catch
    (let* cur := gets (currentRoom_of sid) in
     if negb (room_truthy cur) then ret tt
     else
       let code := default EmptyString cur in
       (let* cached := gets (λ st, rooms st !! code) in
        match cached with
        | None => ret tt
        | Some roomInfo =>
            if strict_eq (drawingEnabled roomInfo) (VBool false)
               && negb (strict_eq (VStr sid) (creatorId roomInfo))
            then ret tt
            else
              (let* _ := saveDrawingPoint code data in
               emit (ToOthers code sid) (DrawMsg data))
        end))
    (ret tt).

(** [socket.on('imageChunk')] (server side: relay only). *)
Definition on_imageChunk (sid : string) (data : Chunk) : M unit :=
  try_catch
    (let* cur := gets (currentRoom_of sid) in
     if negb (room_truthy cur) then emit (ToSocket sid) (ErrorMsg ErrNotJoinedRefresh)
     else
       let code := default EmptyString cur in
       emit (ToOthers code sid) (ImageChunkMsg data))
    (emit (ToSocket sid) (ErrorMsg ErrChunk)).

(** [socket.on('pasteImage')] *)
Definition on_pasteImage (now : Z) (sid : string) (data : ImageRec) : M unit :=
  try_catch
    (let* cur := gets (currentRoom_of sid) in
     if negb (room_truthy cur) then emit (ToSocket sid) (ErrorMsg ErrNotJoinedRefresh)
     else
       let code := default EmptyString cur in
       let data1 :=
         mkImageRec (imageData data) (img_x data) (img_y data) (img_width data) (img_height data)
           (if truthy (img_timestamp data) then img_timestamp data else VNum now)
           (if truthy (img_userId data) then img_userId data else VStr sid)
           (synced data) in
       (let* saved := saveImage code data1 in
        if saved then emit (ToOthers code sid) (PasteImageMsg data1)
        else emit (ToSocket sid) (ErrorMsg ErrImageSave)))
    (emit (ToSocket sid) (ErrorMsg ErrImage)).

(** [socket.on('clearCanvas')] *)
Definition on_clearCanvas (sid : string) : M unit :=
  try_catch
    (let* cur := gets (currentRoom_of sid) in
     if negb (room_truthy cur) then ret tt
     else
       let code := default EmptyString cur in
       (let* cached := gets (λ st, rooms st !! code) in
        match cached with
        | None => emit (ToSocket sid) (ErrorMsg ErrNoRoomInfo)
        | Some roomInfo =>
            let* creator := gets (λ st, isCreator sid st roomInfo) in
            if negb creator then emit (ToSocket sid) (ErrorMsg ErrClearNotCreator)
            else
              (let* _ := clearDrawingPoints code in
               let* _ := clearImages code in
               emit (ToOthers code sid) ClearCanvasMsg)
        end))
    (emit (ToSocket sid) (ErrorMsg ErrClear)).

(** [socket.on('ping')]: the same data goes back through the callback or
    through a [pong] message. *)
Definition on_ping (sid : string) : M unit :=
  let* roomCode := gets (λ st, userRooms st !! sid) in
  let* roomUsers :=
    (if room_truthy roomCode then
       let code := default EmptyString roomCode in
       (let* n := gets (λ st, actualUsers st code) in
        let* cached := gets (λ st, rooms st !! code) in
        let* _ :=
          (match cached with
           | Some room =>
               if negb (users room =? n) then
                 modify (set_rooms
                   (<[code := mkRoom (createdAt room) (lastActive room) n
                                     (creatorId room) (drawingEnabled room)]>))
               else ret tt
           | None => ret tt
           end) in
        ret n)
     else ret 0) in
  let* clients := gets connectedClients in
  emit (ToSocket sid) (PongMsg sid clients roomUsers).

(** [socket.on('requestRoomInfo')] *)
Definition on_requestRoomInfo (now : Z) (sid : string) : M unit :=
  let* roomCode := gets (λ st, userRooms st !! sid) in
  if room_truthy roomCode then
    let code := default EmptyString roomCode in
    (let* n := gets (λ st, actualUsers st code) in
     let* cached := gets (λ st, rooms st !! code) in
     let* _ :=
       (match cached with
        | Some room =>
            modify (set_rooms
              (<[code := mkRoom (createdAt room) (lastActive room) n
                                (creatorId room) (drawingEnabled room)]>))
        | None => ret tt
        end) in
     emit (ToSocket sid)
       (RoomInfoMsg code n (from_option createdAt now cached)))
  else ret tt.

(** [socket.on('disconnect')] (the registration that keeps the counters).
    Socket.IO has removed the socket from every room before the event is
    delivered; the connection's record is dropped afterwards. *)
Definition on_disconnect (now : Z) (sid : string) : M unit :=
  let* _ := modify (set_adapter (fmap (λ s : gset string, s ∖ {[ sid ]}))) in
  let* _ := modify (set_connectedClients (λ n, n - 1)) in
  let* _ :=
    try_catch
      (let* cur := gets (currentRoom_of sid) in
       if room_truthy cur then
         let code := default EmptyString cur in
         (let* _ := modify (set_userRooms (delete sid)) in
          let* _ := updateRoomInfo now code in
          let* n := gets (λ st, actualUsers st code) in
          emit (ToOthers code sid) (UserLeft sid (Some n)))
       else ret tt)
      (ret tt) in
  modify (set_sockets (delete sid)).

(** ** Room code generation and the creation API *)

(** [Math.floor(100000 + Math.random() * 900000).toString()], given the
    integer the floor produced. *)
Definition toString (n : Z) : string :=
  DecimalString.NilZero.string_of_int (Z.to_int n).

(** [createUniqueRoomCode()].  [samples i] is the integer drawn in the
    [i]-th iteration of the [while (exists)] loop.  The loop has no exit
    other than finding an unused code: [fuel] bounds the iterations that are
    unfolded, and [None] means that the loop is still running after them. *)
Fixpoint createUniqueRoomCode (fuel : nat) (now : Z) (samples : nat → Z) (i : nat)
  : M (option string) :=
  match fuel with
  | O => ret None
  | S fuel' =>
      let roomCode := toString (samples i) in
      let* roomInfo := getRoomInfo now roomCode in
      if bool_decide (is_Some roomInfo)
      then createUniqueRoomCode fuel' now samples (S i)
      else ret (Some roomCode)
  end.

(** [GET /api/create-room]; [token] is the string
    [`${req.ip}-${Date.now()}`] built by the route.  The answer is the pair
    sent back as JSON. *)
Definition api_create_room (fuel : nat) (now : Z) (samples : nat → Z) (token : string)
  : M (option (string * string)) :=
  let* found := createUniqueRoomCode fuel now samples 0%nat in
  match found with
  | None => ret None
  | Some roomCode =>
      let* _ := createRoom now roomCode (Some token) in
      ret (Some (roomCode, token))
  end.

(** ** The periodic sweep (the one-minute [setInterval]) *)

Fixpoint for_each {A} (l : list A) (body : A → M unit) : M unit :=
  match l with
  | [] => ret tt
  | x :: l' => let* _ := body x in for_each l' body
  end.

(** Body of the first loop, for one entry of [Object.entries(rooms)], up to
    its first [await]: the live count is read and, when the cached count
    differs, written to the cache.  The result is [actualUsers] when the
    iteration goes on, [None] when it is over. *)
Definition sweep_reconcile_begin (code : string) : M (option Z) :=
  let* cached := gets (λ st, rooms st !! code) in
  match cached with
  | None => ret None
  | Some room =>
      let* n := gets (λ st, actualUsers st code) in
      if negb (users room =? n) then
        (let* _ := modify (set_rooms
           (<[code := mkRoom (createdAt room) (lastActive room) n
                             (creatorId room) (drawingEnabled room)]>)) in
         ret (Some n))
      else ret None
  end.

(** The rest of the iteration: the store commands, each of them awaited,
    then the broadcast of [n], the count read before them. *)
Definition sweep_reconcile_resume (now : Z) (code : string) (n : Z) : M unit :=
  let* _ :=
    try_catch
      (let* ex := cmd_exists code in
       if ex then
         (let* _ := cmd_hSet code (λ h,
            mkRoomHash (h_createdAt h) (h_lastActive h) (Some n)
                       (h_creatorId h) (h_drawingEnabled h)) in
          let* _ := cmd_hSet code (λ h,
            mkRoomHash (h_createdAt h) (Some now) (h_users h)
                       (h_creatorId h) (h_drawingEnabled h)) in
          if 0 <? n then cmd_persist else cmd_expire)
       else ret tt)
      (ret tt) in
  emit (ToRoom code) (UserCountUpdated n).

(** The iteration when no event arrives while it awaits the store: the two
    halves one after the other.  [sweep_reconcile_interleaved] below is the
    iteration with arrivals in between. *)
Definition sweep_reconcile_room (now : Z) (code : string) : M unit :=
  let* pending := sweep_reconcile_begin code in
  match pending with
  | Some n => sweep_reconcile_resume now code n
  | None => ret tt
  end.

(** Body of the second loop: eviction of an empty, inactive room. *)
Definition sweep_evict_room (now : Z) (code : string) : M unit :=
  let* cached := gets (λ st, rooms st !! code) in
  match cached with
  | None => ret tt
  | Some room =>
      if users room <=? 0 then
        let inactiveTime := now - lastActive room in
        if 60 * 60 * 1000 <? inactiveTime then
          try_catch
            (let* _ := cmd_del_hash code in
             let* _ := cmd_del_points code in
             let* _ := cmd_del_images code in
             modify (set_rooms (delete code)))
            (ret tt)
        else ret tt
      else ret tt
  end.

(** One run of the interval callback during which no other event arrives.
    The codes are visited in the order of [map_to_list]; JavaScript visits
    them in property order, which only permutes the emitted
    [userCountUpdated] messages. *)
Definition sweep (now : Z) : M unit :=
  let* codes1 := gets (λ st, (map_to_list (rooms st)).*1) in
  let* _ := for_each codes1 (sweep_reconcile_room now) in
  let* codes2 := gets (λ st, (map_to_list (rooms st)).*1) in
  for_each codes2 (sweep_evict_room now).

(** ** Events and the server as a transition function *)

Inductive Event : Type :=
  | EConnection (sid : string) (hdr : option string)
  | EJoinRoom (now : Z) (sid code : string)
  | ERequestDrawingData (sid : string)
  | ERequestImageData (sid : string)
  | EToggleDrawing (sid : string) (enabledArg : jsval)
  | EDraw (sid : string) (data : Stroke)
  | EImageChunk (sid : string) (data : Chunk)
  | EPasteImage (now : Z) (sid : string) (data : ImageRec)
  | EClearCanvas (sid : string)
  | EPing (sid : string)
  | ERequestRoomInfo (now : Z) (sid : string)
  | EDisconnect (now : Z) (sid : string)
  | EHttpRoomPage (now : Z) (code : string)
  | EApiCreateRoom (fuel : nat) (now : Z) (samples : nat → Z) (token : string)
  | ESweep (now : Z)
  | ERedis (clientNow enabledNow failingNow : bool).   (* the store's condition changes *)

Definition void {A} (m : M A) : M unit := let* _ := m in ret tt.

(** Socket events reach only the handlers of a connected socket. *)
Definition when_connected (sid : string) (m : M unit) : M unit :=
  let* known := gets (λ st, bool_decide (is_Some (sockets st !! sid))) in
  if known then m else ret tt.

(** [socket.on('joinRoom')] (second registration).  [roomInfo] is not a
    variable of its scope: as soon as the room has a member, the callback of
    [map] raises a [ReferenceError] and nothing is emitted. *)
Definition on_joinRoom_usersList (code : string) : M unit :=
  let* socketsInRoom := gets (λ st, live st code) in
  if bool_decide (socketsInRoom = ∅) then ret tt else throw.

(** Whether the first [joinRoom] listener is suspended before its
    [socket.join]: it is when it looks the room up in the store
    ([await redisClient.exists]).  Otherwise its first [await] is in the
    replay, after the [userJoined] broadcast; without a store it has none. *)
Definition suspended_before_join (code : string) (st : State) : bool :=
  bool_decide (rooms st !! code = None) && isRedisAvailable st.

(** The [joinRoom] event: both listeners.  The second runs as soon as the
    first is suspended or has ended, and reads the adapter of that moment:
    after [leave_previous] when the first is suspended before its
    [socket.join], with the socket in the room otherwise (the replay leaves
    the adapter alone).  Its exception is raised outside the [try] of the
    first: the event ends in [Thrown], an unhandled rejection, with the
    state and the messages of the first listener. *)
Definition on_joinRoom_listeners (now : Z) (sid code : string) : M unit := λ st,
  let early := state_of (leave_previous now sid st) in
  match on_joinRoom now sid code st with
  | (r, st', o) =>
      let seen := if suspended_before_join code early then early else st' in
      match on_joinRoom_usersList code seen with
      | (Thrown, _, _) => (Thrown, st', o)
      | (Ok _, _, _) => (r, st', o)
      end
  end.

Definition handle (ev : Event) : M unit :=
  match ev with
  | EConnection sid hdr =>
      let* known := gets (λ st, bool_decide (is_Some (sockets st !! sid))) in
      if known then ret tt else on_connection sid hdr
  | EJoinRoom now sid code => when_connected sid (on_joinRoom_listeners now sid code)
  | ERequestDrawingData sid => when_connected sid (on_requestDrawingData sid)
  | ERequestImageData sid => when_connected sid (on_requestImageData sid)
  | EToggleDrawing sid e => when_connected sid (on_toggleDrawing sid e)
  | EDraw sid data => when_connected sid (on_draw sid data)
  | EImageChunk sid data => when_connected sid (on_imageChunk sid data)
  | EPasteImage now sid data => when_connected sid (on_pasteImage now sid data)
  | EClearCanvas sid => when_connected sid (on_clearCanvas sid)
  | EPing sid => when_connected sid (on_ping sid)
  | ERequestRoomInfo now sid => when_connected sid (on_requestRoomInfo now sid)
  | EDisconnect now sid => when_connected sid (on_disconnect now sid)
  | EHttpRoomPage now code => http_room_page now code
  | EApiCreateRoom fuel now samples token => void (api_create_room fuel now samples token)
  | ESweep now => sweep now
  | ERedis c e f =>
      modify (set_redis (λ r, mkRedis c e f (hashes r) (points r) (images r)))
  end.

(** A run of the server on a Node that goes on after an unhandled rejection
    (before version 15, or with [--unhandled-rejections=warn]): the final
    state and everything emitted. *)
Fixpoint run (evs : list Event) (st : State) : State * list Emission :=
  match evs with
  | [] => (st, [])
  | ev :: evs' =>
      match handle ev st with
      | (_, st1, o1) =>
          match run evs' st1 with (st2, o2) => (st2, o1 ++ o2) end
      end
  end.

(** The events that find a server on a Node that ends the process at the
    first unhandled rejection (the default from version 15 on; the
    [Dockerfile] asks for [node:16]): those up to the first event that ends
    in [Thrown].  The later ones find no process. *)
Fixpoint served (evs : list Event) (st : State) : list Event :=
  match evs with
  | [] => []
  | ev :: evs' =>
      match handle ev st with
      | (Ok _, st1, _) => ev :: served evs' st1
      | (Thrown, _, _) => [ev]
      end
  end.

(** ** The sweep, with arrivals during its awaits *)

(** A command issued to a non-null client gives a promise, and the sweep is
    suspended until it settles; on a [null] client the call raises at once,
    inside the [try], and the iteration goes on without a pause. *)
Definition sweep_suspends (st : State) : bool := client (redis st).

(** One iteration of the first loop during which the events [arrivals] are
    handled while it awaits its first store command. *)
Definition sweep_reconcile_interleaved (now : Z) (code : string) (arrivals : list Event)
  : M unit :=
  let* pending := sweep_reconcile_begin code in
  match pending with
  | Some n =>
      let* suspended := gets sweep_suspends in
      let* _ := (if suspended then (λ st, match run arrivals st with (st', o) => (Ok tt, st', o) end)
                 else ret tt) in
      sweep_reconcile_resume now code n
  | None => ret tt
  end.

(** ** Further listeners and routes, and the store keys *)

(** [GET /api/check-room/:roomCode]: the [exists] field of the answer; the
    route looks at the cache only. *)
Definition api_check_room (code : string) (st : State) : bool :=
  bool_decide (is_Some (rooms st !! code)).

(** [socket.on('requestServerStatus')]: the payload of [serverStatus]. *)
Record ServerStatus : Type := mkServerStatus {
  status_connectedClients : Z;
  status_totalRooms : Z
}.

Definition on_requestServerStatus (st : State) : ServerStatus :=
  mkServerStatus (connectedClients st) (Z.of_nat (size (rooms st))).

(** What [requestUsersList] sends back: an [error] event, or the
    [usersList] payload.  The members are listed in the order of
    [elements]; JavaScript lists them in the order in which they joined. *)
Inductive UsersListReply : Type :=
  | UsersListError (e : ErrMsg)
  | UsersList (listed : list (string * bool)) (creator : jsval).

(** [socket.on('requestUsersList')] *)
Definition on_requestUsersList (sid : string) (st : State) : UsersListReply :=
  let cur := currentRoom_of sid st in
  if negb (room_truthy cur) then UsersListError ErrNotJoined
  else
    let code := default EmptyString cur in
    match rooms st !! code with
    | None => UsersListError ErrNoRoomInfo
    | Some roomInfo =>
        match adapter st !! code with
        | None => UsersList [] (creatorId roomInfo)
        | Some socketsInRoom =>
            UsersList
              ((λ socketId, (socketId, strict_eq (VStr socketId) (creatorId roomInfo)))
                 <$> elements socketsInRoom)
              (creatorId roomInfo)
        end
    end.

(** The names of the three store keys of a room: [`room:${roomCode}`],
    [`room:${roomCode}:points`] and [`room:${roomCode}:images`]. *)
Definition roomKey (roomCode : string) : string := "room:" +:+ roomCode.
Definition pointsKey (roomCode : string) : string := "room:" +:+ roomCode +:+ ":points".
Definition imagesKey (roomCode : string) : string := "room:" +:+ roomCode +:+ ":images".

(** [s.split(sep)] for a separator of one character. *)
Fixpoint split (sep : ascii) (s : string) : list string :=
  match s with
  | EmptyString => [EmptyString]
  | String c s' =>
      if bool_decide (c = sep) then EmptyString :: split sep s'
      else match split sep s' with
           | p :: ps => String c p :: ps
           | [] => [String c EmptyString]
           end
  end.


(** * The client: chunked image transfer *)

(** An entry of the client's [imageChunks] object. *)
Record Session : Type := mkSession {
  chunks : list (option string);   (* [new Array(totalChunks)]: [None] is a hole *)
  meta : option Meta;
  received : nat
}.

(** What the receiver hands to the canvas and to local storage once a
    transfer is complete. *)
Record Assembled : Type := mkAssembled {
  fullImageData : string;
  a_meta : option Meta;
  a_timestamp : Z;
  a_userId : string
}.

(** [array[i] = x] on a JavaScript array: an index past the end extends the
    array with holes. *)
Definition array_set (l : list (option string)) (i : nat) (x : string) : list (option string) :=
  if decide (i < length l)%nat then <[i := Some x]> l
  else l ++ replicate (i - length l) None ++ [Some x].

(** [array.join('')]: a hole contributes the empty string. *)
Fixpoint join (l : list (option string)) : string :=
  match l with
  | [] => EmptyString
  | x :: l' => String.append (default EmptyString x) (join l')
  end.

(** The client's [socket.on('imageChunk')]; [me] is the client's own
    [socket.id]. *)
Definition client_on_imageChunk (me : string) (data : Chunk) (imageChunks : gmap Z Session)
  : gmap Z Session * option Assembled :=
  if bool_decide (chunk_userId data = me) then (imageChunks, None)
  else
    let timestamp := chunk_timestamp data in
    let imageChunks1 :=
      if bool_decide (chunkIndex data = 0%nat)
      then <[timestamp := mkSession (replicate (totalChunks data) None) (chunk_meta data) 0]>
             imageChunks
      else imageChunks in
    match imageChunks1 !! timestamp with
    | None => (imageChunks1, None)
    | Some s =>
        let s' := mkSession (array_set (chunks s) (chunkIndex data) (chunk data))
                            (meta s) (S (received s)) in
        if bool_decide (received s' = totalChunks data)
        then (delete timestamp imageChunks1,
              Some (mkAssembled (join (chunks s')) (meta s') timestamp (chunk_userId data)))
        else (<[timestamp := s']> imageChunks1, None)
    end.

(** Chunks arriving one after the other; the completed images in order. *)
Fixpoint deliver (me : string) (arrivals : list Chunk) (imageChunks : gmap Z Session)
  : gmap Z Session * list Assembled :=
  match arrivals with
  | [] => (imageChunks, [])
  | data :: rest =>
      match client_on_imageChunk me data imageChunks with
      | (imageChunks1, done1) =>
          match deliver me rest imageChunks1 with
          | (imageChunks2, done2) => (imageChunks2, from_option (λ a, [a]) [] done1 ++ done2)
          end
      end
  end.

(** The chunk with index [i] of a three-chunk transfer, as
    [sendImageInChunks] builds it: the placement is on chunk 0 only. *)
Definition chunk_of_3 (uid : string) (ts : Z) (m : Meta) (i : nat) (fragment : string) : Chunk :=
  mkChunk i 3 fragment uid ts (if bool_decide (i = 0%nat) then Some m else None).




Definition MAX_CHUNK_SIZE : nat := 50 * 1024.





(** [imageDataStr.substring(start, Math.min(start + MAX_CHUNK_SIZE, length))]
    for the chunk with index [i]. *)
Definition fragment (s : string) (i : nat) : string :=
  let start := (i * MAX_CHUNK_SIZE)%nat in
  let stop := Nat.min (start + MAX_CHUNK_SIZE) (String.length s) in
  String.substring start (stop - start) s.


(** ** The client: room code, local copy of the images, permissions *)

(** [array.indexOf(x)]: the first position of [x], or [-1]. *)
Fixpoint indexOf (x : string) (l : list string) : Z :=
  match l with
  | [] => -1
  | y :: l' =>
      if bool_decide (y = x) then 0
      else let i := indexOf x l' in if i <? 0 then -1 else i + 1
  end.

(** [getCurrentRoomCode()], as a function of [window.location.pathname];
    [None] is [null]. *)
Definition getCurrentRoomCode (pathname : string) : option string :=
  let pathParts := split "/" pathname in
  let roomCodeIndex := indexOf "room" pathParts + 1 in
  if (0 <? roomCodeIndex) && (roomCodeIndex <? Z.of_nat (length pathParts))
  then pathParts !! Z.to_nat roomCodeIndex
  else None.













(** * Vocabulary of the properties *)

(** The store accepts commands and the server believes so. *)
Definition store_ready (st : State) : bool :=
  isRedisAvailable st && negb (failing (redis st)).

(** A connection that is in room [code] as far as its handlers can tell. *)
Definition in_room (sid code : string) (st : State) : Prop :=
  currentRoom_of sid st = Some code ∧ code ≠ EmptyString.

(** What an accepted stroke does: one [draw] message to the other members of
    the room, and an append to the persisted log exactly when the store is
    ready. *)
Definition stroke_relayed (sid code : string) (data : Stroke) (st : State) : Prop :=
  let x := on_draw sid data st in
  res_of x = Ok tt ∧
  (∃ e, out_of x = [e] ∧ e_target e = ToOthers code sid ∧ e_msg e = DrawMsg data ∧
        recipients e = live st code ∖ {[ sid ]}) ∧
  stroke_log (state_of x) code =
    (if store_ready st then stroke_log st code ++ [data] else stroke_log st code).

(** The reading in which acceptance always appends to the log. *)
Definition stroke_appended_and_broadcast (sid code : string) (data : Stroke) (st : State) : Prop :=
  let x := on_draw sid data st in
  stroke_log (state_of x) code = stroke_log st code ++ [data] ∧
  (∃ e, out_of x = [e] ∧ e_msg e = DrawMsg data ∧ recipients e = live st code ∖ {[ sid ]}).

Definition stroke0 : Stroke := mkStroke 0 0 10 10 "#000" 2 "pen".

(** A fresh server without a store (the configuration outside production:
    [redisClient] stays [null]). *)
Definition server_without_store : State :=
  mkState ∅ ∅ 0 ∅ ∅ (mkRedis false false false ∅ ∅ ∅).

(** A fresh server with a connected, healthy store. *)
Definition server_with_store : State :=
  mkState ∅ ∅ 0 ∅ ∅ (mkRedis true true false ∅ ∅ ∅).

(** [A] first-joins room 482913 and becomes its creator, [B] joins, [A]
    disables drawing. *)
Definition scene_disabled (st : State) : State :=
  (run [EConnection "A" None; EJoinRoom 1000 "A" "482913";
        EConnection "B" None; EJoinRoom 2000 "B" "482913";
        EToggleDrawing "A" (VBool false)] st).1.

(** The page route creates room 482913, then [A] and [B] join. *)
Definition scene_page_room (st : State) : State :=
  (run [EHttpRoomPage 500 "482913";
        EConnection "A" None; EJoinRoom 1000 "A" "482913";
        EConnection "B" None; EJoinRoom 2000 "B" "482913"] st).1.

Definition error_to (sid : string) (e : ErrMsg) (st : State) : Emission :=
  mkEmission (ToSocket sid) (ErrorMsg e) (adapter st).

(** An error event reaches connection [sid]. *)
Definition surfaces_error (sid : string) (out : list Emission) : Prop :=
  ∃ e, e ∈ out ∧ e_target e = ToSocket sid ∧ is_error (e_msg e) = true.

(** A server on which [A] is connected and has joined nothing. *)
Definition scene_connected (st : State) : State :=
  (run [EConnection "A" None] st).1.

Definition no_error (out : list Emission) : Prop :=
  Forall (λ e, is_error (e_msg e) = false) out.

(** The record [pasteImage] stores and relays: [userId] and [timestamp]
    are filled in when falsy. *)
Definition stamped (now : Z) (sid : string) (data : ImageRec) : ImageRec :=
  mkImageRec (imageData data) (img_x data) (img_y data) (img_width data) (img_height data)
    (if truthy (img_timestamp data) then img_timestamp data else VNum now)
    (if truthy (img_userId data) then img_userId data else VStr sid)
    (synced data).

(** [wp m Q st]: running [m] from [st] ends with a result, a state and an
    output that satisfy [Q]. *)
Definition wp {A} (m : M A) (Q : Res A → State → list Emission → Prop) (st : State) : Prop :=
  match m st with (r, st', o) => Q r st' o end.

(** A message that carries a member count carries the size of the live
    connection set of its room, as the adapter has it when the message is
    emitted. *)
Definition count_ok (e : Emission) : Prop :=
  match e_msg e with
  | RoomJoined code _ n _ _ => n = actual_of (e_adapter e) code
  | UserJoined _ n | UserLeft _ (Some n) | UserCountUpdated n =>
      match e_target e with
      | ToOthers code _ | ToRoom code => n = actual_of (e_adapter e) code
      | ToSocket _ => False
      end
  | _ => True
  end.

(** Output of a step that neither misreports a count nor reports an error. *)
Definition benign (o : list Emission) : Prop :=
  Forall (λ e, count_ok e ∧ is_error (e_msg e) = false) o.

(** Rooms of the cache stay, with their creator. *)
Definition rooms_extend (st st' : State) : Prop :=
  ∀ c r, rooms st !! c = Some r →
    ∃ r', rooms st' !! c = Some r' ∧ creatorId r' = creatorId r.

(** The store's condition and its two logs are untouched, and the cache
    only grows. *)
Definition frame (st st' : State) : Prop :=
  client (redis st') = client (redis st) ∧
  enabled (redis st') = enabled (redis st) ∧
  failing (redis st') = failing (redis st) ∧
  points (redis st') = points (redis st) ∧
  images (redis st') = images (redis st) ∧
  rooms_extend st st'.

(** The usual postcondition: the step returned, kept the frame and its
    output is benign. *)
Definition kept {A} (st : State) : Res A → State → list Emission → Prop :=
  λ r st' o, r ≠ Thrown ∧ frame st st' ∧ benign o.

Definition drawing_replay (sid code : string) (st : State) : list Emission :=
  [mkEmission (ToSocket sid)
     (LoadDrawing (if store_ready st then stroke_log st code else [])) (adapter st)].

Definition images_replay (sid code : string) (st : State) : list Emission :=
  if store_ready st then
    if 0 <? Z.of_nat (length (image_log st code))
    then [mkEmission (ToSocket sid) (LoadImages (image_log st code)) (adapter st)]
    else []
  else [mkEmission (ToSocket sid) (LoadImages []) (adapter st)].

(** [A] and [B] are both in room 482913, created by [A]'s first join. *)
Definition scene_joined (st : State) : State :=
  (run [EConnection "A" None; EJoinRoom 1000 "A" "482913";
        EConnection "B" None; EJoinRoom 2000 "B" "482913"] st).1.

Definition image0 : ImageRec :=
  mkImageRec "data:image/jpeg;base64,AAAA" 10 20 300 200 (VNum 1500) (VStr "A") (VBool false).

Definition counted {A} : Res A → State → list Emission → Prop :=
  λ _ _ o, Forall count_ok o.

(** The hash of a room that the server can currently read from the store. *)
Definition stored_room (st : State) (code : string) : option RoomHash :=
  if store_ready st then hashes (redis st) !! code else None.

Definition meta0 : Meta := mkMeta 10 20 300 200 1500 "A".

(** [!!roomInfo] for the result of [getRoomInfo]: the room is in the cache,
    or the server can read it from the store. *)
Definition room_known (st : State) (code : string) : bool :=
  bool_decide (is_Some (rooms st !! code)) || bool_decide (is_Some (stored_room st code)).

(** A server whose cache holds room 482913. *)
Definition scene_one_room : State :=
  (run [EHttpRoomPage 500 "482913"] server_without_store).1.

Definition emitted (evs : list Event) (st : State) : list (Target * Msg) :=
  (λ e, (e_target e, e_msg e)) <$> (run evs st).2.

(** [A] creates room 482913 by joining at time 0 and disconnects at time
    1000: the room is empty, last active at 1000. *)
Definition scene_abandoned (st : State) : State :=
  (run [EConnection "A" None; EJoinRoom 0 "A" "482913"; EDisconnect 1000 "A"] st).1.

Definition minutes (n : Z) : Z := n * 60 * 1000.




(** The part of the state that belongs to room [c]. *)
Definition untouched (c : string) (st st' : State) : Prop :=
  rooms st' !! c = rooms st !! c ∧
  hashes (redis st') !! c = hashes (redis st) !! c ∧
  points (redis st') !! c = points (redis st) !! c ∧
  images (redis st') !! c = images (redis st) !! c.

(** The part that every iteration reads and none writes. *)
Definition same_env (st st' : State) : Prop :=
  adapter st' = adapter st ∧
  client (redis st') = client (redis st) ∧
  failing (redis st') = failing (redis st).

Definition aside (c : string) (st st' : State) : Prop := untouched c st st' ∧ same_env st st'.

(** A room record with its member count replaced. *)
Definition with_users (room : Room) (n : Z) : Room :=
  mkRoom (createdAt room) (lastActive room) n (creatorId room) (drawingEnabled room).

(** The first loop at room [c]: the cached count becomes the live one; the
    room's logs are not touched. *)
Definition reconciled (c : string) (st st' : State) : Prop :=
  rooms st' !! c = (λ room, with_users room (actualUsers st c)) <$> rooms st !! c ∧
  points (redis st') !! c = points (redis st) !! c ∧
  images (redis st') !! c = images (redis st) !! c ∧
  same_env st st'.

(** Whether the second loop evicts [room]. *)
Definition stale (now : Z) (room : Room) : bool :=
  (users room <=? 0) && (60 * 60 * 1000 <? now - lastActive room).

(** The store takes commands: the client exists and does not reject them. *)
Definition store_answers (st : State) : bool :=
  client (redis st) && negb (failing (redis st)).

(** The second loop at room [c]: a stale room disappears from the cache and
    from the store when the store answers, and stays when it does not. *)
Definition evicted_or_kept (now : Z) (c : string) (st st' : State) : Prop :=
  match rooms st !! c with
  | None => rooms st' !! c = None
  | Some room =>
      if stale now room && store_answers st
      then rooms st' !! c = None ∧ hashes (redis st') !! c = None ∧
           points (redis st') !! c = None ∧ images (redis st') !! c = None
      else rooms st' !! c = Some room ∧
           points (redis st') !! c = points (redis st) !! c ∧
           images (redis st') !! c = images (redis st) !! c
  end ∧ same_env st st'.

(** The server process starts again: the cache and the connections are
    gone, the store is as it was. *)
Definition restart (st : State) : State := mkState ∅ ∅ 0 ∅ ∅ (redis st).

(** Leaving the previous room creates no room and leaves the store alone. *)
Definition nothing_new (st st' : State) : Prop :=
  (∀ c, rooms st !! c = None → rooms st' !! c = None) ∧ redis st' = redis st.

(** All integers of [lo, lo + len) pass [test], checked by halving. *)
Fixpoint all_in_range (fuel : nat) (test : Z → bool) (lo len : Z) : bool :=
  match fuel with
  | O => len <=? 0
  | S fuel' =>
      if len <=? 0 then true
      else if len =? 1 then test lo
      else all_in_range fuel' test lo (len / 2)
           && all_in_range fuel' test (lo + len / 2) (len - len / 2)
  end.

(** The events that are runs of the periodic sweep. *)
Definition is_sweep (ev : Event) : bool :=
  match ev with ESweep _ => true | _ => false end.

(** The connection bookkeeping is as it was: the connections, their
    counter, the adapter's rooms and [userRooms]. *)
Definition same_book (st st' : State) : Prop :=
  sockets st' = sockets st ∧ connectedClients st' = connectedClients st ∧
  adapter st' = adapter st ∧ userRooms st' = userRooms st.

Definition booked {A} (st : State) : Res A → State → list Emission → Prop :=
  λ _ st' _, same_book st st'.

(** The adapter's rooms once connection [sid] has left the room its
    handlers hold as [currentRoom]. *)
Definition adapter_left (sid : string) (st : State) : gmap string (gset string) :=
  let cur := currentRoom_of sid st in
  if room_truthy cur
  then <[default EmptyString cur := live st (default EmptyString cur) ∖ {[ sid ]}]> (adapter st)
  else adapter st.

(** [joinRoom] with the empty room code is set apart: the handlers test
    [if (currentRoom)], which takes the empty string for "no room". *)
Definition proper (ev : Event) : Prop :=
  match ev with
  | EJoinRoom _ _ code => code ≠ EmptyString
  | _ => True
  end.

(** The bookkeeping of connections is consistent. *)
Record well_kept (st : State) : Prop := mk_well_kept {
  wk_count : connectedClients st = Z.of_nat (size (sockets st));
  wk_member : ∀ code sid, sid ∈ live st code → code = sid ∨ currentRoom_of sid st = Some code;
  wk_current : ∀ sid code, currentRoom_of sid st = Some code → sid ∈ live st code;
  wk_connected : ∀ code sid, sid ∈ live st code → is_Some (sockets st !! sid);
  wk_userRooms : ∀ sid, userRooms st !! sid = currentRoom_of sid st;
  wk_nonempty : ∀ sid, currentRoom_of sid st ≠ Some EmptyString
}.

(** Rooms of the cache stay, with their creator and their drawing flag. *)
Definition rooms_keep (st st' : State) : Prop :=
  ∀ c r, rooms st !! c = Some r →
    ∃ r', rooms st' !! c = Some r' ∧ creatorId r' = creatorId r ∧
          drawingEnabled r' = drawingEnabled r.

(** The record that [createRoom] caches, and the one that is read back from
    the hash it writes. *)
Definition created_room (now : Z) (creator : option string) : Room :=
  mkRoom now now 0 (from_option VStr VNull creator) (VBool true).

Definition reloaded_room (now : Z) (creator : option string) : Room :=
  mkRoom now now 0 (VStr (default EmptyString creator)) (VStr "true").



(** Two visitors: [A] and [B] join room 482913, [B] moves on to room
    771204, [A] disconnects. *)
Definition visit : list Event :=
  [EConnection "A" None; EJoinRoom 1000 "A" "482913";
   EConnection "B" None; EJoinRoom 2000 "B" "482913";
   EJoinRoom 3000 "B" "771204"; EDisconnect 4000 "A"].

(** The hash of room 482913 once [A] has disabled drawing in it. *)
Definition hash_disabled : RoomHash :=
  mkRoomHash (Some 1000) (Some 1000) (Some 0) (Some "A"%string) (Some "false"%string).

(** Whether character [ch] occurs in [s]. *)
Fixpoint has_char (ch : ascii) (s : string) : bool :=
  match s with
  | EmptyString => false
  | String c s' => bool_decide (c = ch) || has_char ch s'
  end.

Fixpoint chars (s : string) : list ascii :=
  match s with
  | EmptyString => []
  | String c s' => c :: chars s'
  end.




(** The token that the creation API hands to its caller. *)
Definition token0 : string := "203.0.113.7-500".

(** The creation API makes room 482913 for the holder of [token0].  [A]
    presents the token in its [x-creator-id] header, [B] presents nothing;
    both join, and [A] disables drawing. *)
Definition scene_token_creator (st : State) : State :=
  (run [EApiCreateRoom 1 500 (λ _, 482913) token0;
        EConnection "A" (Some token0); EJoinRoom 1000 "A" "482913";
        EConnection "B" None; EJoinRoom 2000 "B" "482913";
        EToggleDrawing "A" (VBool false)] st).1.

(** A room whose cached count is out of date.  [B] and [C] join the room
    named by the connection id of [A], in which [A] has been since it
    connected; then [A] disconnects, and its [disconnect] listener updates
    the room it had joined, which is none. *)
Definition scene_miscounted (st : State) : State :=
  (run [EConnection "A" None; EConnection "B" None; EConnection "C" None;
        EJoinRoom 1000 "B" "A"; EJoinRoom 2000 "C" "A";
        EDisconnect 3000 "A"] st).1.

(** An emission with the size of the live set of [code] when it is sent. *)
Definition with_live (code : string) (e : Emission) : Target * Msg * Z :=
  (e_target e, e_msg e, actual_of (e_adapter e) code).



(** The computation does not raise. *)
Definition returns {A} : Res A → State → list Emission → Prop := λ r _ _, r ≠ Thrown.

(** * Properties *)

(** ** Unfolding the monad *)

Ltac munfold :=
  unfold void, when_connected, bind, ret, gets, modify, emit, try_catch, throw,
    state_of, out_of, res_of in *.

Lemma bind_ok {A B} (m : M A) (k : A → M B) st a st1 o1 :
  m st = (Ok a, st1, o1) →
  bind m k st = (let '(r, st2, o2) := k a st1 in (r, st2, o1 ++ o2)).
Proof. intros H. unfold bind. rewrite H. reflexivity. Qed.

Lemma bind_thrown {A B} (m : M A) (k : A → M B) st st1 o1 :
  m st = (Thrown, st1, o1) → bind m k st = (Thrown, st1, o1).
Proof. intros H. unfold bind. rewrite H. reflexivity. Qed.

Lemma isRedisAvailable_no_client st :
  client (redis st) = false → isRedisAvailable st = false.
Proof. unfold isRedisAvailable. intros ->. apply andb_false_r. Qed.

(** ** The store adapter *)

Lemma saveDrawingPoint_spec code p st :
  saveDrawingPoint code p st =
    (Ok tt,
     (if store_ready st
      then set_redis (set_points (λ m, <[code := default [] (m !! code) ++ [p]]> m)) st
      else st),
     []).
Proof.
  unfold saveDrawingPoint, store_ready, cmd_rPush_points, cmd_expire, redis_cmd. munfold.
  unfold isRedisAvailable.
  destruct st as [rs ur cc sk ad [c e f h pt im]]; simpl.
  destruct e, c, f; reflexivity.
Qed.

Lemma saveDrawingPoint_log code p st :
  stroke_log (state_of (saveDrawingPoint code p st)) code =
    if store_ready st then stroke_log st code ++ [p] else stroke_log st code.
Proof.
  rewrite saveDrawingPoint_spec. unfold state_of, stroke_log; simpl.
  destruct (store_ready st); simpl; [|done].
  by rewrite lookup_insert_eq.
Qed.

Lemma saveImage_spec code i st :
  saveImage code i st =
    (Ok (store_ready st),
     (if store_ready st
      then set_redis (set_images (λ m, <[code := default [] (m !! code) ++ [i]]> m)) st
      else st),
     []).
Proof.
  unfold saveImage, store_ready, cmd_rPush_images, cmd_expire, redis_cmd. munfold.
  unfold isRedisAvailable.
  destruct st as [rs ur cc sk ad [c e f h pt im]]; simpl.
  destruct e, c, f; reflexivity.
Qed.

Lemma getDrawingPoints_spec code st :
  getDrawingPoints code st =
    (Ok (if store_ready st then stroke_log st code else []), st, []).
Proof.
  unfold getDrawingPoints, store_ready, stroke_log, cmd_lRange_points, redis_cmd. munfold.
  unfold isRedisAvailable.
  destruct st as [rs ur cc sk ad [c e f h pt im]]; simpl.
  destruct e, c, f; reflexivity.
Qed.

Lemma getImages_spec code st :
  getImages code st =
    (Ok (if store_ready st then image_log st code else []), st, []).
Proof.
  unfold getImages, store_ready, image_log, cmd_lRange_images, redis_cmd. munfold.
  unfold isRedisAvailable.
  destruct st as [rs ur cc sk ad [c e f h pt im]]; simpl.
  destruct e, c, f; reflexivity.
Qed.

Lemma clearDrawingPoints_spec code st :
  clearDrawingPoints code st =
    (Ok tt, (if store_ready st then set_redis (set_points (delete code)) st else st), []).
Proof.
  unfold clearDrawingPoints, store_ready, cmd_del_points, redis_cmd. munfold.
  unfold isRedisAvailable.
  destruct st as [rs ur cc sk ad [c e f h pt im]]; simpl.
  destruct e, c, f; reflexivity.
Qed.

Lemma clearImages_spec code st :
  clearImages code st =
    (Ok tt, (if store_ready st then set_redis (set_images (delete code)) st else st), []).
Proof.
  unfold clearImages, store_ready, cmd_del_images, redis_cmd. munfold.
  unfold isRedisAvailable.
  destruct st as [rs ur cc sk ad [c e f h pt im]]; simpl.
  destruct e, c, f; reflexivity.
Qed.

(** ** The permission gate of [draw] *)

Lemma in_room_truthy sid code st :
  in_room sid code st →
  currentRoom_of sid st = Some code ∧ room_truthy (Some code) = true.
Proof.
  intros [H Hne]. split; [done|]. unfold room_truthy.
  by rewrite bool_decide_eq_false_2.
Qed.

(** The handler past its three early returns. *)
Lemma on_draw_unfold sid code room data st :
  in_room sid code st →
  rooms st !! code = Some room →
  on_draw sid data st =
    if strict_eq (drawingEnabled room) (VBool false)
       && negb (strict_eq (VStr sid) (creatorId room))
    then (Ok tt, st, [])
    else
      let st1 := state_of (saveDrawingPoint code data st) in
      (Ok tt, st1, [mkEmission (ToOthers code sid) (DrawMsg data) (adapter st1)]).
Proof.
  intros [Hcur Ht]%in_room_truthy Hroom.
  unfold on_draw. munfold. rewrite Hcur, Ht. simpl. rewrite Hroom.
  destruct (strict_eq (drawingEnabled room) (VBool false)
            && negb (strict_eq (VStr sid) (creatorId room))); [done|].
  rewrite saveDrawingPoint_spec. simpl. reflexivity.
Qed.

Lemma saveDrawingPoint_adapter code p st :
  adapter (state_of (saveDrawingPoint code p st)) = adapter st.
Proof. rewrite saveDrawingPoint_spec. unfold state_of; simpl. by destruct (store_ready st). Qed.

Lemma strict_eq_true a b : strict_eq a b = true ↔ a = b.
Proof. unfold strict_eq. apply bool_decide_eq_true. Qed.

Lemma strict_eq_false a b : strict_eq a b = false ↔ a ≠ b.
Proof. unfold strict_eq. apply bool_decide_eq_false. Qed.

Lemma on_draw_passes sid code room data st :
  in_room sid code st →
  rooms st !! code = Some room →
  drawingEnabled room ≠ VBool false ∨ creatorId room = VStr sid →
  stroke_relayed sid code data st.
Proof.
  intros Hin Hroom Hpass. unfold stroke_relayed.
  rewrite (on_draw_unfold _ _ _ _ _ Hin Hroom).
  assert (strict_eq (drawingEnabled room) (VBool false)
          && negb (strict_eq (VStr sid) (creatorId room)) = false) as ->.
  { apply andb_false_iff. destruct Hpass as [H|H].
    - left. by apply strict_eq_false.
    - right. apply negb_false_iff, strict_eq_true. done. }
  cbn zeta. unfold res_of, out_of. simpl. split; [done|]. split.
  - eexists. split; [done|]. simpl. split; [done|]. split; [done|].
    unfold recipients; simpl. by rewrite saveDrawingPoint_adapter.
  - apply saveDrawingPoint_log.
Qed.

Lemma on_draw_blocked sid code room data st :
  in_room sid code st →
  rooms st !! code = Some room →
  drawingEnabled room = VBool false →
  creatorId room ≠ VStr sid →
  on_draw sid data st = (Ok tt, st, []).
Proof.
  intros Hin Hroom Hoff Hnc.
  rewrite (on_draw_unfold _ _ _ _ _ Hin Hroom).
  assert (strict_eq (drawingEnabled room) (VBool false)
          && negb (strict_eq (VStr sid) (creatorId room)) = true) as ->; [|done].
  apply andb_true_iff. split.
  - by apply strict_eq_true.
  - apply negb_true_iff, strict_eq_false. congruence.
Qed.

(** *** At concrete inputs *)

(** Without a store the stroke of the creator by connection id is relayed
    to the room, and no log receives it. *)
Lemma creator_stroke_not_logged_without_store :
  in_room "A" "482913" (scene_disabled server_without_store) ∧
  (∃ room, rooms (scene_disabled server_without_store) !! "482913" = Some room ∧
           drawingEnabled room = VBool false ∧ creatorId room = VStr "A") ∧
  ¬ stroke_appended_and_broadcast "A" "482913" stroke0 (scene_disabled server_without_store).
Proof.
  split; [split; [vm_compute; reflexivity | discriminate]|].
  split.
  - eexists. split; [vm_compute; reflexivity|]. split; reflexivity.
  - intros [Hlog _]. vm_compute in Hlog. discriminate.
Qed.

(** The gate as the handler has it: it compares [creatorId] with the
    connection id, and with nothing else.  In a room whose cached
    [drawingEnabled] is [false], a stroke from a connection whose id is not
    [creatorId] changes nothing and emits nothing.  A stroke from the
    connection whose id is [creatorId], or any stroke while [drawingEnabled]
    is [true], is sent to every other member of the room, and is appended
    to the persisted log when the store is ready. *)
Lemma draw_gate_by_connection_id sid code room data st :
  in_room sid code st →
  rooms st !! code = Some room →
  (drawingEnabled room = VBool false → creatorId room ≠ VStr sid →
     on_draw sid data st = (Ok tt, st, []))
  ∧ (drawingEnabled room = VBool true ∨ creatorId room = VStr sid →
     stroke_relayed sid code data st).
Proof.
  intros Hin Hroom. split.
  - intros. by eapply on_draw_blocked.
  - intros H. eapply on_draw_passes; [done..|].
    destruct H as [H|H]; [left; congruence | by right].
Qed.

Lemma draw_gate_by_connection_id_witness :
  on_draw "B" stroke0 (scene_disabled server_with_store)
    = (Ok tt, scene_disabled server_with_store, [])
  ∧ stroke_relayed "A" "482913" stroke0 (scene_disabled server_with_store).
Proof.
  assert (in_room "B" "482913" (scene_disabled server_with_store)) as HB
    by (split; [vm_compute; reflexivity | discriminate]).
  assert (in_room "A" "482913" (scene_disabled server_with_store)) as HA
    by (split; [vm_compute; reflexivity | discriminate]).
  assert (rooms (scene_disabled server_with_store) !! "482913"%string
          = Some (mkRoom 1000 2000 2 (VStr "A") (VBool false))) as Hroom
    by (vm_compute; reflexivity).
  split.
  - apply (proj1 (draw_gate_by_connection_id "B" "482913" _ stroke0 _ HB Hroom)).
    + reflexivity.
    + discriminate.
  - apply (proj2 (draw_gate_by_connection_id "A" "482913" _ stroke0 _ HA Hroom)).
    right. reflexivity.
Defined.

(** *** Rooms without a [drawingEnabled] field *)

(** The page route leaves both [creatorId] and [drawingEnabled] out of the
    record it creates. *)
Lemma http_room_page_record now code st :
  rooms st !! code = None →
  rooms (state_of (http_room_page now code st)) !! code
    = Some (mkRoom now now 0 VUndef VUndef).
Proof.
  intros Hnone. unfold http_room_page, cmd_hSet, cmd_expire, redis_cmd. munfold.
  rewrite Hnone. unfold isRedisAvailable.
  destruct st as [rs ur cc sk ad [c e f h pt im]]; simpl in *.
  destruct e, c, f; simpl; apply lookup_insert_eq.
Qed.

(** C10, as stated, fails: in a room made by the page route on a server
    without a store, a member's stroke is relayed but nothing persists it. *)
Lemma page_room_stroke_not_persisted_without_store :
  in_room "B" "482913" (scene_page_room server_without_store) ∧
  (∃ room, rooms (scene_page_room server_without_store) !! "482913" = Some room ∧
           drawingEnabled room = VUndef) ∧
  ¬ stroke_appended_and_broadcast "B" "482913" stroke0 (scene_page_room server_without_store).
Proof.
  split; [split; [vm_compute; reflexivity | discriminate]|].
  split.
  - eexists. split; [vm_compute; reflexivity|]. reflexivity.
  - intros [Hlog _]. vm_compute in Hlog. discriminate.
Qed.

(** C10 (amended).  In a room whose record has no [drawingEnabled] field,
    a stroke from any member, creator or not, passes the gate (which drops
    only when [drawingEnabled === false] and the sender is not [creatorId]):
    it is sent to every other member of the room, and it is appended to the
    persisted log when the store is ready. *)
Theorem draw_without_enabled_field sid code room data st :
  in_room sid code st →
  rooms st !! code = Some room →
  drawingEnabled room = VUndef →
  stroke_relayed sid code data st.
Proof.
  intros Hin Hroom Hundef. eapply on_draw_passes; [done..|].
  left. rewrite Hundef. discriminate.
Qed.

Lemma draw_without_enabled_field_witness :
  stroke_relayed "B" "482913" stroke0 (scene_page_room server_with_store).
Proof.
  assert (in_room "B" "482913" (scene_page_room server_with_store)) as HB
    by (split; [vm_compute; reflexivity | discriminate]).
  assert (rooms (scene_page_room server_with_store) !! "482913"%string
          = Some (mkRoom 500 2000 2 VUndef VUndef)) as Hroom
    by (vm_compute; reflexivity).
  apply (draw_without_enabled_field "B" "482913" _ stroke0 _ HB Hroom).
  reflexivity.
Defined.

(** ** Operations from a connection that is in no room *)

(** C8, as stated, fails: a stroke from a connection in no room is dropped
    without any event. *)
Lemma draw_before_join_is_silent :
  currentRoom_of "A" (scene_connected server_with_store) = None ∧
  ¬ surfaces_error "A" (out_of (on_draw "A" stroke0 (scene_connected server_with_store))).
Proof.
  split; [vm_compute; reflexivity|].
  intros (e & Hin & _). vm_compute in Hin. by apply elem_of_nil in Hin.
Qed.

(** C8 (amended).  From a connection whose [currentRoom] is unset, an
    image-data request, an image chunk, an image paste and a permission
    toggle each send one error event to that connection and change no
    state; a stroke, a clear and a drawing-data request are ignored without
    any event and change no state.  No handler raises. *)
Theorem not_joined_operations sid now data ch img flag st :
  currentRoom_of sid st = None →
  on_requestImageData sid st = (Ok tt, st, [error_to sid ErrNotJoinedRefresh st]) ∧
  on_imageChunk sid ch st = (Ok tt, st, [error_to sid ErrNotJoinedRefresh st]) ∧
  on_pasteImage now sid img st = (Ok tt, st, [error_to sid ErrNotJoinedRefresh st]) ∧
  on_toggleDrawing sid flag st = (Ok tt, st, [error_to sid ErrNotJoined st]) ∧
  on_draw sid data st = (Ok tt, st, []) ∧
  on_clearCanvas sid st = (Ok tt, st, []) ∧
  on_requestDrawingData sid st = (Ok tt, st, []).
Proof.
  intros Hcur.
  unfold on_requestImageData, on_imageChunk, on_pasteImage, on_toggleDrawing,
    on_draw, on_clearCanvas, on_requestDrawingData, error_to.
  munfold. rewrite Hcur. simpl. repeat split.
Qed.

Lemma not_joined_operations_witness :
  on_toggleDrawing "A" (VBool false) (scene_connected server_with_store)
    = (Ok tt, scene_connected server_with_store,
       [error_to "A" ErrNotJoined (scene_connected server_with_store)]).
Proof.
  assert (currentRoom_of "A" (scene_connected server_with_store) = None) as H
    by (vm_compute; reflexivity).
  pose proof (not_joined_operations "A" 0 stroke0 (mkChunk 0 1 "" "A" 0 None)
                (mkImageRec "" 0 0 0 0 VUndef VUndef VUndef) (VBool false) _ H)
    as (_ & _ & _ & Htoggle & _).
  exact Htoggle.
Defined.

(** ** Store outage *)

Lemma on_requestDrawingData_unfold sid code st :
  in_room sid code st →
  on_requestDrawingData sid st =
    (Ok tt, st,
     [mkEmission (ToSocket sid)
        (LoadDrawing (if store_ready st then stroke_log st code else [])) (adapter st)]).
Proof.
  intros [Hcur Ht]%in_room_truthy.
  unfold on_requestDrawingData. munfold. rewrite Hcur, Ht. simpl.
  rewrite getDrawingPoints_spec. reflexivity.
Qed.

Lemma on_requestImageData_unfold sid code st :
  in_room sid code st →
  on_requestImageData sid st =
    (Ok tt, st,
     [mkEmission (ToSocket sid)
        (LoadImages (if store_ready st then image_log st code else [])) (adapter st)]).
Proof.
  intros [Hcur Ht]%in_room_truthy.
  unfold on_requestImageData. munfold. rewrite Hcur, Ht. simpl.
  rewrite getImages_spec. reflexivity.
Qed.

Lemma on_imageChunk_unfold sid code ch st :
  in_room sid code st →
  on_imageChunk sid ch st =
    (Ok tt, st, [mkEmission (ToOthers code sid) (ImageChunkMsg ch) (adapter st)]).
Proof.
  intros [Hcur Ht]%in_room_truthy.
  unfold on_imageChunk. munfold. rewrite Hcur, Ht. reflexivity.
Qed.

Lemma on_pasteImage_unfold now sid code img st :
  in_room sid code st →
  on_pasteImage now sid img st =
    if store_ready st then
      let st1 := set_redis (set_images
                   (λ m, <[code := default [] (m !! code) ++ [stamped now sid img]]> m)) st in
      (Ok tt, st1, [mkEmission (ToOthers code sid) (PasteImageMsg (stamped now sid img)) (adapter st)])
    else (Ok tt, st, [error_to sid ErrImageSave st]).
Proof.
  intros [Hcur Ht]%in_room_truthy.
  unfold on_pasteImage. munfold. rewrite Hcur, Ht. simpl.
  fold (stamped now sid img). rewrite saveImage_spec.
  destruct (store_ready st); reflexivity.
Qed.

Lemma on_clearCanvas_unfold sid code room st :
  in_room sid code st →
  rooms st !! code = Some room →
  isCreator sid st room = true →
  on_clearCanvas sid st =
    (Ok tt,
     (if store_ready st
      then set_redis (λ r, set_images (delete code) (set_points (delete code) r)) st
      else st),
     [mkEmission (ToOthers code sid) ClearCanvasMsg (adapter st)]).
Proof.
  intros [Hcur Ht]%in_room_truthy Hroom Hcr.
  unfold on_clearCanvas. munfold. rewrite Hcur, Ht. simpl. rewrite Hroom, Hcr. simpl.
  rewrite clearDrawingPoints_spec.
  destruct (store_ready st) eqn:Hready.
  - rewrite clearImages_spec.
    assert (store_ready (set_redis (set_points (delete code)) st) = true) as ->.
    { revert Hready. unfold store_ready, isRedisAvailable. by destruct st as [? ? ? ? ? []]. }
    reflexivity.
  - rewrite clearImages_spec, Hready. reflexivity.
Qed.

(** [toggleDrawing] from the creator. *)
Lemma on_toggleDrawing_unfold sid code room flag st :
  in_room sid code st →
  rooms st !! code = Some room →
  isCreator sid st room = true →
  let room' := mkRoom (createdAt room) (lastActive room) (users room) (creatorId room) flag in
  let st1 := set_rooms (<[code := room']>) st in
  on_toggleDrawing sid flag st =
    if isRedisAvailable st then
      if negb (failing (redis st)) then
        (Ok tt,
         set_redis (set_hashes (λ h,
           <[code := let old := default (mkRoomHash None None None None None) (h !! code) in
                     mkRoomHash (h_createdAt old) (h_lastActive old) (h_users old) (h_creatorId old)
                       (Some (if truthy flag then "true" else "false")%string)]> h)) st1,
         [mkEmission (ToRoom code) (DrawingPermissionChanged flag sid) (adapter st)])
      else (Ok tt, st1, [error_to sid ErrToggle st])
    else (Ok tt, st1, [mkEmission (ToRoom code) (DrawingPermissionChanged flag sid) (adapter st)]).
Proof.
  intros [Hcur Ht]%in_room_truthy Hroom Hcr.
  unfold on_toggleDrawing, cmd_hSet, redis_cmd, error_to. munfold.
  rewrite Hcur, Ht. simpl. rewrite Hroom, Hcr. simpl.
  unfold isRedisAvailable.
  destruct st as [rs ur cc sk ad [c e f h pt im]]; simpl in *.
  destruct e, c, f; reflexivity.
Qed.

(** ** Reasoning about handlers: postconditions on result, state and output *)

Arguments wp : simpl never.
Arguments bind : simpl never.
Arguments ret : simpl never.
Arguments gets : simpl never.
Arguments modify : simpl never.
Arguments emit : simpl never.
Arguments try_catch : simpl never.
Arguments redis_cmd : simpl never.

Lemma wp_run {A} (m : M A) Q st :
  wp m Q st → Q (res_of (m st)) (state_of (m st)) (out_of (m st)).
Proof. unfold wp, res_of, state_of, out_of. by destruct (m st) as [[r st'] o]. Qed.

Lemma wp_mono {A} (m : M A) (Q Q' : Res A → State → list Emission → Prop) st :
  wp m Q st → (∀ r st' o, Q r st' o → Q' r st' o) → wp m Q' st.
Proof. unfold wp. destruct (m st) as [[r st'] o]. auto. Qed.

Lemma wp_ret {A} (a : A) Q st : Q (Ok a) st [] → wp (ret a) Q st.
Proof. done. Qed.

Lemma wp_gets {A} (f : State → A) Q st : Q (Ok (f st)) st [] → wp (gets f) Q st.
Proof. done. Qed.

Lemma wp_modify f Q st : Q (Ok tt) (f st) [] → wp (modify f) Q st.
Proof. done. Qed.

Lemma wp_emit t x Q st : Q (Ok tt) st [mkEmission t x (adapter st)] → wp (emit t x) Q st.
Proof. done. Qed.

Lemma wp_redis_cmd {A} (f : Redis → A * Redis) Q st :
  (if client (redis st) && negb (failing (redis st))
   then Q (Ok (f (redis st)).1) (set_redis (λ _, (f (redis st)).2) st) []
   else Q Thrown st []) →
  wp (redis_cmd f) Q st.
Proof.
  unfold wp, redis_cmd. destruct (client (redis st) && negb (failing (redis st))); [|done].
  by destruct (f (redis st)).
Qed.

Lemma wp_bind {A B} (m : M A) (k : A → M B) Q st :
  wp m (λ r st1 o1,
          match r with
          | Ok a => wp (k a) (λ r2 st2 o2, Q r2 st2 (o1 ++ o2)) st1
          | Thrown => Q Thrown st1 o1
          end) st →
  wp (bind m k) Q st.
Proof.
  unfold wp, bind. destruct (m st) as [[[a|] st1] o1]; [|done].
  by destruct (k a st1) as [[r2 st2] o2].
Qed.

Lemma wp_try_catch {A} (body handler : M A) Q st :
  wp body (λ r st1 o1,
             match r with
             | Ok a => Q (Ok a) st1 o1
             | Thrown => wp handler (λ r2 st2 o2, Q r2 st2 (o1 ++ o2)) st1
             end) st →
  wp (try_catch body handler) Q st.
Proof.
  unfold wp, try_catch. destruct (body st) as [[[a|] st1] o1]; [done|].
  by destruct (handler st1) as [[r2 st2] o2].
Qed.

Lemma wp_bind_ret {A B} (a : A) (k : A → M B) Q st :
  wp (k a) Q st → wp (bind (ret a) k) Q st.
Proof. unfold wp, bind, ret. by destruct (k a st) as [[r2 st2] o2]. Qed.

Lemma wp_bind_gets {A B} (f : State → A) (k : A → M B) Q st :
  wp (k (f st)) Q st → wp (bind (gets f) k) Q st.
Proof. unfold wp, bind, gets. by destruct (k (f st) st) as [[r2 st2] o2]. Qed.

Lemma wp_bind_modify {B} f (k : unit → M B) Q st :
  wp (k tt) Q (f st) → wp (bind (modify f) k) Q st.
Proof. unfold wp, bind, modify. by destruct (k tt (f st)) as [[r2 st2] o2]. Qed.

Lemma wp_bind_emit {B} t x (k : unit → M B) Q st :
  wp (k tt) (λ r st' o, Q r st' (mkEmission t x (adapter st) :: o)) st →
  wp (bind (emit t x) k) Q st.
Proof. unfold wp, bind, emit. by destruct (k tt st) as [[r2 st2] o2]. Qed.

Lemma wp_bind_redis_cmd {A B} (f : Redis → A * Redis) (k : A → M B) Q st :
  (if client (redis st) && negb (failing (redis st))
   then wp (k (f (redis st)).1) Q (set_redis (λ _, (f (redis st)).2) st)
   else Q Thrown st []) →
  wp (bind (redis_cmd f) k) Q st.
Proof.
  unfold wp, bind, redis_cmd. destruct (client (redis st) && negb (failing (redis st))); [|done].
  destruct (f (redis st)) as [a r]; simpl.
  by destruct (k a _) as [[r2 st2] o2].
Qed.

(** Sequencing after a computation known only through a postcondition. *)
Lemma wp_bind_call {A B} (m : M A) (k : A → M B) R Q st :
  wp m R st →
  (∀ r st1 o1, R r st1 o1 →
     match r with
     | Ok a => wp (k a) (λ r2 st2 o2, Q r2 st2 (o1 ++ o2)) st1
     | Thrown => Q Thrown st1 o1
     end) →
  wp (bind m k) Q st.
Proof. intros Hm Hk. apply wp_bind. eapply wp_mono; [exact Hm|]. exact Hk. Qed.

(** A store command: the case of a rejected command is split off once per
    state, and remembered. *)
Ltac wp_cmd_cases :=
  simpl;
  lazymatch goal with
  | H : client (redis ?s) && negb (failing (redis ?s)) = _
    |- context [client (redis ?s) && negb (failing (redis ?s))] => rewrite H
  | |- context [client (redis ?s) && negb (failing (redis ?s))] =>
      destruct (client (redis s) && negb (failing (redis s))) eqn:?
  end;
  cbn [fst snd].

Ltac wp_step :=
  lazymatch goal with
  | |- wp (bind (ret _) _) _ _ => apply wp_bind_ret
  | |- wp (bind (gets _) _) _ _ => apply wp_bind_gets
  | |- wp (bind (modify _) _) _ _ => apply wp_bind_modify
  | |- wp (bind (emit _ _) _) _ _ => apply wp_bind_emit
  | |- wp (bind (redis_cmd _) _) _ _ => apply wp_bind_redis_cmd; wp_cmd_cases
  | |- wp (bind (try_catch _ _) _) _ _ => apply wp_bind; apply wp_try_catch
  | |- wp (try_catch _ _) _ _ => apply wp_try_catch
  | |- wp (ret _) _ _ => apply wp_ret
  | |- wp (gets _) _ _ => apply wp_gets
  | |- wp (modify _) _ _ => apply wp_modify
  | |- wp (emit _ _) _ _ => apply wp_emit
  | |- wp (redis_cmd _) _ _ => apply wp_redis_cmd; wp_cmd_cases
  end; cbn beta iota.

Ltac wp_steps := repeat wp_step.

(** ** Member counts in messages *)

Lemma benign_nil : benign [].
Proof. apply Forall_nil_2. Qed.

Lemma benign_app o1 o2 : benign o1 → benign o2 → benign (o1 ++ o2).
Proof. unfold benign. intros. by apply Forall_app. Qed.

Lemma benign_cons e o : count_ok e → is_error (e_msg e) = false → benign o → benign (e :: o).
Proof. unfold benign. intros. by apply Forall_cons. Qed.

(** ** What a step keeps *)

Lemma rooms_extend_refl st : rooms_extend st st.
Proof. intros c r H. eauto. Qed.

Lemma rooms_extend_trans st1 st2 st3 :
  rooms_extend st1 st2 → rooms_extend st2 st3 → rooms_extend st1 st3.
Proof.
  intros H12 H23 c r H. destruct (H12 c r H) as (r2 & H2 & E2).
  destruct (H23 c r2 H2) as (r3 & H3 & E3). exists r3. split; [done|congruence].
Qed.

Lemma frame_refl st : frame st st.
Proof. unfold frame. repeat split; apply rooms_extend_refl. Qed.

Lemma frame_trans st1 st2 st3 : frame st1 st2 → frame st2 st3 → frame st1 st3.
Proof.
  unfold frame. intros (?&?&?&?&?&?) (?&?&?&?&?&?).
  repeat split; try congruence. by eapply rooms_extend_trans.
Qed.


Lemma rooms_extend_insert_same st st' code room room' :
  rooms st !! code = Some room →
  creatorId room' = creatorId room →
  rooms st' = <[code := room']> (rooms st) →
  rooms_extend st st'.
Proof.
  intros Hroom Hc Heq c r Hr. rewrite Heq.
  destruct (decide (code = c)) as [->|Hne].
  - rewrite lookup_insert_eq. exists room'. split; [done|]. congruence.
  - rewrite lookup_insert_ne by done. eauto.
Qed.

Lemma rooms_extend_insert_fresh st st' code room' :
  rooms st !! code = None →
  rooms st' = <[code := room']> (rooms st) →
  rooms_extend st st'.
Proof.
  intros Hroom Heq c r Hr. rewrite Heq.
  destruct (decide (code = c)) as [->|Hne]; [congruence|].
  rewrite lookup_insert_ne by done. eauto.
Qed.

Lemma rooms_extend_same st st' : rooms st' = rooms st → rooms_extend st st'.
Proof. intros Heq c r Hr. rewrite Heq. eauto. Qed.

Ltac solve_benign :=
  repeat first
    [ apply benign_nil
    | apply benign_cons; [try reflexivity; try exact I | reflexivity |]
    | apply benign_app ].

(** [updateRoomInfo] keeps the frame; the count it broadcasts is the live
    one. *)
Lemma updateRoomInfo_kept now code st :
  wp (updateRoomInfo now code) (kept st) st.
Proof.
  unfold updateRoomInfo. wp_step.
  destruct (rooms st !! code) as [room|] eqn:Hroom.
  - wp_step. destruct (negb (users room =? actualUsers st code)).
    + wp_steps. split; [done|]. split.
      * unfold frame; simpl. repeat split; try done.
        eapply rooms_extend_insert_same; [eassumption| |simpl; reflexivity]; reflexivity.
      * solve_benign.
    + wp_steps. split; [done|]. split; [apply frame_refl | solve_benign].
  - wp_steps. split; [done|]. split; [apply frame_refl | solve_benign].
Qed.

(** After [updateRoomInfo] the cached count of the room is the size of its
    live connection set. *)
Lemma updateRoomInfo_reconciles now code st :
  wp (updateRoomInfo now code)
     (λ _ st' _, adapter st' = adapter st ∧
                 ∀ room, rooms st' !! code = Some room → users room = actualUsers st' code) st.
Proof.
  unfold updateRoomInfo. wp_step.
  destruct (rooms st !! code) as [room|] eqn:Hroom.
  - wp_step. destruct (users room =? actualUsers st code) eqn:Hn; simpl.
    + wp_steps. split; [done|]. intros room' Hr. rewrite Hroom in Hr.
      injection Hr as <-. by apply Z.eqb_eq.
    + wp_steps. split; [done|]. simpl. intros room' Hr.
      rewrite lookup_insert_eq in Hr. by injection Hr as <-.
  - wp_steps. split; [done|]. intros room' Hr. congruence.
Qed.

Lemma leave_previous_kept now sid st :
  wp (leave_previous now sid) (kept st) st.
Proof.
  unfold leave_previous. wp_step.
  destruct (room_truthy (currentRoom_of sid st)).
  - unfold socket_leave. wp_step.
    eapply wp_bind_call; [apply updateRoomInfo_kept|].
    intros [[]|] st1 o1 (Hok & Hf & Hb); [|done].
    wp_steps. split; [done|]. split.
    + eapply frame_trans; [|exact Hf]. unfold frame; simpl.
      repeat split; try done. by apply rooms_extend_same.
    + apply benign_app; [done|]. solve_benign.
  - wp_steps. split; [done|]. split; [apply frame_refl | solve_benign].
Qed.

Ltac unfold_cmds :=
  unfold cmd_exists, cmd_hGetAll, cmd_hSet, cmd_expire, cmd_persist, cmd_rPush_points,
    cmd_rPush_images, cmd_lRange_points, cmd_lRange_images, cmd_del_hash, cmd_del_points,
    cmd_del_images.

Ltac solve_frame :=
  unfold frame; simpl; repeat split; try done;
  first [ apply rooms_extend_refl
        | by apply rooms_extend_same
        | eapply rooms_extend_insert_same; [eassumption| |simpl; reflexivity]; reflexivity
        | eapply rooms_extend_insert_fresh; [eassumption|simpl; reflexivity] ].

Lemma lookup_room_kept now code st :
  wp (lookup_room now code)
     (λ r st' o, frame st st' ∧ o = [] ∧
                 ∃ loaded, r = Ok loaded ∧ (loaded = None → rooms st' !! code = None)) st.
Proof.
  unfold lookup_room. unfold_cmds. wp_step.
  destruct (rooms st !! code) as [room|] eqn:Hroom.
  - wp_steps. split; [apply frame_refl|]. split; [done|]. by eexists.
  - wp_step. destruct (isRedisAvailable st).
    + wp_step. wp_step.
      * destruct (bool_decide (is_Some (hashes (redis st) !! code))).
        -- wp_steps. split; [solve_frame|]. split; [done|]. by eexists.
        -- wp_steps. split; [solve_frame|]. split; [done|]. by eexists.
      * wp_steps. split; [solve_frame|]. split; [done|]. by eexists.
    + wp_steps. split; [apply frame_refl|]. split; [done|]. by eexists.
Qed.

Lemma create_on_join_kept now sid code st :
  rooms st !! code = None →
  wp (create_on_join now sid code)
     (λ r st' o, frame st st' ∧ o = [] ∧
                 r = Ok (mkRoom now now 0 (VStr sid) (VBool true)) ∧
                 rooms st' !! code = Some (mkRoom now now 0 (VStr sid) (VBool true))) st.
Proof.
  intros Hnone. unfold create_on_join. unfold_cmds. wp_step. wp_step.
  destruct (isRedisAvailable _).
  - wp_step. wp_step.
    + wp_steps; (split; [solve_frame|]); simpl; by rewrite lookup_insert_eq.
    + wp_steps. split; [solve_frame|]. simpl. by rewrite lookup_insert_eq.
  - wp_steps. split; [solve_frame|]. simpl. by rewrite lookup_insert_eq.
Qed.

Lemma wp_of_eq {A} (m : M A) Q st r st' o : m st = (r, st', o) → Q r st' o → wp m Q st.
Proof. unfold wp. by intros ->. Qed.

Lemma wp_bind_eq {A B} (m : M A) (k : A → M B) Q st a st1 o1 :
  m st = (Ok a, st1, o1) →
  wp (k a) (λ r2 st2 o2, Q r2 st2 (o1 ++ o2)) st1 →
  wp (bind m k) Q st.
Proof. intros Heq Hk. apply wp_bind. by eapply wp_of_eq. Qed.

Lemma enter_room_kept now sid code roomInfo st :
  wp (enter_room now sid code roomInfo)
     (λ r st' o, r = Ok tt ∧ frame st st' ∧ benign o ∧
        ∃ pre n e2, o = pre ++ [mkEmission (ToSocket sid)
                                   (RoomJoined code sid n
                                      (strict_eq (VStr sid) (creatorId roomInfo))
                                      (drawingEnabled roomInfo)) (adapter st'); e2]) st.
Proof.
  unfold enter_room, socket_join, set_currentRoom. wp_step. wp_step. wp_step.
  eapply wp_bind_call; [apply updateRoomInfo_kept|].
  intros [[]|] st1 o1 (Hok & Hf & Hb); [|done].
  wp_steps. split; [done|]. split; [|split].
  - eapply frame_trans; [|exact Hf]. solve_frame.
  - apply benign_app; [done|]. solve_benign.
  - eexists o1, _, _. reflexivity.
Qed.

Lemma send_drawing_spec sid code st :
  send_drawing sid code st = (Ok tt, st, drawing_replay sid code st).
Proof.
  unfold send_drawing, drawing_replay, store_ready, stroke_log, cmd_lRange_points, redis_cmd.
  munfold. unfold isRedisAvailable.
  destruct st as [rs ur cc sk ad [c e f h pt im]]; simpl.
  destruct e, c, f; reflexivity.
Qed.

Lemma send_images_spec sid code st :
  send_images sid code st = (Ok tt, st, images_replay sid code st).
Proof.
  unfold send_images, images_replay, store_ready, image_log, cmd_lRange_images, redis_cmd.
  munfold. unfold isRedisAvailable.
  destruct st as [rs ur cc sk ad [c e f h pt im]]; simpl.
  destruct e, c, f; simpl; try reflexivity.
  by destruct (0 <? Z.of_nat (length (default [] (im !! code)))).
Qed.

(** The shape of a join: it returns, keeps the frame, and its output is a
    benign prefix that holds the [roomJoined] answer, followed by the stroke
    replay and the image replay. *)
Lemma on_joinRoom_shape now sid code st :
  ∃ st' pre,
    on_joinRoom now sid code st
      = (Ok tt, st', pre ++ drawing_replay sid code st' ++ images_replay sid code st') ∧
    frame st st' ∧ benign pre ∧
    ∃ n b v, mkEmission (ToSocket sid) (RoomJoined code sid n b v) (adapter st') ∈ pre.
Proof.
  cut (wp (on_joinRoom now sid code)
         (λ r st' o, r = Ok tt ∧ frame st st' ∧
            ∃ pre, o = pre ++ drawing_replay sid code st' ++ images_replay sid code st' ∧
                   benign pre ∧
                   ∃ n b v, mkEmission (ToSocket sid) (RoomJoined code sid n b v)
                              (adapter st') ∈ pre) st).
  { unfold wp. destruct (on_joinRoom now sid code st) as [[r st'] o].
    intros (-> & Hf & pre & -> & Hb & Hj). exists st', pre.
    split; [reflexivity|]. split; [exact Hf|]. split; [exact Hb|exact Hj]. }
  unfold on_joinRoom. apply wp_try_catch.
  eapply wp_bind_call; [apply leave_previous_kept|].
  intros [[]|] st1 o1 (Hok1 & Hf1 & Hb1); [|done].
  eapply wp_bind_call; [apply lookup_room_kept|].
  intros r2 st2 o2 (Hf2 & -> & loaded & -> & Hnone).
  assert (∃ roomInfo st3,
            (match loaded with
             | Some r => ret r
             | None => create_on_join now sid code
             end) st2 = (Ok roomInfo, st3, []) ∧ frame st2 st3) as (roomInfo & st3 & Heq & Hf3).
  { destruct loaded as [r|].
    - exists r, st2. split; [done|apply frame_refl].
    - pose proof (create_on_join_kept now sid code st2 (Hnone eq_refl)) as Hc.
      unfold wp in Hc. destruct (create_on_join now sid code st2) as [[r3 st3] o3].
      destruct Hc as (Hf & -> & -> & _). eauto. }
  eapply wp_bind_eq; [exact Heq|].
  eapply wp_bind_call; [apply enter_room_kept|].
  intros r4 st4 o4 (-> & Hf4 & Hb4 & pre4 & n & e2 & ->).
  eapply wp_bind_eq; [apply send_drawing_spec|].
  eapply wp_of_eq; [apply send_images_spec|].
  split; [done|]. split.
  { eapply frame_trans; [exact Hf1|]. eapply frame_trans; [exact Hf2|].
    eapply frame_trans; [exact Hf3|exact Hf4]. }
  exists (o1 ++ pre4 ++ [mkEmission (ToSocket sid)
                            (RoomJoined code sid n (strict_eq (VStr sid) (creatorId roomInfo))
                               (drawingEnabled roomInfo)) (adapter st4); e2]).
  split; [|split].
  - simpl. rewrite <- !app_assoc. reflexivity.
  - apply benign_app; [done|]. exact Hb4.
  - exists n, (strict_eq (VStr sid) (creatorId roomInfo)), (drawingEnabled roomInfo).
    apply elem_of_app. right. apply elem_of_app. right. apply elem_of_cons. by left.
Qed.

(** C5, as stated, fails: without a store, a pasted image is answered with
    an error event and is not relayed to the room. *)
Lemma paste_without_store_reports_error :
  store_ready (scene_joined server_without_store) = false ∧
  in_room "A" "482913" (scene_joined server_without_store) ∧
  surfaces_error "A" (out_of (on_pasteImage 3000 "A" image0 (scene_joined server_without_store))) ∧
  ¬ (∃ e img, e ∈ out_of (on_pasteImage 3000 "A" image0 (scene_joined server_without_store)) ∧
              e_msg e = PasteImageMsg img).
Proof.
  assert (in_room "A" "482913" (scene_joined server_without_store)) as Hin
    by (split; [vm_compute; reflexivity | discriminate]).
  assert (store_ready (scene_joined server_without_store) = false) as Hready
    by (vm_compute; reflexivity).
  split; [done|]. split; [done|].
  rewrite (on_pasteImage_unfold _ _ _ _ _ Hin), Hready. unfold out_of; simpl. split.
  - eexists. split; [apply list_elem_of_singleton; reflexivity|]. split; reflexivity.
  - intros (e & img & He & Hmsg). apply list_elem_of_singleton in He. subst e. discriminate.
Qed.

(** C5 (amended).  While the store is not ready (the server knows it is
    unavailable, or its commands are rejected), the operations of a
    connection that is in a room behave as follows.  A stroke that passes
    the gate, a drawing-data request, an image-data request, an image chunk
    and a clear by the creator raise no error event and complete: the
    stroke, the chunk and the clear are relayed, the two replays answer
    with empty histories.  A permission toggle by the creator completes
    when the server knows the store is unavailable.  An image paste is
    different: it is answered with an error event to the sender and is not
    relayed. *)
Theorem store_outage_handling sid code now data ch img st :
  store_ready st = false →
  in_room sid code st →
  (∀ room, rooms st !! code = Some room →
     drawingEnabled room ≠ VBool false ∨ creatorId room = VStr sid →
     on_draw sid data st
       = (Ok tt, st, [mkEmission (ToOthers code sid) (DrawMsg data) (adapter st)])) ∧
  on_requestDrawingData sid st
    = (Ok tt, st, [mkEmission (ToSocket sid) (LoadDrawing []) (adapter st)]) ∧
  on_requestImageData sid st
    = (Ok tt, st, [mkEmission (ToSocket sid) (LoadImages []) (adapter st)]) ∧
  on_imageChunk sid ch st
    = (Ok tt, st, [mkEmission (ToOthers code sid) (ImageChunkMsg ch) (adapter st)]) ∧
  (∀ room, rooms st !! code = Some room → isCreator sid st room = true →
     on_clearCanvas sid st
       = (Ok tt, st, [mkEmission (ToOthers code sid) ClearCanvasMsg (adapter st)])) ∧
  (∀ room flag, rooms st !! code = Some room → isCreator sid st room = true →
     isRedisAvailable st = false →
     on_toggleDrawing sid flag st
       = (Ok tt,
          set_rooms (<[code := mkRoom (createdAt room) (lastActive room) (users room)
                                      (creatorId room) flag]>) st,
          [mkEmission (ToRoom code) (DrawingPermissionChanged flag sid) (adapter st)])) ∧
  on_pasteImage now sid img st = (Ok tt, st, [error_to sid ErrImageSave st]).
Proof.
  intros Hready Hin. repeat split.
  - intros room Hroom Hpass. rewrite (on_draw_unfold _ _ _ _ _ Hin Hroom).
    assert (strict_eq (drawingEnabled room) (VBool false)
            && negb (strict_eq (VStr sid) (creatorId room)) = false) as ->.
    { apply andb_false_iff. destruct Hpass as [H|H].
      - left. by apply strict_eq_false.
      - right. apply negb_false_iff, strict_eq_true. done. }
    cbn zeta. rewrite saveDrawingPoint_spec, Hready. reflexivity.
  - by rewrite (on_requestDrawingData_unfold _ _ _ Hin), Hready.
  - by rewrite (on_requestImageData_unfold _ _ _ Hin), Hready.
  - by rewrite (on_imageChunk_unfold _ _ _ _ Hin).
  - intros room Hroom Hcr. by rewrite (on_clearCanvas_unfold _ _ _ _ Hin Hroom Hcr), Hready.
  - intros room flag Hroom Hcr Hav.
    rewrite (on_toggleDrawing_unfold _ _ _ flag _ Hin Hroom Hcr). cbn zeta. by rewrite Hav.
  - by rewrite (on_pasteImage_unfold _ _ _ _ _ Hin), Hready.
Qed.

Lemma store_outage_handling_witness :
  on_requestImageData "B" (scene_joined server_without_store)
    = (Ok tt, scene_joined server_without_store,
       [mkEmission (ToSocket "B") (LoadImages []) (adapter (scene_joined server_without_store))]).
Proof.
  assert (in_room "B" "482913" (scene_joined server_without_store)) as Hin
    by (split; [vm_compute; reflexivity | discriminate]).
  assert (store_ready (scene_joined server_without_store) = false) as Hready
    by (vm_compute; reflexivity).
  pose proof (store_outage_handling "B" "482913" 3000 stroke0 (mkChunk 0 1 "" "B" 0 None)
                image0 _ Hready Hin) as (_ & _ & H & _).
  exact H.
Defined.

(** With a store that is believed available but rejects commands, the
    creator's toggle changes the cache and is answered with an error. *)
Lemma toggle_with_rejecting_store sid code room flag st :
  in_room sid code st →
  rooms st !! code = Some room →
  isCreator sid st room = true →
  isRedisAvailable st = true →
  failing (redis st) = true →
  out_of (on_toggleDrawing sid flag st) = [error_to sid ErrToggle st].
Proof.
  intros Hin Hroom Hcr Hav Hfail.
  rewrite (on_toggleDrawing_unfold _ _ _ flag _ Hin Hroom Hcr). cbn zeta.
  by rewrite Hav, Hfail.
Qed.

(** ** Every reported member count is the live one *)

Ltac solve_counted :=
  unfold counted; simpl;
  repeat first
    [ apply Forall_nil_2
    | apply Forall_cons; split; [first [exact I | reflexivity | done] |]
    | apply Forall_app; split
    | assumption ].

Lemma benign_counted o : benign o → Forall count_ok o.
Proof. unfold benign. intros H. eapply Forall_impl; [exact H|]. by intros e [? ?]. Qed.

Lemma on_connection_counted sid hdr st : wp (on_connection sid hdr) counted st.
Proof. unfold on_connection, socket_join. wp_steps. solve_counted. Qed.

Lemma on_joinRoom_counted now sid code st : wp (on_joinRoom now sid code) counted st.
Proof.
  destruct (on_joinRoom_shape now sid code st) as (st' & pre & Heq & _ & Hb & _).
  eapply wp_of_eq; [exact Heq|]. unfold counted.
  apply Forall_app. split; [by apply benign_counted|].
  unfold drawing_replay, images_replay.
  destruct (store_ready st'); [destruct (0 <? _)|]; solve_counted.
Qed.

(** The second [joinRoom] listener changes the result of the event only. *)
Lemma on_joinRoom_listeners_eq now sid code st :
  state_of (on_joinRoom_listeners now sid code st) = state_of (on_joinRoom now sid code st) ∧
  out_of (on_joinRoom_listeners now sid code st) = out_of (on_joinRoom now sid code st).
Proof.
  unfold on_joinRoom_listeners.
  destruct (on_joinRoom now sid code st) as [[r st'] o]. cbn zeta.
  by destruct (on_joinRoom_usersList _ _) as [[[]] ?].
Qed.

Lemma on_joinRoom_listeners_wp now sid code (Q : State → list Emission → Prop) st :
  wp (on_joinRoom now sid code) (λ _ st' o, Q st' o) st →
  wp (on_joinRoom_listeners now sid code) (λ _ st' o, Q st' o) st.
Proof.
  pose proof (on_joinRoom_listeners_eq now sid code st) as [Hs Ho]. unfold wp.
  destruct (on_joinRoom_listeners now sid code st) as [[r1 s1] o1].
  destruct (on_joinRoom now sid code st) as [[r2 s2] o2].
  unfold state_of, out_of in *. simpl in *. by subst.
Qed.

Lemma on_requestDrawingData_counted sid st : wp (on_requestDrawingData sid) counted st.
Proof.
  unfold on_requestDrawingData. wp_step. wp_step.
  destruct (negb _); [wp_steps; solve_counted|].
  eapply wp_bind_eq; [apply getDrawingPoints_spec|]. wp_steps. solve_counted.
Qed.

Lemma on_requestImageData_counted sid st : wp (on_requestImageData sid) counted st.
Proof.
  unfold on_requestImageData. wp_step. wp_step.
  destruct (negb _); [wp_steps; solve_counted|].
  eapply wp_bind_eq; [apply getImages_spec|]. wp_steps. solve_counted.
Qed.

Lemma on_toggleDrawing_counted sid flag st : wp (on_toggleDrawing sid flag) counted st.
Proof.
  unfold on_toggleDrawing. unfold_cmds. wp_step. wp_step.
  destruct (negb _); [wp_steps; solve_counted|].
  wp_step. destruct (rooms st !! _) as [room|]; [|wp_steps; solve_counted].
  wp_step. destruct (negb _); [wp_steps; solve_counted|].
  wp_step. wp_step. destruct (isRedisAvailable _).
  - wp_step; wp_steps; solve_counted.
  - wp_steps. solve_counted.
Qed.

Lemma on_draw_counted sid data st : wp (on_draw sid data) counted st.
Proof.
  unfold on_draw. wp_step. wp_step.
  destruct (negb _); [wp_steps; solve_counted|].
  wp_step. destruct (rooms st !! _) as [room|]; [|wp_steps; solve_counted].
  destruct (_ && _); [wp_steps; solve_counted|].
  eapply wp_bind_eq; [apply saveDrawingPoint_spec|]. wp_steps. solve_counted.
Qed.

Lemma on_imageChunk_counted sid ch st : wp (on_imageChunk sid ch) counted st.
Proof.
  unfold on_imageChunk. wp_step. wp_step.
  destruct (negb _); wp_steps; solve_counted.
Qed.

Lemma on_pasteImage_counted now sid img st : wp (on_pasteImage now sid img) counted st.
Proof.
  unfold on_pasteImage. wp_step. wp_step.
  destruct (negb _); [wp_steps; solve_counted|].
  cbn zeta. eapply wp_bind_eq; [apply saveImage_spec|].
  destruct (store_ready st); wp_steps; solve_counted.
Qed.

Lemma on_clearCanvas_counted sid st : wp (on_clearCanvas sid) counted st.
Proof.
  unfold on_clearCanvas. wp_step. wp_step.
  destruct (negb _); [wp_steps; solve_counted|].
  wp_step. destruct (rooms st !! _) as [room|]; [|wp_steps; solve_counted].
  wp_step. destruct (negb _); [wp_steps; solve_counted|].
  eapply wp_bind_eq; [apply clearDrawingPoints_spec|].
  eapply wp_bind_eq; [apply clearImages_spec|].
  wp_steps. solve_counted.
Qed.

Lemma on_ping_counted sid st : wp (on_ping sid) counted st.
Proof.
  unfold on_ping. wp_step. apply wp_bind.
  destruct (room_truthy _).
  - wp_step. wp_step. destruct (rooms st !! _) as [room|].
    + destruct (negb _); wp_steps; solve_counted.
    + wp_steps. solve_counted.
  - wp_steps. solve_counted.
Qed.

Lemma on_requestRoomInfo_counted now sid st : wp (on_requestRoomInfo now sid) counted st.
Proof.
  unfold on_requestRoomInfo. wp_step.
  destruct (room_truthy _); [|wp_steps; solve_counted].
  wp_step. wp_step. destruct (rooms st !! _) as [room|]; wp_steps; solve_counted.
Qed.

Lemma on_disconnect_counted now sid st : wp (on_disconnect now sid) counted st.
Proof.
  unfold on_disconnect. wp_step. wp_step. wp_step. wp_step.
  destruct (room_truthy _); [|wp_steps; solve_counted].
  wp_step.
  eapply wp_bind_call; [apply updateRoomInfo_kept|].
  intros [[]|] st1 o1 (Hok & Hf & Hb); [|done].
  wp_steps. apply benign_counted in Hb. solve_counted.
Qed.

(** *** Room lookup and creation emit nothing *)

Lemma getRoomInfo_spec now code st :
  getRoomInfo now code st =
    match rooms st !! code with
    | Some r => (Ok (Some r), st, [])
    | None =>
        match stored_room st code with
        | Some h => (Ok (Some (roomFromHash now h)),
                     set_rooms (<[code := roomFromHash now h]>) st, [])
        | None => (Ok None, st, [])
        end
    end.
Proof.
  unfold getRoomInfo, stored_room, store_ready, cmd_exists, cmd_hGetAll, redis_cmd.
  munfold. unfold isRedisAvailable.
  destruct st as [rs ur cc sk ad [c e f h pt im]]; simpl.
  destruct (rs !! code) as [r|]; [done|].
  destruct e, c, f; simpl; try reflexivity.
  destruct (h !! code) as [hh|] eqn:Hh.
  - rewrite bool_decide_eq_true_2 by eauto. simpl. rewrite Hh. reflexivity.
  - rewrite bool_decide_eq_false_2 by apply is_Some_None. reflexivity.
Qed.

Lemma createRoom_spec now code creator st :
  ∃ st', createRoom now code creator st
           = (Ok (mkRoom now now 0 (from_option VStr VNull creator) (VBool true)), st', []) ∧
         rooms st' = <[code := mkRoom now now 0 (from_option VStr VNull creator) (VBool true)]>
                       (rooms st) ∧
         adapter st' = adapter st.
Proof.
  unfold createRoom, cmd_hSet, cmd_expire, redis_cmd. munfold. unfold isRedisAvailable.
  destruct st as [rs ur cc sk ad [c e f h pt im]]; simpl.
  destruct e, c, f; simpl; eexists; (split; [reflexivity|]); split; reflexivity.
Qed.

Lemma http_room_page_quiet now code st :
  out_of (http_room_page now code st) = [].
Proof.
  unfold http_room_page, cmd_hSet, cmd_expire, redis_cmd. munfold. unfold isRedisAvailable.
  destruct st as [rs ur cc sk ad [c e f h pt im]]; simpl.
  destruct (rs !! code); [done|]. destruct e, c, f; reflexivity.
Qed.

Lemma createUniqueRoomCode_quiet fuel now samples i st :
  out_of (createUniqueRoomCode fuel now samples i st) = [].
Proof.
  revert i st. induction fuel as [|fuel IH]; intros i st; [done|].
  simpl. unfold out_of, bind. rewrite getRoomInfo_spec.
  destruct (rooms st !! _) as [r|]; simpl.
  - specialize (IH (S i) st). unfold out_of in IH.
    destruct (createUniqueRoomCode fuel now samples (S i) st) as [[? ?] ?]. done.
  - destruct (stored_room st _) as [h|]; simpl; [|done].
    specialize (IH (S i) (set_rooms <[toString (samples i):=roomFromHash now h]> st)).
    unfold out_of in IH.
    destruct (createUniqueRoomCode fuel now samples (S i) _) as [[? ?] ?]. done.
Qed.

Lemma api_create_room_quiet fuel now samples token st :
  out_of (api_create_room fuel now samples token st) = [].
Proof.
  unfold api_create_room, out_of, bind.
  pose proof (createUniqueRoomCode_quiet fuel now samples 0%nat st) as Hq. unfold out_of in Hq.
  destruct (createUniqueRoomCode fuel now samples 0%nat st) as [[[found|] st1] o1];
    simpl in Hq; subst o1; [|done].
  destruct found as [roomCode|]; [|done].
  destruct (createRoom_spec now roomCode (Some token) st1) as (st2 & -> & _). done.
Qed.

(** *** The sweep *)

Lemma for_each_counted {A} (body : A → M unit) l st :
  (∀ x st, wp (body x) counted st) → wp (for_each l body) counted st.
Proof.
  intros Hbody. revert st. induction l as [|x l IH]; intros st; simpl.
  - wp_steps. solve_counted.
  - eapply wp_bind_call; [apply Hbody|].
    intros [[]|] st1 o1 Ho1; [|exact Ho1].
    eapply wp_mono; [apply IH|]. intros r st2 o2 Ho2. unfold counted in *.
    by apply Forall_app.
Qed.

(** The two halves of an iteration, written as one block. *)
Lemma sweep_reconcile_room_wp now code Q st :
  wp (let* cached := gets (λ st, rooms st !! code) in
      match cached with
      | None => ret tt
      | Some room =>
          let* n := gets (λ st, actualUsers st code) in
          if negb (users room =? n) then
            (let* _ := modify (set_rooms
               (<[code := mkRoom (createdAt room) (lastActive room) n
                                 (creatorId room) (drawingEnabled room)]>)) in
             let* _ :=
               try_catch
                 (let* ex := cmd_exists code in
                  if ex then
                    (let* _ := cmd_hSet code (λ h,
                       mkRoomHash (h_createdAt h) (h_lastActive h) (Some n)
                                  (h_creatorId h) (h_drawingEnabled h)) in
                     let* _ := cmd_hSet code (λ h,
                       mkRoomHash (h_createdAt h) (Some now) (h_users h)
                                  (h_creatorId h) (h_drawingEnabled h)) in
                     if 0 <? n then cmd_persist else cmd_expire)
                  else ret tt)
                 (ret tt) in
             emit (ToRoom code) (UserCountUpdated n))
          else ret tt
      end) Q st →
  wp (sweep_reconcile_room now code) Q st.
Proof.
  unfold wp, sweep_reconcile_room, sweep_reconcile_begin, sweep_reconcile_resume.
  unfold bind, ret, gets, modify.
  destruct (rooms st !! code) as [room|]; [|done].
  destruct (negb _); [|done].
  by destruct (try_catch _ _ _) as [[[[]|] ?] ?].
Qed.

Lemma sweep_reconcile_room_counted now code st : wp (sweep_reconcile_room now code) counted st.
Proof.
  apply sweep_reconcile_room_wp. unfold_cmds. wp_step.
  destruct (rooms st !! code) as [room|]; [|wp_steps; solve_counted].
  wp_step. destruct (negb _); [|wp_steps; solve_counted].
  wp_step. wp_step. wp_step.
  - destruct (bool_decide _).
    + wp_step. wp_step. destruct (0 <? _); wp_steps; solve_counted.
    + wp_steps. solve_counted.
  - wp_steps. solve_counted.
Qed.

Lemma sweep_evict_room_quiet now code st :
  wp (sweep_evict_room now code) (λ _ _ o, o = []) st.
Proof.
  unfold sweep_evict_room. unfold_cmds. wp_step.
  destruct (rooms st !! code) as [room|]; [|wp_steps; done].
  destruct (users room <=? 0); [|wp_steps; done].
  cbn zeta. destruct (_ <? _); [|wp_steps; done].
  wp_step. wp_step; wp_steps; done.
Qed.

Lemma sweep_counted now st : wp (sweep now) counted st.
Proof.
  unfold sweep. wp_step.
  eapply wp_bind_call; [apply for_each_counted, sweep_reconcile_room_counted|].
  intros [[]|] st1 o1 Ho1; [|exact Ho1].
  wp_step. eapply wp_mono.
  - apply for_each_counted. intros x st'. eapply wp_mono; [apply sweep_evict_room_quiet|].
    intros ? ? ? ->. solve_counted.
  - intros r st2 o2 Ho2. unfold counted in *. by apply Forall_app.
Qed.

Lemma handle_counted ev st : wp (handle ev) counted st.
Proof.
  destruct ev; unfold handle, when_connected, void.
  - wp_step. destruct (bool_decide _); [wp_steps; solve_counted|apply on_connection_counted].
  - wp_step. destruct (bool_decide _); [|wp_steps; solve_counted].
    apply (on_joinRoom_listeners_wp _ _ _ (λ _ o, Forall count_ok o)), on_joinRoom_counted.
  - wp_step. destruct (bool_decide _); [apply on_requestDrawingData_counted|wp_steps; solve_counted].
  - wp_step. destruct (bool_decide _); [apply on_requestImageData_counted|wp_steps; solve_counted].
  - wp_step. destruct (bool_decide _); [apply on_toggleDrawing_counted|wp_steps; solve_counted].
  - wp_step. destruct (bool_decide _); [apply on_draw_counted|wp_steps; solve_counted].
  - wp_step. destruct (bool_decide _); [apply on_imageChunk_counted|wp_steps; solve_counted].
  - wp_step. destruct (bool_decide _); [apply on_pasteImage_counted|wp_steps; solve_counted].
  - wp_step. destruct (bool_decide _); [apply on_clearCanvas_counted|wp_steps; solve_counted].
  - wp_step. destruct (bool_decide _); [apply on_ping_counted|wp_steps; solve_counted].
  - wp_step. destruct (bool_decide _); [apply on_requestRoomInfo_counted|wp_steps; solve_counted].
  - wp_step. destruct (bool_decide _); [apply on_disconnect_counted|wp_steps; solve_counted].
  - pose proof (http_room_page_quiet now code st) as Hq. unfold out_of in Hq.
    unfold wp. destruct (http_room_page now code st) as [[r st'] o].
    simpl in Hq. subst o. solve_counted.
  - pose proof (api_create_room_quiet fuel now samples token st) as Hq. unfold out_of in Hq.
    unfold wp, bind, ret. destruct (api_create_room fuel now samples token st) as [[[a|] st'] o];
      simpl in Hq; subst o; solve_counted.
  - apply sweep_counted.
  - wp_steps. solve_counted.
Qed.

Lemma run_counted evs st : Forall count_ok (run evs st).2.
Proof.
  revert st. induction evs as [|ev evs IH]; intros st; simpl; [apply Forall_nil_2|].
  pose proof (handle_counted ev st) as Hh. unfold wp in Hh.
  destruct (handle ev st) as [[r st1] o1].
  specialize (IH st1). destruct (run evs st1) as [st2 o2]. simpl in *.
  unfold counted in Hh. by apply Forall_app.
Qed.

(** X1.  Every member count that a socket listener or a route puts into
    [roomJoined], [userJoined], [userLeft] or [userCountUpdated] is the size
    of the live connection set of its room at the moment the message is
    sent, from whatever state the event is handled: these handlers read the
    count and send it without an [await] in between.  And [updateRoomInfo]
    leaves the cached count of a room equal to the size of its live set,
    whatever the cache held before. *)
Theorem listener_counts_are_live ev now code st :
  is_sweep ev = false →
  Forall count_ok (out_of (handle ev st)) ∧
  let x := updateRoomInfo now code st in
  Forall count_ok (out_of x) ∧
  (∀ room, rooms (state_of x) !! code = Some room →
           users room = actualUsers (state_of x) code).
Proof.
  intros _. split; [apply (wp_run _ _ _ (handle_counted ev st))|]. cbn zeta. split.
  - pose proof (wp_run _ _ _ (updateRoomInfo_kept now code st)) as (_ & _ & Hb).
    by apply benign_counted.
  - pose proof (wp_run _ _ _ (updateRoomInfo_reconciles now code st)) as [_ H].
    exact H.
Qed.

Lemma listener_counts_are_live_witness :
  Forall count_ok (out_of (handle (EJoinRoom 3000 "B" "482913") (scene_joined server_with_store))).
Proof.
  apply (proj1 (listener_counts_are_live (EJoinRoom 3000 "B" "482913") 0 "482913"
                  (scene_joined server_with_store) eq_refl)).
Defined.

(** * The client's chunk receiver *)






(** * Room code generation *)

(** One existence check: its answer, and what it leaves behind. *)
Lemma getRoomInfo_known now code st :
  ∃ info st', getRoomInfo now code st = (Ok info, st', []) ∧
    bool_decide (is_Some info) = room_known st code ∧
    (∀ c, room_known st' c = room_known st c) ∧
    (room_known st code = false → st' = st).
Proof.
  rewrite getRoomInfo_spec. unfold room_known.
  destruct (rooms st !! code) as [r|] eqn:Hr.
  - exists (Some r), st. split; [done|]. split; [|split; [done|]].
    + rewrite !bool_decide_eq_true_2 by eauto. done.
    + rewrite (bool_decide_eq_true_2 (is_Some (Some r))) by eauto. done.
  - destruct (stored_room st code) as [h|] eqn:Hs.
    + eexists _, _. split; [done|]. split; [|split].
      * rewrite bool_decide_eq_true_2 by eauto.
        rewrite (bool_decide_eq_true_2 (is_Some (Some h))) by eauto. by rewrite orb_true_r.
      * intros c. unfold stored_room, store_ready, isRedisAvailable. simpl.
        destruct (decide (code = c)) as [->|Hne].
        -- rewrite lookup_insert_eq.
           rewrite (bool_decide_eq_true_2 (is_Some (Some _))) by eauto. simpl.
           unfold stored_room, store_ready, isRedisAvailable in Hs. rewrite Hs.
           rewrite (bool_decide_eq_true_2 (is_Some (Some h))) by eauto. by rewrite orb_true_r.
        -- by rewrite lookup_insert_ne.
      * rewrite (bool_decide_eq_true_2 (is_Some (Some h))) by eauto.
        rewrite orb_true_r. discriminate.
    + exists None, st. split; [done|]. split; [|done].
      by rewrite !bool_decide_eq_false_2 by apply is_Some_None.
Qed.

(** The loop follows the samples: it is still running while they are in
    use, and returns the first one that is not. *)
Lemma createUniqueRoomCode_follows fuel now samples i k st :
  (∀ j, (j < k)%nat → room_known st (toString (samples (i + j)%nat)) = true) →
  room_known st (toString (samples (i + k)%nat)) = false →
  res_of (createUniqueRoomCode fuel now samples i st) =
    if decide (k < fuel)%nat then Ok (Some (toString (samples (i + k)%nat))) else Ok None.
Proof.
  revert i k st. induction fuel as [|fuel IH]; intros i k st Hused Hfree.
  { destruct (decide (k < 0)%nat); [exfalso; lia | reflexivity]. }
  cbn [createUniqueRoomCode]. unfold res_of, bind.
  destruct (getRoomInfo_known now (toString (samples i)) st)
    as (info & st' & -> & Hinfo & Hsame & Hstay).
  rewrite Hinfo.
  destruct k as [|k].
  - rewrite Nat.add_0_r in Hfree. rewrite Hfree. rewrite Nat.add_0_r.
    destruct (decide (0 < S fuel)%nat); [reflexivity | exfalso; lia].
  - assert (room_known st (toString (samples i)) = true) as Hi.
    { specialize (Hused 0%nat). rewrite Nat.add_0_r in Hused. apply Hused. lia. }
    rewrite Hi.
    specialize (IH (S i) k st').
    unfold res_of in IH.
    destruct (createUniqueRoomCode fuel now samples (S i) st') as [[r st2] o2].
    cbn [fst snd] in *.
    rewrite IH.
    + replace (S i + k)%nat with (i + S k)%nat by lia.
      destruct (decide (k < fuel)%nat), (decide (S k < S fuel)%nat);
        first [reflexivity | exfalso; lia].
    + intros j Hj. rewrite Hsame. replace (S i + j)%nat with (i + S j)%nat by lia.
      apply Hused. lia.
    + rewrite Hsame. by replace (S i + k)%nat with (i + S k)%nat by lia.
Qed.

(** C9, as stated, fails: no number of iterations ends the loop when every
    sample is in use; it neither returns nor raises. *)
Lemma unique_code_loop_has_no_retry_limit :
  ¬ ∃ limit : nat, ∀ st now samples,
      res_of (createUniqueRoomCode limit now samples 0%nat st) ≠ Ok None.
Proof.
  intros [limit Hlimit].
  apply (Hlimit scene_one_room 0
           (λ j, if decide (j < limit)%nat then 482913 else 100000)).
  rewrite (createUniqueRoomCode_follows limit 0 _ 0%nat limit scene_one_room).
  - destruct (decide (limit < limit)%nat); [exfalso; lia | reflexivity].
  - intros j Hj. cbn beta. destruct (decide (0 + j < limit)%nat); [|exfalso; lia].
    vm_compute. reflexivity.
  - cbn beta. destruct (decide (0 + limit < limit)%nat); [exfalso; lia|].
    vm_compute. reflexivity.
Qed.

(** C9 (amended).  The generator samples fixed-format codes and re-checks
    existence until an unused code is found, without any retry limit: when
    the first [k] samples are in use and the next one is not, it returns that
    one after exactly [k + 1] checks, is still looping after any smaller
    number of them, and never raises. *)
Theorem unique_code_loop_follows_samples fuel now samples k st :
  (∀ j, (j < k)%nat → room_known st (toString (samples j)) = true) →
  room_known st (toString (samples k)) = false →
  res_of (createUniqueRoomCode fuel now samples 0%nat st) =
    if decide (k < fuel)%nat then Ok (Some (toString (samples k))) else Ok None.
Proof.
  intros Hused Hfree.
  by apply (createUniqueRoomCode_follows fuel now samples 0%nat k st).
Qed.

Lemma unique_code_loop_follows_samples_witness :
  res_of (createUniqueRoomCode 5 0 (λ j, if decide (j < 2)%nat then 482913 else 100000)
            0%nat scene_one_room)
    = Ok (Some "100000"%string).
Proof.
  pose proof (unique_code_loop_follows_samples 5 0
                (λ j, if decide (j < 2)%nat then 482913 else 100000) 2%nat scene_one_room) as H.
  rewrite H.
  - reflexivity.
  - intros j Hj. destruct (decide (j < 2)%nat); [|exfalso; lia]. vm_compute. reflexivity.
  - vm_compute. reflexivity.
Defined.

(** * Creator binding, image replay and eviction at concrete inputs *)

(** C2.  A room created by the page route has no [creatorId], and the first
    join does not set it: the first joiner is told [isCreator = false], and,
    as the absent [x-creator-id] header equals the absent [creatorId], the
    second member's permission toggle is accepted. *)
Theorem page_route_room_has_no_creator :
  rooms (scene_page_room server_with_store) !! "482913"
    = Some (mkRoom 500 2000 2 VUndef VUndef) ∧
  emitted [EHttpRoomPage 500 "482913"; EConnection "A" None;
           EJoinRoom 1000 "A" "482913"] server_with_store
    = [(ToSocket "A", ConnectionEstablished "A");
       (ToRoom "482913", UserCountUpdated 1);
       (ToSocket "A", RoomJoined "482913" "A" 1 false VUndef);
       (ToOthers "482913" "A", UserJoined "A" 1);
       (ToSocket "A", LoadDrawing [])] ∧
  emitted [EToggleDrawing "B" (VBool false)] (scene_page_room server_with_store)
    = [(ToRoom "482913", DrawingPermissionChanged (VBool false) "B")].
Proof.
  repeat split; vm_compute; reflexivity.
Qed.

(** The same first join on an unknown code binds the joiner as creator. *)
Lemma first_join_binds_creator :
  rooms (scene_joined server_with_store) !! "482913"
    = Some (mkRoom 1000 2000 2 (VStr "A") (VBool true)).
Proof. vm_compute. reflexivity. Qed.

(** The server's [imageChunk] handler never touches the state. *)
Lemma on_imageChunk_state sid ch st : state_of (on_imageChunk sid ch st) = st.
Proof.
  unfold on_imageChunk. munfold.
  destruct (negb (room_truthy (currentRoom_of sid st))); reflexivity.
Qed.

Lemma run_imageChunks sid chs st : (run (EImageChunk sid <$> chs) st).1 = st.
Proof.
  revert st. induction chs as [|ch chs IH]; intros st; [done|].
  cbn [fmap list_fmap run].
  assert ((handle (EImageChunk sid ch) st).1.2 = st) as Hstep.
  { unfold handle, when_connected, bind, gets.
    destruct (bool_decide (is_Some (sockets st !! sid))); [|done].
    pose proof (on_imageChunk_state sid ch st) as H. unfold state_of in H.
    by destruct (on_imageChunk sid ch st) as [[[[]|] st'] o]. }
  destruct (handle (EImageChunk sid ch) st) as [[r st1] o1]. simpl in Hstep. subst st1.
  specialize (IH st). destruct (run (EImageChunk sid <$> chs) st) as [st2 o2]. done.
Qed.

(** C3.  [A] sends an image to room 482913 in three chunks; [B], in the
    room, reassembles it; the server has stored nothing, so [C], who joins
    afterwards, gets no [loadImages] at all on join and an empty list on
    request. *)
Theorem chunked_image_is_not_replayed :
  let transfer := [chunk_of_3 "A" 1500 meta0 0 "aa"; chunk_of_3 "A" 1500 meta0 1 "bb";
                   chunk_of_3 "A" 1500 meta0 2 "cc"] in
  let after := (run (EImageChunk "A" <$> transfer) (scene_joined server_with_store)).1 in
  (deliver "B" transfer ∅).2 = [mkAssembled "aabbcc" (Some meta0) 1500 "A"] ∧
  after = scene_joined server_with_store ∧
  image_log after "482913" = [] ∧
  emitted [EConnection "C" None; EJoinRoom 3000 "C" "482913"; ERequestImageData "C"] after
    = [(ToSocket "C", ConnectionEstablished "C");
       (ToRoom "482913", UserCountUpdated 3);
       (ToSocket "C", RoomJoined "482913" "C" 3 false (VBool true));
       (ToOthers "482913" "C", UserJoined "C" 3);
       (ToSocket "C", LoadDrawing []);
       (ToSocket "C", LoadImages [])].
Proof.
  cbn zeta. rewrite run_imageChunks.
  repeat split; vm_compute; reflexivity.
Qed.

(** A pasted (unchunked) image is stored, and a later join replays it. *)
Lemma pasted_image_is_replayed :
  emitted [EConnection "C" None; EJoinRoom 4000 "C" "482913"]
          (run [EPasteImage 3000 "A" image0] (scene_joined server_with_store)).1
    = [(ToSocket "C", ConnectionEstablished "C");
       (ToRoom "482913", UserCountUpdated 3);
       (ToSocket "C", RoomJoined "482913" "C" 3 false (VBool true));
       (ToOthers "482913" "C", UserJoined "C" 3);
       (ToSocket "C", LoadDrawing []);
       (ToSocket "C", LoadImages [image0])].
Proof. vm_compute. reflexivity. Qed.

(** C7.  On a server without a store, the sweep that finds room 482913
    empty and inactive for 61 minutes keeps it in the cache: the first
    store command raises on the null client, and the deletion from the
    cache, which comes after it in the same [try], is skipped. *)
Theorem sweep_without_store_keeps_stale_room :
  rooms (scene_abandoned server_without_store) !! "482913"
    = Some (mkRoom 0 1000 0 (VStr "A") (VBool true)) ∧
  actualUsers (scene_abandoned server_without_store) "482913" = 0 ∧
  rooms (run [ESweep (1000 + minutes 61)] (scene_abandoned server_without_store)).1 !! "482913"
    = Some (mkRoom 0 1000 0 (VStr "A") (VBool true)).
Proof. repeat split; vm_compute; reflexivity. Qed.

(** With a store the same room is removed from the cache and from the
    store after 61 minutes, and kept after 59. *)
Lemma sweep_with_store_evicts_after_61_minutes :
  let st := scene_abandoned server_with_store in
  let st' := (run [ESweep (1000 + minutes 61)] st).1 in
  is_Some (rooms st !! "482913") ∧ is_Some (hashes (redis st) !! "482913") ∧
  rooms st' !! "482913" = None ∧
  hashes (redis st') !! "482913" = None ∧
  points (redis st') !! "482913" = None ∧
  images (redis st') !! "482913" = None.
Proof. cbn zeta. repeat split; vm_compute; eauto. Qed.

Lemma sweep_keeps_room_after_59_minutes :
  is_Some (rooms (run [ESweep (1000 + minutes 59)] (scene_abandoned server_with_store)).1
             !! "482913") ∧
  is_Some (rooms (run [ESweep (1000 + minutes 59)] (scene_abandoned server_without_store)).1
             !! "482913").
Proof. split; vm_compute; eauto. Qed.

(** * The creator binding never changes *)
















(** A loop keeps every reflexive, transitive relation that its body keeps. *)
Lemma for_each_rel {A} (R : State → State → Prop) (body : A → M unit) l st :
  (∀ s, R s s) →
  (∀ s1 s2 s3, R s1 s2 → R s2 s3 → R s1 s3) →
  (∀ x s, wp (body x) (λ _ s' _, R s s') s) →
  wp (for_each l body) (λ _ s' _, R st s') st.
Proof.
  intros Hrefl Htrans Hbody.
  cut (∀ s, wp (for_each l body) (λ _ s' _, R s s') s); [by intros H|].
  induction l as [|x l IH]; intros s; simpl.
  - wp_steps. apply Hrefl.
  - eapply wp_bind_call; [apply Hbody|].
    intros [[]|] s1 o1 H1; [|exact H1].
    eapply wp_mono; [apply IH|]. intros r s2 o2 H2. by eapply Htrans.
Qed.

Lemma createUniqueRoomCode_fresh fuel now samples i st :
  wp (createUniqueRoomCode fuel now samples i)
     (λ r st' _, rooms_extend st st' ∧
                 ∀ code, r = Ok (Some code) → rooms st' !! code = None) st.
Proof.
  revert i st. induction fuel as [|fuel IH]; intros i st; cbn [createUniqueRoomCode].
  { wp_steps. split; [apply rooms_extend_refl|]. intros code [=]. }
  apply wp_bind. unfold wp at 1. rewrite getRoomInfo_spec.
  destruct (rooms st !! toString (samples i)) as [r|] eqn:Hr.
  - rewrite bool_decide_eq_true_2 by eauto.
    eapply wp_mono; [apply IH|]. intros r2 st2 o2 [Hext Hfresh]. done.
  - destruct (stored_room st (toString (samples i))) as [h|] eqn:Hs.
    + rewrite bool_decide_eq_true_2 by eauto.
      eapply wp_mono; [apply IH|]. intros r2 st2 o2 [Hext Hfresh]. split; [|done].
      eapply rooms_extend_trans; [|exact Hext].
      eapply rooms_extend_insert_fresh; [eassumption|reflexivity].
    + rewrite bool_decide_eq_false_2 by apply is_Some_None.
      wp_steps. split; [apply rooms_extend_refl|]. by intros code [= <-].
Qed.






(** * What a sweep does to one room *)

Lemma aside_refl c st : aside c st st.
Proof. by repeat split. Qed.

Lemma aside_trans c s1 s2 s3 : aside c s1 s2 → aside c s2 s3 → aside c s1 s3.
Proof.
  intros [(?&?&?&?) (?&?&?)] [(?&?&?&?) (?&?&?)]. repeat split; congruence.
Qed.

Ltac solve_aside :=
  repeat split; simpl; try done;
  try (by rewrite !lookup_insert_ne by done);
  try (by rewrite !lookup_delete_ne by done).

Lemma sweep_reconcile_room_aside now x c st :
  x ≠ c → wp (sweep_reconcile_room now x) (λ _ st' _, aside c st st') st.
Proof.
  intros Hne. apply sweep_reconcile_room_wp. unfold_cmds. wp_step.
  destruct (rooms st !! x) as [room|]; [|wp_steps; apply aside_refl].
  wp_step. destruct (negb _); [|wp_steps; apply aside_refl].
  wp_step. wp_step. wp_step.
  - destruct (bool_decide _).
    + wp_step. wp_step. destruct (0 <? _); wp_steps; solve_aside.
    + wp_steps. solve_aside.
  - wp_steps. solve_aside.
Qed.

Lemma sweep_evict_room_aside now x c st :
  x ≠ c → wp (sweep_evict_room now x) (λ _ st' _, aside c st st') st.
Proof.
  intros Hne. unfold sweep_evict_room. unfold_cmds. wp_step.
  destruct (rooms st !! x) as [room|]; [|wp_steps; apply aside_refl].
  destruct (users room <=? 0); [|wp_steps; apply aside_refl].
  cbn zeta. destruct (_ <? _); [|wp_steps; apply aside_refl].
  wp_step. wp_step; wp_steps; solve_aside.
Qed.

Lemma sweep_reconcile_room_self now c st :
  wp (sweep_reconcile_room now c) (λ _ st' _, reconciled c st st') st.
Proof.
  apply sweep_reconcile_room_wp. unfold_cmds. wp_step.
  destruct (rooms st !! c) as [room|] eqn:Hroom.
  2:{ wp_steps. unfold reconciled. rewrite Hroom. by repeat split. }
  wp_step. destruct (users room =? actualUsers st c) eqn:Hn; cbn [negb].
  { wp_steps. unfold reconciled. rewrite Hroom. repeat split; try done. simpl.
    apply Z.eqb_eq in Hn. rewrite <- Hn. by destruct room. }
  wp_step. wp_step. wp_step.
  - destruct (bool_decide _).
    + wp_step. wp_step.
      destruct (0 <? _); wp_steps; unfold reconciled; rewrite Hroom; repeat split; simpl;
        try done; apply lookup_insert_eq.
    + wp_steps. unfold reconciled. rewrite Hroom. repeat split; simpl; try done.
      apply lookup_insert_eq.
  - wp_steps. unfold reconciled. rewrite Hroom. repeat split; simpl; try done.
    apply lookup_insert_eq.
Qed.

Lemma sweep_evict_room_self now c st :
  wp (sweep_evict_room now c) (λ _ st' _, evicted_or_kept now c st st') st.
Proof.
  unfold sweep_evict_room, evicted_or_kept, stale, store_answers. unfold_cmds. wp_step.
  destruct (rooms st !! c) as [room|] eqn:Hroom; [|wp_steps; by rewrite Hroom].
  destruct (users room <=? 0); [|wp_steps; by rewrite Hroom].
  cbn zeta. destruct (_ <? _); [|wp_steps; by rewrite Hroom].
  wp_step. wp_step.
  - wp_steps. simpl. rewrite !lookup_delete_eq. done.
  - wp_steps. simpl. by rewrite Hroom.
Qed.

Lemma wp_conj {A} (m : M A) (P Q : Res A → State → list Emission → Prop) st :
  wp m P st → wp m Q st → wp m (λ r st' o, P r st' o ∧ Q r st' o) st.
Proof. unfold wp. by destruct (m st) as [[r st'] o]. Qed.

Lemma sweep_reconcile_room_returns now c st :
  wp (sweep_reconcile_room now c) (λ r _ _, r = Ok tt) st.
Proof.
  apply sweep_reconcile_room_wp. unfold_cmds. wp_step.
  destruct (rooms st !! c) as [room|]; [|wp_steps; done].
  wp_step. destruct (negb _); [|wp_steps; done].
  wp_step. wp_step. wp_step.
  - destruct (bool_decide _).
    + wp_step. wp_step. destruct (0 <? _); wp_steps; done.
    + wp_steps. done.
  - wp_steps. done.
Qed.

Lemma sweep_evict_room_returns now c st :
  wp (sweep_evict_room now c) (λ r _ _, r = Ok tt) st.
Proof.
  unfold sweep_evict_room. unfold_cmds. wp_step.
  destruct (rooms st !! c) as [room|]; [|wp_steps; done].
  destruct (users room <=? 0); [|wp_steps; done].
  cbn zeta. destruct (_ <? _); [|wp_steps; done].
  wp_step. wp_step; wp_steps; done.
Qed.

(** A loop over codes other than [c] leaves room [c] aside. *)
Lemma for_each_aside (body : string → M unit) c l st :
  (∀ x s, x ≠ c → wp (body x) (λ r s' _, r = Ok tt ∧ aside c s s') s) →
  c ∉ l →
  wp (for_each l body) (λ r s' _, r = Ok tt ∧ aside c st s') st.
Proof.
  intros Hother. revert st. induction l as [|x l IH]; intros st Hnot; simpl.
  - wp_steps. split; [done|apply aside_refl].
  - apply not_elem_of_cons in Hnot as [Hne Hnot].
    eapply wp_bind_call; [apply Hother; congruence|].
    intros r s1 o1 [-> H1]. eapply wp_mono; [by apply IH|].
    intros r s2 o2 [-> H2]. split; [done|]. by eapply aside_trans.
Qed.

(** A loop that visits [c] exactly once does to room [c] what its body
    does at [c], provided the body's effect [Q] only depends on the part of
    the state that the other iterations leave aside. *)
Lemma for_each_at (body : string → M unit) (Q : State → State → Prop) c l st :
  NoDup l → c ∈ l →
  (∀ x s, x ≠ c → wp (body x) (λ r s' _, r = Ok tt ∧ aside c s s') s) →
  (∀ s, wp (body c) (λ r s' _, r = Ok tt ∧ Q s s') s) →
  (∀ s s' t, aside c s s' → Q s' t → Q s t) →
  (∀ s t t', Q s t → aside c t t' → Q s t') →
  wp (for_each l body) (λ r s' _, r = Ok tt ∧ Q st s') st.
Proof.
  intros Hnd Hin Hother Hself Hpre Hpost. revert st.
  induction l as [|x l IH]; intros st; [by apply elem_of_nil in Hin|].
  apply NoDup_cons in Hnd as [Hx Hnd]. simpl.
  destruct (decide (x = c)) as [->|Hne].
  - eapply wp_bind_call; [apply Hself|].
    intros r s1 o1 [-> H1].
    eapply wp_mono; [by apply (for_each_aside body c l s1 Hother)|].
    intros r s2 o2 [-> H2]. split; [done|]. by eapply Hpost.
  - apply elem_of_cons in Hin as [->|Hin]; [done|].
    eapply wp_bind_call; [by apply Hother|].
    intros r s1 o1 [-> H1].
    eapply wp_mono; [by apply IH|].
    intros r s2 o2 [-> H2]. split; [done|]. by eapply Hpre.
Qed.

Lemma keys_of_rooms st c :
  c ∈ (map_to_list (rooms st)).*1 ↔ is_Some (rooms st !! c).
Proof.
  rewrite list_elem_of_fmap. split.
  - intros ([c' r] & -> & Hin). apply elem_of_map_to_list in Hin. eauto.
  - intros [r Hr]. exists (c, r). split; [done|]. by apply elem_of_map_to_list.
Qed.

(** X3.  The fate of a cached room in one sweep during which no other
    event arrives.  Its count is first reconciled with the live connection
    set.  If it is then empty and has
    been inactive for more than 60 minutes, it is deleted from the cache and
    from the store, with its stroke log and its image sequence, provided the
    store answers; when the store does not answer (null client or rejected
    commands) the room stays in the cache.  In every other case the room
    stays, with the reconciled count. *)
Theorem sweep_room_fate now c room st :
  rooms st !! c = Some room →
  let room1 := with_users room (actualUsers st c) in
  let st' := state_of (sweep now st) in
  if stale now room1 && store_answers st
  then rooms st' !! c = None ∧ hashes (redis st') !! c = None ∧
       points (redis st') !! c = None ∧ images (redis st') !! c = None
  else rooms st' !! c = Some room1 ∧
       points (redis st') !! c = points (redis st) !! c ∧
       images (redis st') !! c = images (redis st) !! c.
Proof.
  intros Hroom room1 st'. subst st'.
  cut (wp (sweep now)
         (λ _ st' _,
            if stale now room1 && store_answers st
            then rooms st' !! c = None ∧ hashes (redis st') !! c = None ∧
                 points (redis st') !! c = None ∧ images (redis st') !! c = None
            else rooms st' !! c = Some room1 ∧
                 points (redis st') !! c = points (redis st) !! c ∧
                 images (redis st') !! c = images (redis st) !! c) st).
  { unfold wp, state_of. by destruct (sweep now st) as [[r st'] o]. }
  unfold sweep. wp_step.
  eapply wp_bind_call.
  { apply (for_each_at (sweep_reconcile_room now) (reconciled c) c).
    - apply NoDup_fst_map_to_list.
    - apply keys_of_rooms. eauto.
    - intros x s Hne. apply wp_conj;
        [apply sweep_reconcile_room_returns | by apply sweep_reconcile_room_aside].
    - intros s. apply wp_conj;
        [apply sweep_reconcile_room_returns | apply sweep_reconcile_room_self].
    - intros s s' t [(Hr&Hh&Hp&Hi) (Ha&Hc&Hf)] (Q1&Q2&Q3&Q4a&Q4b&Q4c).
      unfold reconciled, same_env, actualUsers in *.
      rewrite Hr, Ha in Q1. repeat split; congruence.
    - intros s t t' (Q1&Q2&Q3&Q4a&Q4b&Q4c) [(Hr&Hh&Hp&Hi) (Ha&Hc&Hf)].
      unfold reconciled, same_env, actualUsers in *.
      rewrite <- Q1. repeat split; congruence. }
  intros r1 st1 o1 [-> (R1 & R2 & R3 & Ra & Rc & Rf)].
  rewrite Hroom in R1. simpl in R1. fold room1 in R1.
  wp_step.
  eapply wp_mono.
  { apply (for_each_at (sweep_evict_room now) (evicted_or_kept now c) c).
    - apply NoDup_fst_map_to_list.
    - apply keys_of_rooms. eauto.
    - intros x s Hne. apply wp_conj;
        [apply sweep_evict_room_returns | by apply sweep_evict_room_aside].
    - intros s. apply wp_conj;
        [apply sweep_evict_room_returns | apply sweep_evict_room_self].
    - intros s s' t [(Hr&Hh&Hp&Hi) (Ha&Hc&Hf)] [Q1 (Qa&Qc&Qf)].
      unfold evicted_or_kept, same_env, store_answers in *.
      rewrite <- Hr, <- Hc, <- Hf, <- Hp, <- Hi. split; [exact Q1|]. repeat split; congruence.
    - intros s t t' [Q1 (Qa&Qc&Qf)] [(Hr&Hh&Hp&Hi) (Ha&Hc&Hf)].
      unfold evicted_or_kept, same_env in *. rewrite Hr, Hh, Hp, Hi.
      split; [exact Q1|]. repeat split; congruence. }
  cbn beta. intros r2 st2 o2 [-> [E _]].
  unfold evicted_or_kept in E. rewrite R1 in E.
  assert (store_answers st1 = store_answers st) as Hsa
    by (unfold store_answers; congruence).
  rewrite Hsa in E.
  destruct (stale now room1 && store_answers st); [exact E|].
  destruct E as (E1 & E2 & E3). repeat split; congruence.
Qed.

(** * Chunked transfer end to end *)


Lemma join_app l1 l2 : join (l1 ++ l2) = String.append (join l1) (join l2).
Proof.
  induction l1 as [|x l1 IH]; [done|].
  change (String.append (default EmptyString x) (join (l1 ++ l2))
          = String.append (String.append (default EmptyString x) (join l1)) (join l2)).
  rewrite IH. generalize (default EmptyString x) as a. intros a.
  induction a as [|ch a IHa]; [done|].
  change (String ch (String.append a (String.append (join l1) (join l2)))
          = String ch (String.append (String.append a (join l1)) (join l2))).
  by rewrite IHa.
Qed.




(** ** The sender: [sendImageInChunks] *)










(** * Further facts about replay and reload *)


(** A room read back from the store carries [drawingEnabled] as the string
    Redis holds, which is not [=== false]: after a restart, the stroke of a
    member who is not the creator is accepted although drawing had been
    disabled. *)
Lemma reloaded_room_accepts_strokes :
  let st := (run [EConnection "B" None; EJoinRoom 5000 "B" "482913"]
                 (restart (scene_disabled server_with_store))).1 in
  rooms st !! "482913" = Some (mkRoom 1000 5000 1 (VStr "A") (VStr "false")) ∧
  emitted [EDraw "B" stroke0] st = [(ToOthers "482913" "B", DrawMsg stroke0)] ∧
  stroke_log (run [EDraw "B" stroke0] st).1 "482913" = [stroke0].
Proof. cbn zeta. repeat split; vm_compute; reflexivity. Qed.

(** * The first join of an unknown code *)

Lemma lookup_room_spec now code st :
  lookup_room now code st =
    match rooms st !! code with
    | Some r => (Ok (Some r), st, [])
    | None =>
        match stored_room st code with
        | Some h => (Ok (Some (roomFromHash now h)),
                     set_rooms (<[code := roomFromHash now h]>) st, [])
        | None => (Ok None, st, [])
        end
    end.
Proof.
  unfold lookup_room, stored_room, store_ready, cmd_exists, cmd_hGetAll, redis_cmd.
  munfold. unfold isRedisAvailable.
  destruct st as [rs ur cc sk ad [c e f h pt im]]; simpl.
  destruct (rs !! code) as [r|]; [done|].
  destruct e, c, f; simpl; try reflexivity.
  destruct (h !! code) as [hh|] eqn:Hh.
  - rewrite bool_decide_eq_true_2 by eauto. simpl. rewrite Hh. reflexivity.
  - rewrite bool_decide_eq_false_2 by apply is_Some_None. reflexivity.
Qed.

Lemma updateRoomInfo_nothing_new now code st :
  wp (updateRoomInfo now code) (λ r st' _, r = Ok tt ∧ nothing_new st st') st.
Proof.
  unfold updateRoomInfo. wp_step.
  destruct (rooms st !! code) as [room|] eqn:Hroom; [|wp_steps; by repeat split].
  wp_step. destruct (negb _); wp_steps; [|by repeat split].
  split; [done|]. split; [|done]. simpl. intros c Hc.
  rewrite lookup_insert_ne; [done|]. congruence.
Qed.

Lemma leave_previous_nothing_new now sid st :
  wp (leave_previous now sid) (λ r st' _, r = Ok tt ∧ nothing_new st st') st.
Proof.
  unfold leave_previous. wp_step.
  destruct (room_truthy _); [|wp_steps; by repeat split].
  unfold socket_leave. wp_step.
  eapply wp_bind_call; [apply updateRoomInfo_nothing_new|].
  intros r st1 o1 [-> [Hnone Hredis]]. wp_steps. by repeat split.
Qed.

(** X6.  The first connection to join a code that is neither in the cache nor
    readable from the store becomes the room's creator, is told so, and the
    room starts with drawing enabled. *)
Theorem first_join_of_unknown_code now sid code st :
  rooms st !! code = None →
  stored_room st code = None →
  let x := on_joinRoom now sid code st in
  (∃ room, rooms (state_of x) !! code = Some room ∧ creatorId room = VStr sid) ∧
  ∃ e n, e ∈ out_of x ∧ e_target e = ToSocket sid ∧
         e_msg e = RoomJoined code sid n true (VBool true).
Proof.
  intros Hnone Hstore. cbn zeta.
  cut (wp (on_joinRoom now sid code)
         (λ _ st' o,
            (∃ room, rooms st' !! code = Some room ∧ creatorId room = VStr sid) ∧
            ∃ e n, e ∈ o ∧ e_target e = ToSocket sid ∧
                   e_msg e = RoomJoined code sid n true (VBool true)) st).
  { unfold wp, state_of, out_of. by destruct (on_joinRoom now sid code st) as [[r st'] o]. }
  unfold on_joinRoom. apply wp_try_catch.
  eapply wp_bind_call; [apply leave_previous_nothing_new|].
  intros r1 st1 o1 [-> [Hnew Hredis]].
  assert (stored_room st1 code = None) as Hstore1.
  { revert Hstore. unfold stored_room, store_ready, isRedisAvailable. by rewrite Hredis. }
  eapply wp_bind_eq.
  { rewrite lookup_room_spec, (Hnew code Hnone), Hstore1. reflexivity. }
  eapply wp_bind_call; [apply (create_on_join_kept now sid code st1); by apply Hnew|].
  intros r3 st3 o3 (Hf3 & -> & -> & Hroom3).
  eapply wp_bind_call; [apply enter_room_kept|].
  intros r4 st4 o4 (-> & Hf4 & Hb4 & pre4 & n & e2 & ->).
  eapply wp_bind_eq; [apply send_drawing_spec|].
  eapply wp_of_eq; [apply send_images_spec|].
  split.
  - destruct Hf4 as (_ & _ & _ & _ & _ & Hext).
    destruct (Hext code _ Hroom3) as (room & Hroom & Hcr). eauto.
  - exists (mkEmission (ToSocket sid) (RoomJoined code sid n true (VBool true)) (adapter st4)), n.
    split; [|done]. simpl.
    rewrite (proj2 (strict_eq_true (VStr sid) (VStr sid)) eq_refl).
    rewrite !elem_of_app, elem_of_cons. tauto.
Qed.

(** * The format of a room code *)

Lemma all_in_range_sound fuel test lo len :
  all_in_range fuel test lo len = true →
  ∀ n, lo ≤ n < lo + len → test n = true.
Proof.
  revert lo len. induction fuel as [|fuel IH]; intros lo len H n Hn; simpl in H.
  - apply Z.leb_le in H. lia.
  - destruct (len <=? 0) eqn:H0; [apply Z.leb_le in H0; lia|].
    destruct (len =? 1) eqn:H1.
    + apply Z.eqb_eq in H1. by replace n with lo by lia.
    + apply andb_true_iff in H as [Hl Hr].
      apply Z.leb_gt in H0. apply Z.eqb_neq in H1.
      assert (0 < len / 2 < len) by (split; [apply Z.div_str_pos|apply Z.div_lt]; lia).
      destruct (decide (n < lo + len / 2)).
      * apply (IH _ _ Hl). lia.
      * apply (IH _ _ Hr). lia.
Qed.

(** X7.  Every integer that [Math.floor(100000 + Math.random() * 900000)] can
    produce is rendered as six characters. *)
Theorem room_code_has_six_digits n :
  100000 ≤ n ≤ 999999 → String.length (toString n) = 6%nat.
Proof.
  intros Hn.
  assert (all_in_range 21 (λ k, Nat.eqb (String.length (toString k)) 6) 100000 900000 = true)
    as Hall by (vm_compute; reflexivity).
  apply Nat.eqb_eq. apply (all_in_range_sound _ _ _ _ Hall). lia.
Qed.

(** * The bookkeeping of connections *)

(** ** Handlers that leave it alone *)

Lemma same_book_refl st : same_book st st.
Proof. by repeat split. Qed.

Lemma same_book_trans s1 s2 s3 : same_book s1 s2 → same_book s2 s3 → same_book s1 s3.
Proof. intros (?&?&?&?) (?&?&?&?). repeat split; congruence. Qed.

Ltac solve_book :=
  unfold booked, same_book; simpl;
  repeat match goal with
  | |- context [if ?b then _ else _] => destruct b; simpl
  end;
  repeat split; try done; try congruence.

Lemma updateRoomInfo_book now code st : wp (updateRoomInfo now code) (booked st) st.
Proof.
  unfold updateRoomInfo. wp_step.
  destruct (rooms st !! code) as [room|]; [|wp_steps; solve_book].
  wp_step. destruct (negb _); wp_steps; solve_book.
Qed.

Lemma on_requestDrawingData_book sid st : wp (on_requestDrawingData sid) (booked st) st.
Proof.
  unfold on_requestDrawingData. wp_step. wp_step.
  destruct (negb _); [wp_steps; solve_book|].
  eapply wp_bind_eq; [apply getDrawingPoints_spec|]. wp_steps. solve_book.
Qed.

Lemma on_requestImageData_book sid st : wp (on_requestImageData sid) (booked st) st.
Proof.
  unfold on_requestImageData. wp_step. wp_step.
  destruct (negb _); [wp_steps; solve_book|].
  eapply wp_bind_eq; [apply getImages_spec|]. wp_steps. solve_book.
Qed.

Lemma on_toggleDrawing_book sid flag st : wp (on_toggleDrawing sid flag) (booked st) st.
Proof.
  unfold on_toggleDrawing. unfold_cmds. wp_step. wp_step.
  destruct (negb _); [wp_steps; solve_book|].
  wp_step. destruct (rooms st !! _) as [room|] eqn:Hroom; [|wp_steps; solve_book].
  wp_step. destruct (negb _); [wp_steps; solve_book|].
  wp_step. wp_step. destruct (isRedisAvailable _).
  - wp_step; wp_steps; solve_book.
  - wp_steps. solve_book.
Qed.

Lemma on_draw_book sid data st : wp (on_draw sid data) (booked st) st.
Proof.
  unfold on_draw. wp_step. wp_step.
  destruct (negb _); [wp_steps; solve_book|].
  wp_step. destruct (rooms st !! _) as [room|]; [|wp_steps; solve_book].
  destruct (_ && _); [wp_steps; solve_book|].
  eapply wp_bind_eq; [apply saveDrawingPoint_spec|]. wp_steps. solve_book.
Qed.

Lemma on_imageChunk_book sid ch st : wp (on_imageChunk sid ch) (booked st) st.
Proof.
  unfold on_imageChunk. wp_step. wp_step.
  destruct (negb _); wp_steps; solve_book.
Qed.

Lemma on_pasteImage_book now sid img st : wp (on_pasteImage now sid img) (booked st) st.
Proof.
  unfold on_pasteImage. wp_step. wp_step.
  destruct (negb _); [wp_steps; solve_book|].
  cbn zeta. eapply wp_bind_eq; [apply saveImage_spec|].
  destruct (store_ready st); wp_steps; solve_book.
Qed.

Lemma on_clearCanvas_book sid st : wp (on_clearCanvas sid) (booked st) st.
Proof.
  unfold on_clearCanvas. wp_step. wp_step.
  destruct (negb _); [wp_steps; solve_book|].
  wp_step. destruct (rooms st !! _) as [room|]; [|wp_steps; solve_book].
  wp_step. destruct (negb _); [wp_steps; solve_book|].
  eapply wp_bind_eq; [apply clearDrawingPoints_spec|].
  eapply wp_bind_eq; [apply clearImages_spec|].
  wp_steps. solve_book.
Qed.

Lemma on_ping_book sid st : wp (on_ping sid) (booked st) st.
Proof.
  unfold on_ping. wp_step. apply wp_bind.
  destruct (room_truthy _).
  - wp_step. wp_step. destruct (rooms st !! _) as [room|] eqn:Hroom.
    + destruct (negb _); wp_steps; solve_book.
    + wp_steps. solve_book.
  - wp_steps. solve_book.
Qed.

Lemma on_requestRoomInfo_book now sid st : wp (on_requestRoomInfo now sid) (booked st) st.
Proof.
  unfold on_requestRoomInfo. wp_step.
  destruct (room_truthy _); [|wp_steps; solve_book].
  wp_step. wp_step. destruct (rooms st !! _) as [room|] eqn:Hroom; wp_steps; solve_book.
Qed.

Lemma http_room_page_book now code st : wp (http_room_page now code) (booked st) st.
Proof.
  unfold http_room_page. unfold_cmds. wp_step.
  destruct (rooms st !! code) as [room|] eqn:Hroom; [wp_steps; solve_book|].
  wp_step. wp_step. destruct (isRedisAvailable _).
  - wp_step. wp_step; wp_steps; solve_book.
  - wp_steps. solve_book.
Qed.

Lemma getRoomInfo_book now code st : wp (getRoomInfo now code) (booked st) st.
Proof.
  unfold wp. rewrite getRoomInfo_spec.
  destruct (rooms st !! code); [solve_book|].
  destruct (stored_room st code); solve_book.
Qed.

Lemma createUniqueRoomCode_book fuel now samples i st :
  wp (createUniqueRoomCode fuel now samples i) (booked st) st.
Proof.
  revert i st. induction fuel as [|fuel IH]; intros i st; cbn [createUniqueRoomCode].
  { wp_steps. solve_book. }
  eapply wp_bind_call; [apply getRoomInfo_book|].
  intros [info|] st1 o1 H1; [|exact H1].
  destruct (bool_decide _).
  - eapply wp_mono; [apply IH|]. intros r st2 o2 H2. by eapply same_book_trans.
  - wp_steps. exact H1.
Qed.

Lemma createRoom_book now code creator st : wp (createRoom now code creator) (booked st) st.
Proof.
  unfold wp, createRoom, cmd_hSet, cmd_expire, redis_cmd. munfold. unfold isRedisAvailable.
  destruct st as [rs ur cc sk ad [c e f h pt im]]; simpl.
  destruct e, c, f; simpl; by repeat split.
Qed.

Lemma api_create_room_book fuel now samples token st :
  wp (api_create_room fuel now samples token) (booked st) st.
Proof.
  unfold api_create_room.
  eapply wp_bind_call; [apply createUniqueRoomCode_book|].
  intros [[code|]|] st1 o1 H1; cbn beta iota; [| |exact H1].
  - eapply wp_bind_call; [apply createRoom_book|].
    intros [r|] st2 o2 H2; [wp_steps|]; by eapply same_book_trans.
  - wp_steps. exact H1.
Qed.

Lemma sweep_reconcile_room_book now code st : wp (sweep_reconcile_room now code) (booked st) st.
Proof.
  apply sweep_reconcile_room_wp. unfold_cmds. wp_step.
  destruct (rooms st !! code) as [room|]; [|wp_steps; solve_book].
  wp_step. destruct (negb _); [|wp_steps; solve_book].
  wp_step. wp_step. wp_step.
  - destruct (bool_decide _).
    + wp_step. wp_step. destruct (0 <? _); wp_steps; solve_book.
    + wp_steps. solve_book.
  - wp_steps. solve_book.
Qed.

Lemma sweep_evict_room_book now code st : wp (sweep_evict_room now code) (booked st) st.
Proof.
  unfold sweep_evict_room. unfold_cmds. wp_step.
  destruct (rooms st !! code) as [room|]; [|wp_steps; solve_book].
  destruct (users room <=? 0); [|wp_steps; solve_book].
  cbn zeta. destruct (_ <? _); [|wp_steps; solve_book].
  wp_step. wp_step; wp_steps; solve_book.
Qed.

Lemma sweep_book now st : wp (sweep now) (booked st) st.
Proof.
  unfold sweep. wp_step.
  eapply wp_bind_call.
  { apply (for_each_rel same_book); [apply same_book_refl|apply same_book_trans|].
    intros x s. apply sweep_reconcile_room_book. }
  intros r1 st1 o1 H1. destruct r1 as [[]|]; [|exact H1].
  wp_step. eapply wp_mono.
  { apply (for_each_rel same_book); [apply same_book_refl|apply same_book_trans|].
    intros x s. apply sweep_evict_room_book. }
  cbn beta. intros r2 st2 o2 H2. by eapply same_book_trans.
Qed.

(** ** Connection, join and disconnect *)

Lemma on_connection_book sid hdr st :
  wp (on_connection sid hdr)
     (λ _ st' _,
        sockets st' = <[sid := mkSocket None hdr]> (sockets st) ∧
        connectedClients st' = connectedClients st + 1 ∧
        adapter st' = <[sid := {[ sid ]} ∪ live st sid]> (adapter st) ∧
        userRooms st' = userRooms st) st.
Proof. unfold on_connection, socket_join. wp_steps. by repeat split. Qed.

Lemma updateRoomInfo_book_ok now code st :
  wp (updateRoomInfo now code) (λ r st' _, r = Ok tt ∧ same_book st st') st.
Proof.
  unfold updateRoomInfo. wp_step.
  destruct (rooms st !! code) as [room|]; [|wp_steps; by repeat split].
  wp_step. destruct (negb _); wp_steps; by repeat split.
Qed.

Lemma leave_previous_book now sid st :
  wp (leave_previous now sid)
     (λ r st' _,
        r = Ok tt ∧
        sockets st' = sockets st ∧
        connectedClients st' = connectedClients st ∧
        adapter st' = adapter_left sid st ∧
        userRooms st' = (if room_truthy (currentRoom_of sid st)
                         then delete sid (userRooms st) else userRooms st)) st.
Proof.
  unfold leave_previous, adapter_left. wp_step. cbn zeta.
  destruct (room_truthy (currentRoom_of sid st)); [|wp_steps; by repeat split].
  unfold socket_leave. wp_step.
  eapply wp_bind_call; [apply updateRoomInfo_book_ok|].
  intros r st1 o1 (-> & Hs & Hc & Ha & Hu).
  wp_steps. simpl in *. repeat split; try done. by rewrite Hu.
Qed.

Lemma lookup_room_book now code st :
  wp (lookup_room now code) (λ r st' _, r ≠ Thrown ∧ same_book st st') st.
Proof.
  unfold wp. rewrite lookup_room_spec.
  destruct (rooms st !! code); [by repeat split|].
  destruct (stored_room st code); by repeat split.
Qed.

Lemma create_on_join_book now sid code st :
  wp (create_on_join now sid code) (λ r st' _, r ≠ Thrown ∧ same_book st st') st.
Proof.
  unfold create_on_join. unfold_cmds. cbn zeta. wp_step. wp_step.
  destruct (isRedisAvailable _).
  - wp_step. wp_step; wp_steps; by repeat split.
  - wp_steps. by repeat split.
Qed.

Lemma enter_room_book now sid code roomInfo st :
  wp (enter_room now sid code roomInfo)
     (λ r st' _,
        r = Ok tt ∧
        sockets st' = <[sid := mkSocket (Some code) (sockets st !! sid ≫= creatorHeader)]>
                        (sockets st) ∧
        connectedClients st' = connectedClients st ∧
        adapter st' = <[code := {[ sid ]} ∪ live st code]> (adapter st) ∧
        userRooms st' = <[sid := code]> (userRooms st)) st.
Proof.
  unfold enter_room, socket_join, set_currentRoom. wp_step. wp_step. wp_step.
  eapply wp_bind_call; [apply updateRoomInfo_book_ok|].
  intros r st1 o1 (-> & Hs & Hc & Ha & Hu).
  wp_steps. simpl in *. by repeat split.
Qed.

(** What a join does to the bookkeeping: the connection leaves the room it
    was in, enters the new one and records it. *)
Lemma on_joinRoom_book now sid code st :
  wp (on_joinRoom now sid code)
     (λ r st' _,
        r = Ok tt ∧
        sockets st' = <[sid := mkSocket (Some code) (sockets st !! sid ≫= creatorHeader)]>
                        (sockets st) ∧
        connectedClients st' = connectedClients st ∧
        adapter st' = <[code := {[ sid ]} ∪ live_of (adapter_left sid st) code]>
                        (adapter_left sid st) ∧
        userRooms st' = <[sid := code]> (userRooms st)) st.
Proof.
  unfold on_joinRoom. apply wp_try_catch.
  eapply wp_bind_call; [apply leave_previous_book|].
  intros r1 st1 o1 (-> & Hs1 & Hc1 & Ha1 & Hu1).
  eapply wp_bind_call; [apply lookup_room_book|].
  intros [loaded|] st2 o2 [Hok2 (Hs2 & Hc2 & Ha2 & Hu2)]; [|done].
  eapply (wp_bind_call _ _ (λ r st' _, r ≠ Thrown ∧ same_book st2 st')).
  { destruct loaded as [r|]; [wp_steps; by repeat split|apply create_on_join_book]. }
  intros [roomInfo|] st3 o3 [Hok3 (Hs3 & Hc3 & Ha3 & Hu3)]; [|done].
  eapply wp_bind_call; [apply enter_room_book|].
  intros r4 st4 o4 (-> & Hs4 & Hc4 & Ha4 & Hu4).
  eapply wp_bind_eq; [apply send_drawing_spec|].
  eapply wp_of_eq; [apply send_images_spec|].
  split; [done|]. unfold live in Ha4.
  rewrite Hs4, Hc4, Ha4, Hu4, Hs3, Hc3, Ha3, Hu3, Hs2, Hc2, Ha2, Hu2, Hs1, Hc1, Ha1, Hu1.
  repeat split.
  destruct (room_truthy _); [|done]. by rewrite insert_delete_eq.
Qed.

Lemma on_disconnect_book now sid st :
  wp (on_disconnect now sid)
     (λ _ st' _,
        sockets st' = delete sid (sockets st) ∧
        connectedClients st' = connectedClients st - 1 ∧
        adapter st' = (λ s : gset string, s ∖ {[ sid ]}) <$> adapter st ∧
        userRooms st' = (if room_truthy (currentRoom_of sid st)
                         then delete sid (userRooms st) else userRooms st)) st.
Proof.
  unfold on_disconnect. wp_step. wp_step. wp_step. wp_step.
  change (currentRoom_of sid _) with (currentRoom_of sid st).
  destruct (room_truthy _); [|wp_steps; by repeat split].
  wp_step.
  eapply wp_bind_call; [apply updateRoomInfo_book_ok|].
  intros r st1 o1 (-> & Hs & Hc & Ha & Hu).
  wp_steps. simpl in *. rewrite Hs, Hc, Ha, Hu. by repeat split.
Qed.

(** ** The bookkeeping stays consistent *)

Lemma live_of_insert a c s c' :
  live_of (<[c := s]> a) c' = if decide (c = c') then s else live_of a c'.
Proof.
  unfold live_of. destruct (decide (c = c')) as [->|Hne].
  - by rewrite lookup_insert_eq.
  - by rewrite lookup_insert_ne.
Qed.

Lemma live_of_without a sid c x :
  x ∈ live_of ((λ s : gset string, s ∖ {[ sid ]}) <$> a) c ↔ x ∈ live_of a c ∧ x ≠ sid.
Proof.
  unfold live_of. rewrite lookup_fmap. destruct (a !! c) as [s|]; simpl.
  - rewrite elem_of_difference, not_elem_of_singleton. done.
  - split; [by intros ?%not_elem_of_empty|by intros [?%not_elem_of_empty _]].
Qed.

Lemma currentRoom_of_eq st st' sid :
  sockets st' = sockets st → currentRoom_of sid st' = currentRoom_of sid st.
Proof. unfold currentRoom_of. by intros ->. Qed.

Lemma well_kept_book st st' : same_book st st' → well_kept st → well_kept st'.
Proof.
  intros (Hs & Hc & Ha & Hu) [I1 I2 I3 I4 I5 I6].
  unfold live, currentRoom_of in *.
  constructor; unfold live, currentRoom_of; rewrite ?Hs, ?Hc, ?Ha, ?Hu; done.
Qed.

Lemma room_truthy_current st sid :
  well_kept st →
  room_truthy (currentRoom_of sid st) = bool_decide (is_Some (currentRoom_of sid st)).
Proof.
  intros Hwk. pose proof (wk_nonempty st Hwk sid) as Hne.
  destruct (currentRoom_of sid st) as [c|]; unfold room_truthy.
  - rewrite (bool_decide_eq_false_2 (c = EmptyString)) by congruence.
    by rewrite bool_decide_eq_true_2 by eauto.
  - by rewrite bool_decide_eq_false_2 by apply is_Some_None.
Qed.

Lemma well_kept_connection sid hdr st st' :
  sockets st !! sid = None →
  sockets st' = <[sid := mkSocket None hdr]> (sockets st) →
  connectedClients st' = connectedClients st + 1 →
  adapter st' = <[sid := {[ sid ]} ∪ live st sid]> (adapter st) →
  userRooms st' = userRooms st →
  well_kept st → well_kept st'.
Proof.
  intros Hnew Hs Hc Ha Hu [I1 I2 I3 I4 I5 I6].
  assert (∀ x, currentRoom_of x st' =
               if decide (sid = x) then None else currentRoom_of x st) as Hcur.
  { intros x. unfold currentRoom_of. rewrite Hs. destruct (decide (sid = x)) as [->|Hne].
    - by rewrite lookup_insert_eq.
    - by rewrite lookup_insert_ne. }
  assert (∀ c, live st' c = if decide (sid = c) then {[ sid ]} ∪ live st sid else live st c)
    as Hlive.
  { intros c. unfold live. rewrite Ha. apply live_of_insert. }
  constructor.
  - rewrite Hc, Hs, I1. rewrite map_size_insert_None by done. lia.
  - intros code x. rewrite Hlive, Hcur.
    destruct (decide (sid = code)) as [<-|Hc1]; destruct (decide (sid = x)) as [<-|Hx].
    + by left.
    + intros [Hin%elem_of_singleton|Hin]%elem_of_union; [congruence|]. by apply I2.
    + intros Hin. apply I4 in Hin. rewrite Hnew in Hin. by destruct Hin.
    + apply I2.
  - intros x code. rewrite Hlive, Hcur.
    destruct (decide (sid = x)) as [<-|Hx]; [done|].
    intros Hin%I3. destruct (decide (sid = code)) as [<-|Hc1]; [|done].
    apply elem_of_union. by right.
  - intros code x. rewrite Hlive, Hs.
    destruct (decide (sid = x)) as [<-|Hx]; [by rewrite lookup_insert_eq|].
    rewrite lookup_insert_ne by done.
    destruct (decide (sid = code)) as [<-|Hc1].
    + intros [Hin%elem_of_singleton|Hin]%elem_of_union; [congruence|]. by eapply I4.
    + apply I4.
  - intros x. rewrite Hu, Hcur, I5.
    destruct (decide (sid = x)) as [<-|Hx]; [|done].
    unfold currentRoom_of. by rewrite Hnew.
  - intros x. rewrite Hcur. destruct (decide (sid = x)); [done|apply I6].
Qed.

Lemma well_kept_join sid code st st' :
  is_Some (sockets st !! sid) →
  code ≠ EmptyString →
  sockets st' = <[sid := mkSocket (Some code) (sockets st !! sid ≫= creatorHeader)]>
                  (sockets st) →
  connectedClients st' = connectedClients st →
  adapter st' = <[code := {[ sid ]} ∪ live_of (adapter_left sid st) code]>
                  (adapter_left sid st) →
  userRooms st' = <[sid := code]> (userRooms st) →
  well_kept st → well_kept st'.
Proof.
  intros Hknown Hcode Hs Hc Ha Hu Hwk.
  pose proof (room_truthy_current st sid Hwk) as Htruthy.
  destruct Hwk as [I1 I2 I3 I4 I5 I6].
  assert (∀ x, currentRoom_of x st' =
               if decide (sid = x) then Some code else currentRoom_of x st) as Hcur.
  { intros x. unfold currentRoom_of. rewrite Hs. destruct (decide (sid = x)) as [->|Hne].
    - by rewrite lookup_insert_eq.
    - by rewrite lookup_insert_ne. }
  (* The room left behind. *)
  assert (∀ c x, x ∈ live_of (adapter_left sid st) c ↔
                 x ∈ live st c ∧ (x = sid → currentRoom_of sid st ≠ Some c)) as Hleft.
  { intros c x. unfold adapter_left. cbn zeta. rewrite Htruthy.
    destruct (currentRoom_of sid st) as [prev|] eqn:Hprev.
    - rewrite bool_decide_eq_true_2 by eauto. simpl. rewrite live_of_insert.
      destruct (decide (prev = c)) as [->|Hne].
      + split.
        * intros [Hin Hx]%elem_of_difference. split; [done|].
          intros ->. by destruct Hx; apply elem_of_singleton.
        * intros [Hin Hx]. apply elem_of_difference. split; [done|].
          intros ->%elem_of_singleton. by apply Hx.
      + split; [|by intros [? _]]. intros Hin. split; [done|]. congruence.
    - rewrite bool_decide_eq_false_2 by apply is_Some_None. by split; [|intros [? _]]. }
  assert (∀ c x, x ∈ live st' c ↔
                 (c = code ∧ x = sid) ∨ x ∈ live_of (adapter_left sid st) c) as Hlive.
  { intros c x. unfold live. rewrite Ha, live_of_insert.
    destruct (decide (code = c)) as [->|Hne].
    - rewrite elem_of_union, elem_of_singleton. split.
      + intros [->|Hin]; [by left|by right].
      + intros [[_ ->]|Hin]; [by left|by right].
    - split; [by right|]. intros [[-> _]|Hin]; done. }
  constructor.
  - rewrite Hc, Hs, I1. by rewrite map_size_insert_Some.
  - intros c x. rewrite Hlive, Hleft, Hcur.
    intros [[-> ->]|[Hin Hx]].
    + right. by rewrite decide_True.
    + destruct (decide (sid = x)) as [<-|Hne]; [|by apply I2].
      destruct (I2 _ _ Hin) as [->|Hold]; [by left|]. by destruct (Hx eq_refl).
  - intros x c. rewrite Hlive, Hleft, Hcur.
    destruct (decide (sid = x)) as [<-|Hne].
    + intros [= <-]. by left.
    + intros Hin%I3. right. split; [done|]. intros ->. done.
  - intros c x. rewrite Hlive, Hleft, Hs.
    destruct (decide (sid = x)) as [<-|Hne]; [by rewrite lookup_insert_eq|].
    rewrite lookup_insert_ne by done.
    intros [[-> ->]|[Hin Hx]]; [done|]. by eapply I4.
  - intros x. rewrite Hu, Hcur.
    destruct (decide (sid = x)) as [<-|Hne].
    + by rewrite lookup_insert_eq.
    + rewrite lookup_insert_ne by done. apply I5.
  - intros x. rewrite Hcur. destruct (decide (sid = x)); [congruence|apply I6].
Qed.

Lemma well_kept_disconnect sid st st' :
  is_Some (sockets st !! sid) →
  sockets st' = delete sid (sockets st) →
  connectedClients st' = connectedClients st - 1 →
  adapter st' = (λ s : gset string, s ∖ {[ sid ]}) <$> adapter st →
  userRooms st' = (if room_truthy (currentRoom_of sid st)
                   then delete sid (userRooms st) else userRooms st) →
  well_kept st → well_kept st'.
Proof.
  intros Hknown Hs Hc Ha Hu Hwk.
  pose proof (room_truthy_current st sid Hwk) as Htruthy.
  destruct Hwk as [I1 I2 I3 I4 I5 I6].
  assert (∀ x, currentRoom_of x st' =
               if decide (sid = x) then None else currentRoom_of x st) as Hcur.
  { intros x. unfold currentRoom_of. rewrite Hs. destruct (decide (sid = x)) as [->|Hne].
    - by rewrite lookup_delete_eq.
    - by rewrite lookup_delete_ne. }
  assert (∀ c x, x ∈ live st' c ↔ x ∈ live st c ∧ x ≠ sid) as Hlive.
  { intros c x. unfold live. rewrite Ha. apply live_of_without. }
  constructor.
  - rewrite Hc, Hs, I1. rewrite map_size_delete_Some by done.
    assert (size (sockets st) ≠ 0%nat).
    { intros H0. apply map_size_empty_inv in H0. rewrite H0 in Hknown.
      rewrite lookup_empty in Hknown. by destruct Hknown. }
    lia.
  - intros c x. rewrite Hlive, Hcur. intros [Hin Hx].
    rewrite decide_False by congruence. by apply I2.
  - intros x c. rewrite Hlive, Hcur.
    destruct (decide (sid = x)) as [<-|Hne]; [done|].
    intros Hin%I3. split; [done|congruence].
  - intros c x. rewrite Hlive, Hs. intros [Hin Hx].
    rewrite lookup_delete_ne by congruence. by eapply I4.
  - intros x. rewrite Hu, Hcur, Htruthy.
    destruct (decide (sid = x)) as [<-|Hne].
    + destruct (currentRoom_of sid st) as [c|] eqn:Hc1.
      * rewrite bool_decide_eq_true_2 by eauto. by rewrite lookup_delete_eq.
      * rewrite bool_decide_eq_false_2 by apply is_Some_None. by rewrite I5.
    + destruct (bool_decide _); [rewrite lookup_delete_ne by done|]; apply I5.
  - intros x. rewrite Hcur. destruct (decide (sid = x)); [done|apply I6].
Qed.

(** Every event that is not a join to the empty code keeps the bookkeeping
    consistent. *)
Lemma handle_well_kept ev st :
  proper ev → well_kept st → well_kept (handle ev st).1.2.
Proof.
  intros Hproper Hwk.
  cut (wp (handle ev) (λ _ st' _, well_kept st') st).
  { unfold wp. by destruct (handle ev st) as [[r st'] o]. }
  assert (∀ {A} (m : M A), wp m (booked st) st → wp m (λ _ st' _, well_kept st') st) as Hweak.
  { intros A m H. eapply wp_mono; [exact H|]. intros r st' o Hb. by eapply well_kept_book. }
  destruct ev; unfold handle, when_connected, void.
  - wp_step. destruct (bool_decide _) eqn:Hk; [wp_steps; done|].
    apply bool_decide_eq_false in Hk.
    eapply wp_mono; [apply on_connection_book|]. intros r st' o (Hs & Hc & Ha & Hu).
    eapply well_kept_connection; try done.
    by apply eq_None_not_Some.
  - wp_step. destruct (bool_decide _) eqn:Hk; [|wp_steps; done].
    apply bool_decide_eq_true in Hk.
    apply (on_joinRoom_listeners_wp _ _ _ (λ st' _, well_kept st')).
    eapply wp_mono; [apply on_joinRoom_book|]. intros r st' o (_ & Hs & Hc & Ha & Hu).
    by eapply well_kept_join.
  - wp_step. destruct (bool_decide _); [apply Hweak, on_requestDrawingData_book|wp_steps; done].
  - wp_step. destruct (bool_decide _); [apply Hweak, on_requestImageData_book|wp_steps; done].
  - wp_step. destruct (bool_decide _); [apply Hweak, on_toggleDrawing_book|wp_steps; done].
  - wp_step. destruct (bool_decide _); [apply Hweak, on_draw_book|wp_steps; done].
  - wp_step. destruct (bool_decide _); [apply Hweak, on_imageChunk_book|wp_steps; done].
  - wp_step. destruct (bool_decide _); [apply Hweak, on_pasteImage_book|wp_steps; done].
  - wp_step. destruct (bool_decide _); [apply Hweak, on_clearCanvas_book|wp_steps; done].
  - wp_step. destruct (bool_decide _); [apply Hweak, on_ping_book|wp_steps; done].
  - wp_step. destruct (bool_decide _); [apply Hweak, on_requestRoomInfo_book|wp_steps; done].
  - wp_step. destruct (bool_decide _) eqn:Hk; [|wp_steps; done].
    apply bool_decide_eq_true in Hk.
    eapply wp_mono; [apply on_disconnect_book|]. intros r st' o (Hs & Hc & Ha & Hu).
    by eapply well_kept_disconnect.
  - apply Hweak, http_room_page_book.
  - eapply wp_bind_call; [apply api_create_room_book|].
    intros [a|] st1 o1 Hb; [wp_steps|]; by eapply well_kept_book.
  - apply Hweak, sweep_book.
  - wp_steps. eapply well_kept_book; [|exact Hwk]. by repeat split.
Qed.

Lemma run_well_kept evs st :
  Forall proper evs → well_kept st → well_kept (run evs st).1.
Proof.
  revert st. induction evs as [|ev evs IH]; intros st Hp Hwk; [done|].
  apply Forall_cons in Hp as [Hev Hp].
  pose proof (handle_well_kept ev st Hev Hwk) as Hstep.
  cbn [run]. destruct (handle ev st) as [[r st1] o1]. simpl in Hstep.
  specialize (IH st1 Hp Hstep). by destruct (run evs st1) as [st2 o2].
Qed.

(** * Rooms created and rooms reloaded *)

Lemma rooms_keep_refl st : rooms_keep st st.
Proof. intros c r H. eauto. Qed.

Lemma rooms_keep_trans s1 s2 s3 : rooms_keep s1 s2 → rooms_keep s2 s3 → rooms_keep s1 s3.
Proof.
  intros H12 H23 c r H. destruct (H12 c r H) as (r2 & H2 & E2 & F2).
  destruct (H23 c r2 H2) as (r3 & H3 & E3 & F3). exists r3. repeat split; congruence.
Qed.

Lemma rooms_keep_same st st' : rooms st' = rooms st → rooms_keep st st'.
Proof. intros Heq c r Hr. rewrite Heq. eauto. Qed.

Lemma updateRoomInfo_flags now code st :
  wp (updateRoomInfo now code) (λ _ st' _, rooms_keep st st') st.
Proof.
  unfold updateRoomInfo. wp_step.
  destruct (rooms st !! code) as [room|] eqn:Hroom; [|wp_steps; apply rooms_keep_refl].
  wp_step. destruct (negb _); wp_steps; [|apply rooms_keep_refl].
  intros c r Hr. simpl. destruct (decide (code = c)) as [->|Hne].
  - rewrite lookup_insert_eq. eexists. split; [done|]. simpl. split; congruence.
  - rewrite lookup_insert_ne by done. eauto.
Qed.

Lemma enter_room_flags now sid code roomInfo st :
  wp (enter_room now sid code roomInfo) (λ _ st' _, rooms_keep st st') st.
Proof.
  unfold enter_room, socket_join, set_currentRoom. wp_step. wp_step. wp_step.
  eapply wp_bind_call; [apply updateRoomInfo_flags|].
  intros [[]|] st1 o1 Hk; [wp_steps|]; exact Hk.
Qed.

(** Joining a room that is not in the cache but readable from the store:
    the stored record is taken, nothing is created, and the joiner is told
    what the store holds. *)
Lemma on_joinRoom_loaded now sid code h st :
  rooms st !! code = None →
  stored_room st code = Some h →
  wp (on_joinRoom now sid code)
     (λ _ st' o,
        (∃ room, rooms st' !! code = Some room ∧
                 creatorId room = creatorId (roomFromHash now h) ∧
                 drawingEnabled room = drawingEnabled (roomFromHash now h)) ∧
        ∃ e n, e ∈ o ∧ e_target e = ToSocket sid ∧
               e_msg e = RoomJoined code sid n
                           (strict_eq (VStr sid) (creatorId (roomFromHash now h)))
                           (drawingEnabled (roomFromHash now h))) st.
Proof.
  intros Hnone Hstore.
  unfold on_joinRoom. apply wp_try_catch.
  eapply wp_bind_call; [apply leave_previous_nothing_new|].
  intros r1 st1 o1 [-> [Hnew Hredis]].
  assert (stored_room st1 code = Some h) as Hstore1.
  { revert Hstore. unfold stored_room, store_ready, isRedisAvailable. by rewrite Hredis. }
  eapply wp_bind_eq.
  { rewrite lookup_room_spec, (Hnew code Hnone), Hstore1. reflexivity. }
  cbn beta iota. wp_step.
  eapply wp_bind_call.
  { apply wp_conj; [apply enter_room_kept|apply enter_room_flags]. }
  intros r4 st4 o4 [(-> & Hf4 & Hb4 & pre4 & n & e2 & ->) Hk4].
  eapply wp_bind_eq; [apply send_drawing_spec|].
  eapply wp_of_eq; [apply send_images_spec|].
  split.
  - destruct (Hk4 code (roomFromHash now h)) as (room & Hroom & Hcr & Hde).
    { simpl. apply lookup_insert_eq. }
    eauto.
  - eexists (mkEmission (ToSocket sid) _ (adapter st4)), n.
    split; [|done]. simpl.
    rewrite !elem_of_app, elem_of_cons. tauto.
Qed.

Lemma on_joinRoom_in_room now sid code st :
  code ≠ EmptyString →
  wp (on_joinRoom now sid code) (λ _ st' _, in_room sid code st') st.
Proof.
  intros Hcode. eapply wp_mono; [apply on_joinRoom_book|].
  intros r st' o (_ & Hs & _). split; [|done].
  unfold currentRoom_of. rewrite Hs. by rewrite lookup_insert_eq.
Qed.

(** * What the counters report *)

Lemma fresh_server_well_kept r : well_kept (mkState ∅ ∅ 0 ∅ ∅ r).
Proof.
  constructor; unfold live, live_of, currentRoom_of; simpl.
  - done.
  - intros code sid. rewrite lookup_empty. simpl. by intros ?%not_elem_of_empty.
  - intros sid code. by rewrite lookup_empty.
  - intros code sid. rewrite lookup_empty. simpl. by intros ?%not_elem_of_empty.
  - intros sid. by rewrite !lookup_empty.
  - intros sid. by rewrite lookup_empty.
Qed.

Lemma visit_proper : Forall proper visit.
Proof. repeat constructor; discriminate. Qed.

(** X8.  Starting from consistent bookkeeping, and as long as no connection
    joins the empty room code, [connectedClients] is the number of open
    connections: it is what [serverStatus] and every [pong] report. *)
Theorem connected_clients_counts_connections evs st sid :
  well_kept st → Forall proper evs →
  let st' := (run evs st).1 in
  status_connectedClients (on_requestServerStatus st') = Z.of_nat (size (sockets st')) ∧
  ∃ n, out_of (on_ping sid st')
       = [mkEmission (ToSocket sid) (PongMsg sid (Z.of_nat (size (sockets st'))) n) (adapter st')].
Proof.
  intros Hwk Hp st'. pose proof (run_well_kept evs st Hp Hwk) as [I1 _ _ _ _ _].
  fold st' in I1. split; [exact I1|].
  cut (wp (on_ping sid)
         (λ _ s o, ∃ n, o = [mkEmission (ToSocket sid) (PongMsg sid (connectedClients st') n)
                                (adapter st')]) st').
  { unfold wp, out_of. rewrite I1. by destruct (on_ping sid st') as [[r s] o]. }
  unfold on_ping. wp_step. apply wp_bind.
  destruct (room_truthy _).
  - wp_step. wp_step. destruct (rooms st' !! _) as [room|].
    + destruct (negb _); wp_steps; by eexists.
    + wp_steps. by eexists.
  - wp_steps. by eexists.
Qed.

Lemma connected_clients_counts_connections_witness :
  let st' := (run visit server_without_store).1 in
  status_connectedClients (on_requestServerStatus st') = Z.of_nat (size (sockets st')) ∧
  ∃ n, out_of (on_ping "B" st')
       = [mkEmission (ToSocket "B") (PongMsg "B" (Z.of_nat (size (sockets st'))) n) (adapter st')].
Proof.
  exact (connected_clients_counts_connections visit server_without_store "B"
           (fresh_server_well_kept _) visit_proper).
Defined.





(** * The store as the memory of a room *)

(** X11.  A room that is only in the store is joined with the record the
    store holds, in which [drawingEnabled] is a string: it is never
    [=== false], so the joiner's strokes pass the gate whatever the store
    says, also when drawing had been disabled before the cache was lost. *)
Theorem reloaded_room_gate_is_open now sid code h data st :
  code ≠ EmptyString →
  rooms st !! code = None →
  stored_room st code = Some h →
  let st1 := state_of (on_joinRoom now sid code st) in
  in_room sid code st1 ∧
  (∃ room, rooms st1 !! code = Some room ∧
           drawingEnabled room = from_option VStr VUndef (h_drawingEnabled h)) ∧
  stroke_relayed sid code data st1.
Proof.
  intros Hcode Hnone Hstore st1.
  pose proof (wp_run _ _ _ (on_joinRoom_in_room now sid code st Hcode)) as Hin.
  pose proof (wp_run _ _ _ (on_joinRoom_loaded now sid code h st Hnone Hstore))
    as [(room & Hroom & _ & Hde) _].
  fold st1 in Hin, Hroom. split; [exact Hin|]. split; [by exists room|].
  eapply on_draw_passes; [exact Hin|exact Hroom|].
  left. rewrite Hde. simpl. by destruct (h_drawingEnabled h).
Qed.

Lemma reloaded_room_gate_is_open_witness :
  stroke_relayed "B" "482913" stroke0
    (state_of (on_joinRoom 5000 "B" "482913" (restart (scene_disabled server_with_store)))).
Proof.
  assert ("482913"%string ≠ EmptyString) as Hcode by discriminate.
  assert (rooms (restart (scene_disabled server_with_store)) !! "482913"%string = None) as Hnone
    by reflexivity.
  assert (stored_room (restart (scene_disabled server_with_store)) "482913" = Some hash_disabled)
    as Hstore by (vm_compute; reflexivity).
  pose proof (reloaded_room_gate_is_open 5000 "B" "482913" hash_disabled stroke0 _
                Hcode Hnone Hstore) as (_ & _ & H).
  exact H.
Defined.

(** X12.  [/api/check-room] looks at the cache only: a room that lives in the
    store alone is reported as not existing, although a join finds it there,
    creates nothing, and answers with the stored creator and drawing flag;
    after that join the route reports the room. *)
Theorem check_room_ignores_the_store now sid code h st :
  rooms st !! code = None →
  stored_room st code = Some h →
  api_check_room code st = false ∧
  let x := on_joinRoom now sid code st in
  (∃ e n, e ∈ out_of x ∧ e_target e = ToSocket sid ∧
          e_msg e = RoomJoined code sid n
                      (strict_eq (VStr sid) (from_option VStr VUndef (h_creatorId h)))
                      (from_option VStr VUndef (h_drawingEnabled h))) ∧
  (∃ room, rooms (state_of x) !! code = Some room ∧
           creatorId room = from_option VStr VUndef (h_creatorId h)) ∧
  api_check_room code (state_of x) = true.
Proof.
  intros Hnone Hstore. split.
  { unfold api_check_room. rewrite Hnone. by apply bool_decide_eq_false_2, is_Some_None. }
  cbn zeta.
  pose proof (wp_run _ _ _ (on_joinRoom_loaded now sid code h st Hnone Hstore))
    as [(room & Hroom & Hcr & _) Hmsg].
  split; [exact Hmsg|]. split; [by exists room|].
  unfold api_check_room. rewrite Hroom. by apply bool_decide_eq_true_2.
Qed.

Lemma check_room_ignores_the_store_witness :
  api_check_room "482913" (restart (scene_disabled server_with_store)) = false ∧
  api_check_room "482913"
    (state_of (on_joinRoom 5000 "B" "482913" (restart (scene_disabled server_with_store))))
    = true.
Proof.
  assert (rooms (restart (scene_disabled server_with_store)) !! "482913"%string = None) as Hnone
    by reflexivity.
  assert (stored_room (restart (scene_disabled server_with_store)) "482913" = Some hash_disabled)
    as Hstore by (vm_compute; reflexivity).
  pose proof (check_room_ignores_the_store 5000 "B" "482913" hash_disabled _ Hnone Hstore)
    as (H1 & _ & _ & H2).
  split; [exact H1|exact H2].
Defined.

(** X13.  A room record written by [createRoom] and read back from the store
    once the cache is gone keeps its times and its creator, but not its
    types: [drawingEnabled] comes back as the string ["true"] and an absent
    creator as the empty string.  While the cache holds the room,
    [getRoomInfo] answers with the record as created. *)
Theorem room_record_store_round_trip now now' code creator st :
  store_ready st = true →
  now ≠ 0 →
  let st1 := state_of (createRoom now code creator st) in
  res_of (getRoomInfo now' code st1) = Ok (Some (created_room now creator)) ∧
  res_of (getRoomInfo now' code (restart st1)) = Ok (Some (reloaded_room now creator)).
Proof.
  intros Hready Hnow st1. subst st1.
  rewrite !getRoomInfo_spec.
  unfold createRoom, cmd_hSet, cmd_expire, redis_cmd. munfold.
  revert Hready. unfold stored_room, store_ready, restart, isRedisAvailable.
  destruct st as [rs ur cc sk ad [c e f h pt im]]; simpl.
  destruct e, c, f; simpl; try discriminate. intros _.
  rewrite !lookup_insert_eq. split; [reflexivity|].
  rewrite lookup_empty. simpl.
  unfold roomFromHash, reloaded_room, parseIntOr. simpl.
  apply Z.eqb_neq in Hnow. by rewrite Hnow.
Qed.

Lemma room_record_store_round_trip_witness :
  res_of (getRoomInfo 9000 "482913"
            (restart (state_of (createRoom 1000 "482913" None server_with_store))))
    = Ok (Some (mkRoom 1000 1000 0 (VStr "") (VStr "true"))).
Proof.
  assert (store_ready server_with_store = true) as Hready by reflexivity.
  assert (1000 ≠ 0) as Hnow by lia.
  pose proof (room_record_store_round_trip 1000 9000 "482913" None _ Hready Hnow) as [_ H].
  exact H.
Defined.



(** * Clearing and toggling *)







(** X16.  A permission toggle or a clear from a member whom the room does
    not recognise as its creator, neither by connection id nor by the
    [x-creator-id] header, changes nothing and is answered with one error
    event to that member. *)
Theorem only_the_creator_toggles_and_clears sid code room flag st :
  in_room sid code st →
  rooms st !! code = Some room →
  isCreator sid st room = false →
  on_toggleDrawing sid flag st = (Ok tt, st, [error_to sid ErrToggleNotCreator st]) ∧
  on_clearCanvas sid st = (Ok tt, st, [error_to sid ErrClearNotCreator st]).
Proof.
  intros [Hcur Ht]%in_room_truthy Hroom Hcr.
  unfold on_toggleDrawing, on_clearCanvas, error_to. munfold.
  rewrite Hcur, Ht. simpl. rewrite Hroom, Hcr. done.
Qed.

Lemma only_the_creator_toggles_and_clears_witness :
  on_clearCanvas "B" (scene_joined server_with_store)
    = (Ok tt, scene_joined server_with_store,
       [error_to "B" ErrClearNotCreator (scene_joined server_with_store)]).
Proof.
  assert (in_room "B" "482913" (scene_joined server_with_store)) as Hin
    by (split; [vm_compute; reflexivity | discriminate]).
  assert (rooms (scene_joined server_with_store) !! "482913"%string
          = Some (mkRoom 1000 2000 2 (VStr "A") (VBool true))) as Hroom
    by (vm_compute; reflexivity).
  assert (isCreator "B" (scene_joined server_with_store)
            (mkRoom 1000 2000 2 (VStr "A") (VBool true)) = false) as Hcr
    by (vm_compute; reflexivity).
  pose proof (only_the_creator_toggles_and_clears "B" "482913" _ (VBool false) _ Hin Hroom Hcr)
    as [_ H].
  exact H.
Defined.

Lemma on_toggleDrawing_room sid code room flag st :
  in_room sid code st →
  rooms st !! code = Some room →
  isCreator sid st room = true →
  let st1 := state_of (on_toggleDrawing sid flag st) in
  rooms st1 !! code
    = Some (mkRoom (createdAt room) (lastActive room) (users room) (creatorId room) flag) ∧
  sockets st1 = sockets st ∧
  points (redis st1) = points (redis st) ∧
  store_ready st1 = store_ready st.
Proof.
  intros Hin Hroom Hcr st1. subst st1.
  rewrite (on_toggleDrawing_unfold _ _ _ flag _ Hin Hroom Hcr). cbn zeta.
  unfold state_of, store_ready, isRedisAvailable.
  destruct st as [rs ur cc sk ad [c e f h pt im]]; simpl.
  destruct e, c, f; simpl; by rewrite lookup_insert_eq.
Qed.

(** X17.  Once a member recognised as creator has toggled the permission
    with argument [flag], the gate of [draw] is closed for a member exactly
    when [flag] is the boolean [false] and the member's connection id is not
    [creatorId]: every other argument, falsy or not, leaves it open.  This
    holds whether or not the store took the update. *)
Theorem toggle_then_draw sid code room flag sid' data st :
  in_room sid code st →
  rooms st !! code = Some room →
  isCreator sid st room = true →
  in_room sid' code st →
  let st1 := state_of (on_toggleDrawing sid flag st) in
  (flag = VBool false → creatorId room ≠ VStr sid' → on_draw sid' data st1 = (Ok tt, st1, [])) ∧
  (flag ≠ VBool false ∨ creatorId room = VStr sid' → stroke_relayed sid' code data st1).
Proof.
  intros Hin Hroom Hcr Hin' st1.
  destruct (on_toggleDrawing_room sid code room flag st Hin Hroom Hcr) as (Hroom1 & Hs & _).
  fold st1 in Hroom1, Hs.
  assert (in_room sid' code st1) as Hin1.
  { destruct Hin' as [Hc Hne]. split; [|done]. unfold currentRoom_of in *. by rewrite Hs. }
  split.
  - intros -> Hnc. by eapply on_draw_blocked.
  - intros Hpass. eapply on_draw_passes; [exact Hin1|exact Hroom1|exact Hpass].
Qed.

Lemma toggle_then_draw_witness :
  on_draw "B" stroke0 (state_of (on_toggleDrawing "A" (VBool false) (scene_joined server_with_store)))
    = (Ok tt, state_of (on_toggleDrawing "A" (VBool false) (scene_joined server_with_store)), []).
Proof.
  assert (in_room "A" "482913" (scene_joined server_with_store)) as HA
    by (split; [vm_compute; reflexivity | discriminate]).
  assert (in_room "B" "482913" (scene_joined server_with_store)) as HB
    by (split; [vm_compute; reflexivity | discriminate]).
  assert (rooms (scene_joined server_with_store) !! "482913"%string
          = Some (mkRoom 1000 2000 2 (VStr "A") (VBool true))) as Hroom
    by (vm_compute; reflexivity).
  assert (isCreator "A" (scene_joined server_with_store)
            (mkRoom 1000 2000 2 (VStr "A") (VBool true)) = true) as Hcr
    by (vm_compute; reflexivity).
  pose proof (toggle_then_draw "A" "482913" _ (VBool false) "B" stroke0 _ HA Hroom Hcr HB)
    as [H _].
  apply H; [reflexivity|discriminate].
Defined.

(** X18.  When the store is believed available but rejects the update, a
    creator's toggle still changes the cached flag, the store is left as it
    was, and the only event is an error to the creator: the room is not told
    that the permission changed. *)
Theorem toggle_applies_although_store_rejects sid code room flag st :
  in_room sid code st →
  rooms st !! code = Some room →
  isCreator sid st room = true →
  isRedisAvailable st = true →
  failing (redis st) = true →
  let x := on_toggleDrawing sid flag st in
  out_of x = [error_to sid ErrToggle st] ∧
  rooms (state_of x) !! code
    = Some (mkRoom (createdAt room) (lastActive room) (users room) (creatorId room) flag) ∧
  redis (state_of x) = redis st.
Proof.
  intros Hin Hroom Hcr Hav Hfail. cbn zeta.
  rewrite (on_toggleDrawing_unfold _ _ _ flag _ Hin Hroom Hcr). cbn zeta.
  rewrite Hav, Hfail. unfold out_of, state_of. simpl.
  split; [done|]. split; [apply lookup_insert_eq|done].
Qed.

Lemma toggle_applies_although_store_rejects_witness :
  out_of (on_toggleDrawing "A" (VBool false)
            (run [ERedis true true true] (scene_joined server_with_store)).1)
    = [error_to "A" ErrToggle (run [ERedis true true true] (scene_joined server_with_store)).1].
Proof.
  assert (in_room "A" "482913" (run [ERedis true true true] (scene_joined server_with_store)).1)
    as HA by (split; [vm_compute; reflexivity | discriminate]).
  assert (rooms (run [ERedis true true true] (scene_joined server_with_store)).1 !! "482913"%string
          = Some (mkRoom 1000 2000 2 (VStr "A") (VBool true))) as Hroom
    by (vm_compute; reflexivity).
  assert (isCreator "A" (run [ERedis true true true] (scene_joined server_with_store)).1
            (mkRoom 1000 2000 2 (VStr "A") (VBool true)) = true) as Hcr
    by (vm_compute; reflexivity).
  assert (isRedisAvailable (run [ERedis true true true] (scene_joined server_with_store)).1 = true)
    as Hav by (vm_compute; reflexivity).
  assert (failing (redis (run [ERedis true true true] (scene_joined server_with_store)).1) = true)
    as Hfail by (vm_compute; reflexivity).
  pose proof (toggle_applies_although_store_rejects "A" "482913" _ (VBool false) _
                HA Hroom Hcr Hav Hfail) as [H _].
  exact H.
Defined.

(** * The creation API, [ping] and the users list *)

(** X19.  A code handed out by [/api/create-room] was in no cached room
    before; the room is cached with the request's token as creator and
    with drawing enabled, [/api/check-room] reports it from then on, and
    the route emits no socket event. *)
Theorem api_create_room_result fuel now samples token code tok st :
  let x := api_create_room fuel now samples token st in
  res_of x = Ok (Some (code, tok)) →
  tok = token ∧
  rooms st !! code = None ∧
  rooms (state_of x) !! code = Some (created_room now (Some token)) ∧
  api_check_room code (state_of x) = true ∧
  out_of x = [].
Proof.
  cbn zeta. intros Hres.
  cut (wp (api_create_room fuel now samples token)
         (λ r st' _, r = Ok (Some (code, tok)) →
                     tok = token ∧ rooms st !! code = None ∧
                     rooms st' !! code = Some (created_room now (Some token))) st).
  { intros Hwp. apply wp_run in Hwp. destruct (Hwp Hres) as (-> & Hnone & Hroom).
    split; [done|]. split; [done|]. split; [done|]. split.
    - unfold api_check_room. rewrite Hroom. by apply bool_decide_eq_true_2.
    - apply api_create_room_quiet. }
  unfold api_create_room.
  eapply wp_bind_call; [apply createUniqueRoomCode_fresh|].
  intros [[c|]|] st1 o1 [Hext Hfresh]; cbn beta iota; [| |done].
  - destruct (createRoom_spec now c (Some token) st1) as (st2 & Heq & Hrooms & _).
    eapply wp_bind_eq; [exact Heq|]. wp_steps. intros [= -> ->].
    split; [done|]. split.
    + destruct (rooms st !! code) as [r|] eqn:Hr; [|done].
      destruct (Hext code r Hr) as (r' & Hr' & _). rewrite (Hfresh code eq_refl) in Hr'. done.
    + rewrite Hrooms. apply lookup_insert_eq.
  - wp_steps. intros [=].
Qed.

Lemma api_create_room_result_witness :
  rooms (state_of (api_create_room 5 1000 (λ _, 482913) "198.51.100.7-1000" server_with_store))
    !! "482913"
    = Some (created_room 1000 (Some "198.51.100.7-1000"%string)).
Proof.
  assert (res_of (api_create_room 5 1000 (λ _, 482913) "198.51.100.7-1000" server_with_store)
          = Ok (Some ("482913", "198.51.100.7-1000")%string)) as Hres
    by (vm_compute; reflexivity).
  pose proof (api_create_room_result 5 1000 (λ _, 482913) "198.51.100.7-1000" _ _ _ Hres)
    as (_ & _ & H & _).
  exact H.
Defined.

(** X20.  [ping] and [requestRoomInfo] report the size of the live
    connection set of the room that [userRooms] holds for the connection.
    [ping] brings the cached count of that room in line without touching
    its last-activity time and without telling the room, unlike the
    reconcile of a join or a disconnect. *)
Theorem ping_reports_live_count sid code now st :
  userRooms st !! sid = Some code →
  code ≠ EmptyString →
  let n := actualUsers st code in
  out_of (on_ping sid st)
    = [mkEmission (ToSocket sid) (PongMsg sid (connectedClients st) n) (adapter st)] ∧
  rooms (state_of (on_ping sid st)) !! code
    = (λ room, with_users room n) <$> rooms st !! code ∧
  out_of (on_requestRoomInfo now sid st)
    = [mkEmission (ToSocket sid)
         (RoomInfoMsg code n (from_option createdAt now (rooms st !! code))) (adapter st)].
Proof.
  intros Hur Hcode. cbn zeta.
  assert (room_truthy (Some code) = true) as Ht.
  { unfold room_truthy. by rewrite bool_decide_eq_false_2. }
  unfold on_ping, on_requestRoomInfo. munfold. rewrite Hur, Ht. simpl.
  destruct (rooms st !! code) as [room|] eqn:Hroom; simpl.
  - destruct (users room =? actualUsers st code) eqn:Hn; simpl.
    + rewrite Hroom. apply Z.eqb_eq in Hn. unfold with_users. rewrite <- Hn.
      by destruct room.
    + by rewrite lookup_insert_eq.
  - by rewrite Hroom.
Qed.

Lemma ping_reports_live_count_witness :
  out_of (on_ping "B" (scene_joined server_with_store))
    = [mkEmission (ToSocket "B")
         (PongMsg "B" (connectedClients (scene_joined server_with_store))
            (actualUsers (scene_joined server_with_store) "482913"))
         (adapter (scene_joined server_with_store))].
Proof.
  assert (userRooms (scene_joined server_with_store) !! "B"%string = Some "482913"%string)
    as Hur by (vm_compute; reflexivity).
  assert ("482913"%string ≠ EmptyString) as Hcode by discriminate.
  pose proof (ping_reports_live_count "B" "482913" 0 _ Hur Hcode) as [H _].
  exact H.
Defined.

(** X21.  The answer to [requestUsersList] from a member of a cached room
    lists the live connection set of the room, each connection once, and
    flags a connection as creator exactly when its id is the room's
    [creatorId]: at most one entry is flagged, and none in a room whose
    creator is not a connection id. *)
Theorem users_list_flags_the_creator sid code room st :
  in_room sid code st →
  rooms st !! code = Some room →
  ∃ listed,
    on_requestUsersList sid st = UsersList listed (creatorId room) ∧
    NoDup listed.*1 ∧
    (∀ id b, (id, b) ∈ listed ↔ id ∈ live st code ∧ b = strict_eq (VStr id) (creatorId room)) ∧
    (∀ id1 id2, (id1, true) ∈ listed → (id2, true) ∈ listed → id1 = id2).
Proof.
  intros [Hcur Ht]%in_room_truthy Hroom.
  unfold on_requestUsersList. cbn zeta. rewrite Hcur, Ht. simpl. rewrite Hroom.
  unfold live, live_of.
  destruct (adapter st !! code) as [s|]; simpl.
  - eexists. split; [reflexivity|].
    assert (∀ id b, (id, b) ∈ (λ socketId, (socketId, strict_eq (VStr socketId) (creatorId room)))
                                 <$> elements s
                    ↔ id ∈ s ∧ b = strict_eq (VStr id) (creatorId room)) as Hmem.
    { intros id b. rewrite list_elem_of_fmap. split.
      - intros (x & [= -> ->] & Hx). by apply elem_of_elements in Hx.
      - intros [Hin ->]. exists id. split; [done|]. by apply elem_of_elements. }
    split; [|split; [exact Hmem|]].
    + rewrite <- list_fmap_compose. simpl. rewrite list_fmap_id. apply NoDup_elements.
    + intros id1 id2 [_ H1]%Hmem [_ H2]%Hmem.
      symmetry in H1, H2. apply strict_eq_true in H1, H2. congruence.
  - exists []. split; [reflexivity|]. split; [constructor|]. split.
    + intros id b. split; [by intros ?%elem_of_nil|by intros [?%not_elem_of_empty _]].
    + by intros id1 id2 ?%elem_of_nil.
Qed.

Lemma users_list_flags_the_creator_witness :
  ∃ listed,
    on_requestUsersList "B" (scene_joined server_with_store)
      = UsersList listed (VStr "A") ∧
    NoDup listed.*1 ∧
    (∀ id b, (id, b) ∈ listed ↔
             id ∈ live (scene_joined server_with_store) "482913" ∧
             b = strict_eq (VStr id) (VStr "A")) ∧
    (∀ id1 id2, (id1, true) ∈ listed → (id2, true) ∈ listed → id1 = id2).
Proof.
  assert (in_room "B" "482913" (scene_joined server_with_store)) as Hin
    by (split; [vm_compute; reflexivity | discriminate]).
  assert (rooms (scene_joined server_with_store) !! "482913"%string
          = Some (mkRoom 1000 2000 2 (VStr "A") (VBool true))) as Hroom
    by (vm_compute; reflexivity).
  exact (users_list_flags_the_creator "B" "482913" _ _ Hin Hroom).
Defined.

(** * The store keys *)

Lemma chars_app a b : chars (a +:+ b) = chars a ++ chars b.
Proof.
  induction a as [|c a IH]; [done|].
  change (c :: chars (a +:+ b) = c :: chars a ++ chars b). by rewrite IH.
Qed.

Lemma chars_inj a b : chars a = chars b → a = b.
Proof.
  revert b. induction a as [|c a IH]; intros [|d b] H; simplify_eq/=; [done|].
  f_equal. by apply IH.
Qed.

Lemma has_char_chars ch s : has_char ch s = true ↔ ch ∈ chars s.
Proof.
  induction s as [|c s IH]; simpl.
  - split; [done|by intros ?%elem_of_nil].
  - rewrite orb_true_iff, bool_decide_eq_true, IH, elem_of_cons.
    split; (intros [H|H]; [left; congruence|by right]).
Qed.

Lemma split_plain sep s : has_char sep s = false → split sep s = [s].
Proof.
  induction s as [|c s IH]; [done|]. simpl.
  intros [Hc Hs]%orb_false_iff. rewrite Hc, (IH Hs). done.
Qed.

Lemma split_at sep a b :
  has_char sep a = false → split sep (a +:+ String sep b) = a :: split sep b.
Proof.
  induction a as [|c a IH].
  - intros _. change (split sep (String sep b) = "" :: split sep b).
    simpl. by rewrite bool_decide_eq_true_2.
  - simpl. intros [Hc Hs]%orb_false_iff.
    change (split sep (String c (a +:+ String sep b)) = String c a :: split sep b).
    simpl. rewrite Hc, (IH Hs). done.
Qed.

Lemma has_char_split_cons sep s : ∃ p ps, split sep s = p :: ps.
Proof.
  induction s as [|c s (p & ps & IH)]; simpl; [by eexists _, _|].
  destruct (bool_decide (c = sep)); [by eexists _, _|]. rewrite IH. by eexists _, _.
Qed.


Lemma chars_app_inv_tail a b t : chars a ++ t = chars b ++ t → a = b.
Proof. intros H. apply chars_inj. by eapply app_inv_tail. Qed.

(** X22.  The three store keys of a room determine the room, and the two
    list keys never coincide with each other.  The hash key of a room
    coincides with no list key as long as the room's code holds no colon;
    a code that ends in [:points] does collide: its hash key is the
    stroke-list key of another room. *)
Theorem store_keys_are_separate c1 c2 :
  (roomKey c1 = roomKey c2 ↔ c1 = c2) ∧
  (pointsKey c1 = pointsKey c2 ↔ c1 = c2) ∧
  (imagesKey c1 = imagesKey c2 ↔ c1 = c2) ∧
  pointsKey c1 ≠ imagesKey c2 ∧
  (has_char ":" c1 = false → roomKey c1 ≠ pointsKey c2 ∧ roomKey c1 ≠ imagesKey c2) ∧
  roomKey (c2 +:+ ":points") = pointsKey c2.
Proof.
  unfold roomKey, pointsKey, imagesKey.
  assert (∀ a b t, "room:" +:+ a +:+ t = "room:" +:+ b +:+ t → a = b) as Hmid.
  { intros a b t H%(inj (String.app "room:")).
    apply (f_equal chars) in H. rewrite !chars_app in H. by eapply chars_app_inv_tail. }
  assert (∀ a b t u, length (chars t) = length (chars u) → t ≠ u →
                     "room:" +:+ a +:+ t ≠ "room:" +:+ b +:+ u) as Hsuffix.
  { intros a b t u Hlen Hne H%(inj (String.app "room:")).
    apply (f_equal chars) in H. rewrite !chars_app in H.
    apply app_inj_2 in H as [_ H']; [|done]. by apply chars_inj in H'. }
  split; [split; [by intros ?%(inj (String.app "room:"))|by intros ->]|].
  split; [split; [apply Hmid|by intros ->]|].
  split; [split; [apply Hmid|by intros ->]|].
  split; [by apply Hsuffix|].
  split; [|done].
  intros Hc1.
  assert (∀ t, ":"%char ∈ chars t → "room:" +:+ c1 ≠ "room:" +:+ c2 +:+ t) as Hcolon.
  { intros t Ht H%(inj (String.app "room:")). subst c1.
    assert (":"%char ∈ chars (c2 +:+ t)) as Hin.
    { rewrite chars_app. apply elem_of_app. by right. }
    apply has_char_chars in Hin. congruence. }
  split; apply Hcolon; simpl; apply elem_of_cons; by left.
Qed.




(** * The client: page path, local copy, permissions *)

Lemma indexOf_absent x l : x ∉ l → indexOf x l = -1.
Proof.
  induction l as [|y l IH]; [done|].
  intros [Hne Hl]%not_elem_of_cons. simpl.
  rewrite bool_decide_eq_false_2 by congruence. by rewrite (IH Hl).
Qed.

(** X24.  On the path of a room page, [/room/CODE] with or without further
    segments, the client takes [CODE] as its room code, for every code
    without a slash; on a path with no segment [room], and on [/room]
    itself, it has no room code. *)
Theorem room_code_of_page_path code rest pathname :
  has_char "/" code = false →
  getCurrentRoomCode ("/room/" +:+ code) = Some code ∧
  getCurrentRoomCode ("/room/" +:+ code +:+ "/" +:+ rest) = Some code ∧
  getCurrentRoomCode "/room" = None ∧
  ("room" ∉ split "/" pathname → getCurrentRoomCode pathname = None).
Proof.
  intros Hcode.
  assert (∀ tail, split "/" ("/room/" +:+ tail) = "" :: "room" :: split "/" tail) as Hhead.
  { intros tail.
    change ("/room/" +:+ tail) with ("" +:+ String "/" ("room" +:+ String "/" tail)).
    rewrite (split_at "/" "") by done. by rewrite (split_at "/" "room") by done. }
  split; [|split; [|split]].
  - unfold getCurrentRoomCode. rewrite Hhead, split_plain by done. reflexivity.
  - unfold getCurrentRoomCode. rewrite Hhead.
    change (code +:+ "/" +:+ rest) with (code +:+ String "/" rest).
    rewrite split_at by done.
    destruct (has_char_split_cons "/" rest) as (p & ps & ->). simpl.
    replace (0 + 1 + 1 <? Z.of_nat (S (S (S (S (length ps)))))) with true
      by (symmetry; apply Z.ltb_lt; lia).
    reflexivity.
  - reflexivity.
  - intros Habs. unfold getCurrentRoomCode. by rewrite (indexOf_absent _ _ Habs).
Qed.

Lemma room_code_of_page_path_witness :
  getCurrentRoomCode "/room/482913" = Some "482913"%string.
Proof.
  assert (has_char "/" "482913" = false) as Hcode by reflexivity.
  pose proof (room_code_of_page_path "482913" "" "/" Hcode) as [H _].
  exact H.
Defined.







(** * Concurrent chunked transfers *)







(** * The two [joinRoom] listeners, and the awaits of the sweep *)

(** ** Exceptions that escape *)

Lemma try_catch_returns {A} (body handler : M A) st :
  (∀ s, wp handler returns s) → wp (try_catch body handler) returns st.
Proof.
  intros H. apply wp_try_catch. unfold wp at 1.
  destruct (body st) as [[[a|] s] o]; [done|].
  eapply wp_mono; [apply H|]. done.
Qed.

Lemma emit_returns t m s : wp (emit t m) returns s.
Proof. done. Qed.

Lemma ret_returns {A} (a : A) s : wp (ret a) returns s.
Proof. done. Qed.

Lemma for_each_returns {A} (body : A → M unit) l st :
  (∀ x s, wp (body x) returns s) → wp (for_each l body) returns st.
Proof.
  intros Hbody. revert st. induction l as [|x l IH]; intros st; simpl; [done|].
  eapply wp_bind_call; [apply Hbody|].
  intros [[]|] st1 o1 Ho1; [|done]. apply IH.
Qed.

Lemma getRoomInfo_returns now code st : wp (getRoomInfo now code) returns st.
Proof. apply try_catch_returns. intros s. done. Qed.

Lemma createUniqueRoomCode_returns fuel now samples i st :
  wp (createUniqueRoomCode fuel now samples i) returns st.
Proof.
  revert i st. induction fuel as [|fuel IH]; intros i st; simpl; [done|].
  eapply wp_bind_call; [apply getRoomInfo_returns|].
  intros [r|] st1 o1 H; [|done]. destruct (bool_decide _); [apply IH|done].
Qed.

Lemma createRoom_returns now code creator st : wp (createRoom now code creator) returns st.
Proof.
  unfold createRoom. cbn zeta. wp_step.
  eapply wp_bind_call; [apply try_catch_returns; intros s; done|].
  intros [r|] st1 o1 H; [|done]. done.
Qed.

(** X28.  No listener other than the second [joinRoom] registration, no
    route and no sweep lets an exception escape: an event that ends in an
    unhandled rejection is a join. *)
Theorem only_a_join_ends_in_rejection ev st :
  res_of (handle ev st) = Thrown → ∃ now sid code, ev = EJoinRoom now sid code.
Proof.
  intros Hres.
  destruct ev; [|by eauto|..]; exfalso; revert Hres; apply (wp_run _ returns);
    unfold handle, when_connected, void.
  - wp_step. destruct (bool_decide _); [done|]. unfold on_connection, socket_join. wp_steps. done.
  - wp_step. destruct (bool_decide _); [|done]. apply try_catch_returns. intros s; done.
  - wp_step. destruct (bool_decide _); [|done]. apply try_catch_returns. intros s; done.
  - wp_step. destruct (bool_decide _); [|done]. apply try_catch_returns. intros s; done.
  - wp_step. destruct (bool_decide _); [|done]. apply try_catch_returns. intros s; done.
  - wp_step. destruct (bool_decide _); [|done]. apply try_catch_returns. intros s; done.
  - wp_step. destruct (bool_decide _); [|done]. apply try_catch_returns. intros s; done.
  - wp_step. destruct (bool_decide _); [|done]. apply try_catch_returns. intros s; done.
  - wp_step. destruct (bool_decide _); [|done]. unfold on_ping. wp_step. apply wp_bind.
    destruct (room_truthy _).
    + wp_step. wp_step. destruct (rooms st !! _) as [room|]; [destruct (negb _)|]; wp_steps; done.
    + wp_steps. done.
  - wp_step. destruct (bool_decide _); [|done]. unfold on_requestRoomInfo. wp_step.
    destruct (room_truthy _); [|wp_steps; done].
    wp_step. wp_step. destruct (rooms st !! _) as [room|]; wp_steps; done.
  - wp_step. destruct (bool_decide _); [|done]. unfold on_disconnect. wp_step. wp_step.
    eapply wp_bind_call; [apply try_catch_returns; intros s; done|].
    intros [r|] st1 o1 H; [|done]. done.
  - unfold http_room_page. wp_step. destruct (rooms st !! code); [done|].
    wp_step. wp_step. destruct (isRedisAvailable _); [|done].
    apply try_catch_returns. intros s; done.
  - eapply (wp_bind_call _ _ returns).
    { unfold api_create_room. eapply wp_bind_call; [apply createUniqueRoomCode_returns|].
      intros [[c|]|] st1 o1 H; [| |done].
      - eapply wp_bind_call; [apply createRoom_returns|].
        intros [r|] st2 o2 H2; [|done]. done.
      - done. }
    intros [r|] st1 o1 H; [|done]. done.
  - unfold sweep. wp_step.
    eapply wp_bind_call.
    { apply for_each_returns. intros x s. eapply wp_mono; [apply sweep_reconcile_room_returns|].
      by intros r ? ? ->. }
    intros [r|] st1 o1 H; [|done]. wp_step.
    apply for_each_returns. intros x s. eapply wp_mono; [apply sweep_evict_room_returns|].
    by intros r' ? ? ->.
  - done.
Qed.

Lemma only_a_join_ends_in_rejection_witness :
  ∃ now sid code, EJoinRoom 1000 "A" "482913" = EJoinRoom now sid code.
Proof.
  assert (res_of (handle (EJoinRoom 1000 "A" "482913") (scene_connected server_without_store))
          = Thrown) as Hres by (vm_compute; reflexivity).
  exact (only_a_join_ends_in_rejection _ _ Hres).
Defined.

(** ** The second [joinRoom] listener *)

(** After the first [joinRoom] listener the connection is in the room. *)
Lemma on_joinRoom_member now sid code st :
  sid ∈ live (state_of (on_joinRoom now sid code st)) code.
Proof.
  pose proof (wp_run _ _ _ (on_joinRoom_book now sid code st)) as (_ & _ & _ & Ha & _).
  unfold live. rewrite Ha. unfold live_of. rewrite lookup_insert_eq. simpl.
  apply elem_of_union. left. by apply elem_of_singleton.
Qed.

Lemma on_joinRoom_usersList_throws code st sid :
  sid ∈ live st code → on_joinRoom_usersList code st = (Thrown, st, []).
Proof.
  intros Hin. unfold on_joinRoom_usersList. munfold.
  rewrite bool_decide_eq_false_2; [done|].
  intros Hempty. rewrite Hempty in Hin. by apply not_elem_of_empty in Hin.
Qed.

(** The [joinRoom] event when the first listener is not suspended before it
    enters the room. *)
Lemma on_joinRoom_listeners_late now sid code st :
  suspended_before_join code (state_of (leave_previous now sid st)) = false →
  on_joinRoom_listeners now sid code st
    = (Thrown, state_of (on_joinRoom now sid code st), out_of (on_joinRoom now sid code st)).
Proof.
  intros Hlate. unfold on_joinRoom_listeners. cbn zeta. rewrite Hlate.
  pose proof (on_joinRoom_member now sid code st) as Hin.
  destruct (on_joinRoom now sid code st) as [[r st'] o]. unfold state_of, out_of in *. simpl in *.
  by rewrite (on_joinRoom_usersList_throws _ _ _ Hin).
Qed.

Lemma leave_previous_suspension now sid code st :
  rooms st !! code ≠ None ∨ isRedisAvailable st = false →
  suspended_before_join code (state_of (leave_previous now sid st)) = false.
Proof.
  intros H. unfold suspended_before_join.
  pose proof (wp_run _ _ _ (leave_previous_kept now sid st)) as (_ & Hf & _).
  pose proof (wp_run _ _ _ (leave_previous_nothing_new now sid st)) as (_ & _ & Hr).
  destruct H as [H|H].
  - apply andb_false_iff. left. apply bool_decide_eq_false.
    destruct (rooms st !! code) as [r|] eqn:Hroom; [|done].
    destruct Hf as (_ & _ & _ & _ & _ & Hext).
    destruct (Hext _ _ Hroom) as (r' & Hr' & _). by rewrite Hr'.
  - apply andb_false_iff. right. unfold isRedisAvailable in *. by rewrite Hr.
Qed.

(** X29.  A join to a room that the cache holds, and every join on a
    server that knows it has no store, ends in the [ReferenceError] of the
    second [joinRoom] listener, whatever the first listener does: the event
    is an unhandled rejection, and on a Node that ends the process there no
    later event is handled. *)
Theorem join_ends_in_unhandled_rejection now sid code evs st :
  is_Some (sockets st !! sid) →
  rooms st !! code ≠ None ∨ isRedisAvailable st = false →
  handle (EJoinRoom now sid code) st
    = (Thrown, state_of (on_joinRoom now sid code st), out_of (on_joinRoom now sid code st)) ∧
  served (EJoinRoom now sid code :: evs) st = [EJoinRoom now sid code].
Proof.
  intros Hconn Hlate.
  assert (handle (EJoinRoom now sid code) st
    = (Thrown, state_of (on_joinRoom now sid code st), out_of (on_joinRoom now sid code st)))
    as Heq.
  { unfold handle, when_connected. munfold.
    rewrite bool_decide_eq_true_2 by done.
    rewrite (on_joinRoom_listeners_late _ _ _ _ (leave_previous_suspension now sid code st Hlate)).
    simpl. reflexivity. }
  split; [exact Heq|]. cbn [served]. by rewrite Heq.
Qed.

Lemma join_ends_in_unhandled_rejection_witness :
  served [EJoinRoom 1000 "A" "482913"; EDraw "A" stroke0] (scene_connected server_without_store)
    = [EJoinRoom 1000 "A" "482913"].
Proof.
  assert (is_Some (sockets (scene_connected server_without_store) !! "A"%string)) as Hconn
    by (vm_compute; eauto).
  assert (isRedisAvailable (scene_connected server_without_store) = false) as Hav
    by (vm_compute; reflexivity).
  pose proof (join_ends_in_unhandled_rejection 1000 "A" "482913" [EDraw "A" stroke0] _
                Hconn (or_intror Hav)) as [_ H].
  exact H.
Defined.

(** The first join of a code that neither the cache nor the adapter knows,
    on a server with a store, is the join that ends well: the second
    listener runs while the first awaits the store, and finds no one. *)
Lemma first_join_with_store_returns :
  res_of (handle (EJoinRoom 1000 "A" "482913") (scene_connected server_with_store)) = Ok tt.
Proof. vm_compute. reflexivity. Qed.

(** ** The creator by token at the gate of [draw] *)

(** C1.  The gate of [draw] does not know the creator that [toggleDrawing]
    and [clearCanvas] know.  Room 482913 is made by the creation API for the
    holder of [token0], and [A] presents the token in its [x-creator-id]
    header: the room takes [A] for its creator, [A]'s toggle has been obeyed
    and [A]'s clear is relayed.  Yet the stroke that [A] submits while
    drawing is disabled is dropped, like the stroke of [B]: it is neither
    logged nor relayed, and no error is returned. *)
Theorem token_creator_stroke_is_dropped :
  let st := scene_token_creator server_with_store in
  let room := mkRoom 500 2000 2 (VStr token0) (VBool false) in
  in_room "A" "482913" st ∧
  rooms st !! "482913" = Some room ∧
  isCreator "A" st room = true ∧
  (λ e, (e_target e, e_msg e)) <$> out_of (on_clearCanvas "A" st)
    = [(ToOthers "482913" "A", ClearCanvasMsg)] ∧
  on_draw "A" stroke0 st = (Ok tt, st, []) ∧
  on_draw "B" stroke0 st = (Ok tt, st, []).
Proof.
  cbn zeta.
  assert (in_room "A" "482913" (scene_token_creator server_with_store)) as HA
    by (split; [vm_compute; reflexivity | discriminate]).
  assert (in_room "B" "482913" (scene_token_creator server_with_store)) as HB
    by (split; [vm_compute; reflexivity | discriminate]).
  assert (rooms (scene_token_creator server_with_store) !! "482913"%string
          = Some (mkRoom 500 2000 2 (VStr token0) (VBool false))) as Hroom
    by (vm_compute; reflexivity).
  split; [exact HA|]. split; [exact Hroom|].
  split; [vm_compute; reflexivity|].
  split; [vm_compute; reflexivity|].
  split.
  - apply (on_draw_blocked _ _ _ _ _ HA Hroom); [reflexivity|discriminate].
  - apply (on_draw_blocked _ _ _ _ _ HB Hroom); [reflexivity|discriminate].
Qed.

(** ** The count that the sweep reports *)

(** What the second half of an iteration broadcasts is the count it was
    given, whatever the room's live set has become. *)
Lemma sweep_reconcile_resume_out now code n st :
  out_of (sweep_reconcile_resume now code n st)
    = [mkEmission (ToRoom code) (UserCountUpdated n) (adapter st)].
Proof.
  unfold sweep_reconcile_resume, cmd_exists, cmd_hSet, cmd_persist, cmd_expire, redis_cmd.
  munfold. destruct st as [rs ur cc sk ad [c e f h pt im]]; simpl.
  destruct c, f; simpl; try reflexivity.
  destruct (bool_decide _); simpl; [|reflexivity].
  destruct (0 <? n); reflexivity.
Qed.

Lemma bind_ext {A B} (m : M A) (k1 k2 : A → M B) st :
  (∀ a s, k1 a s = k2 a s) → bind m k1 st = bind m k2 st.
Proof. intros H. unfold bind. destruct (m st) as [[[a|] s] o]; [|done]. by rewrite H. Qed.

(** An iteration during which nothing arrives is the iteration of [sweep]. *)
Lemma sweep_reconcile_interleaved_nil now code st :
  sweep_reconcile_interleaved now code [] st = sweep_reconcile_room now code st.
Proof.
  unfold sweep_reconcile_interleaved, sweep_reconcile_room.
  apply bind_ext. intros [n|] s; [|done].
  unfold bind, gets, ret. simpl.
  destruct (sweep_suspends s); simpl;
    by destruct (sweep_reconcile_resume now code n s) as [[? ?] ?].
Qed.

(** C6.  The count that the periodic sweep reports is read before the sweep
    awaits the store, and sent after.  In the room named by the connection
    id of [A], which [B] and [C] have joined and [A] has left by
    disconnecting, the cache says 3 and the live set has 2 members.  The
    sweep reads 2 and awaits its first store command; [C] disconnects
    meanwhile, which leaves 1 member and is reported as such; the sweep
    then goes on and tells the room [userCountUpdated] with 2 users, while
    its live set has 1 member.  The cache ends with 1, the store with 2.
    When nothing arrives during the await, the reported count is the live
    one. *)
Theorem sweep_reports_count_read_before_await :
  let st := scene_miscounted server_with_store in
  let x := sweep_reconcile_interleaved (minutes 1) "A" [EDisconnect 60500 "C"] st in
  users <$> rooms st !! "A" = Some 3 ∧
  actualUsers st "A" = 2 ∧
  with_live "A" <$> out_of x
    = [(ToRoom "A", UserCountUpdated 1, 1);
       (ToOthers "A" "C", UserLeft "C" (Some 1), 1);
       (ToRoom "A", UserCountUpdated 2, 1)] ∧
  ¬ Forall count_ok (out_of x) ∧
  actualUsers (state_of x) "A" = 1 ∧
  users <$> rooms (state_of x) !! "A" = Some 1 ∧
  (hashes (redis (state_of x)) !! "A" ≫= h_users) = Some 2 ∧
  Forall count_ok (out_of (sweep_reconcile_interleaved (minutes 1) "A" [] st)).
Proof.
  cbn zeta.
  assert (with_live "A" <$> out_of (sweep_reconcile_interleaved (minutes 1) "A"
            [EDisconnect 60500 "C"] (scene_miscounted server_with_store))
          = [(ToRoom "A", UserCountUpdated 1, 1);
             (ToOthers "A" "C", UserLeft "C" (Some 1), 1);
             (ToRoom "A", UserCountUpdated 2, 1)]) as Hout
    by (vm_compute; reflexivity).
  split; [vm_compute; reflexivity|].
  split; [vm_compute; reflexivity|].
  split; [exact Hout|].
  split.
  { intros Hall.
    destruct (out_of (sweep_reconcile_interleaved (minutes 1) "A" [EDisconnect 60500 "C"]
                (scene_miscounted server_with_store))) as [|e1 [|e2 [|e3 [|e4 l]]]];
      try discriminate.
    apply Forall_cons in Hall as [_ Hall]. apply Forall_cons in Hall as [_ Hall].
    apply Forall_cons in Hall as [H3 _].
    injection Hout as _ _ _ _ _ _ Ht Hm Hn.
    unfold count_ok in H3. rewrite Hm, Ht in H3. rewrite <- H3 in Hn. discriminate. }
  split; [vm_compute; reflexivity|].
  split; [vm_compute; reflexivity|].
  split; [vm_compute; reflexivity|].
  rewrite sweep_reconcile_interleaved_nil.
  apply (wp_run _ _ _ (sweep_reconcile_room_counted (minutes 1) "A" _)).
Qed.

(** * At concrete inputs *)

Lemma sweep_room_fate_witness :
  rooms (state_of (sweep (1000 + minutes 61) (scene_abandoned server_with_store))) !! "482913"
    = None ∧
  hashes (redis (state_of (sweep (1000 + minutes 61) (scene_abandoned server_with_store))))
    !! "482913" = None ∧
  points (redis (state_of (sweep (1000 + minutes 61) (scene_abandoned server_with_store))))
    !! "482913" = None ∧
  images (redis (state_of (sweep (1000 + minutes 61) (scene_abandoned server_with_store))))
    !! "482913" = None.
Proof.
  assert (rooms (scene_abandoned server_with_store) !! "482913"%string
          = Some (mkRoom 0 1000 0 (VStr "A") (VBool true))) as Hroom
    by (vm_compute; reflexivity).
  pose proof (sweep_room_fate (1000 + minutes 61) "482913" _ _ Hroom) as H.
  cbn zeta in H.
  assert (stale (1000 + minutes 61)
            (with_users (mkRoom 0 1000 0 (VStr "A") (VBool true))
               (actualUsers (scene_abandoned server_with_store) "482913"))
          && store_answers (scene_abandoned server_with_store) = true) as Hcond
    by (vm_compute; reflexivity).
  rewrite Hcond in H. exact H.
Defined.



Lemma first_join_of_unknown_code_witness :
  (∃ room, rooms (state_of (on_joinRoom 1000 "A" "482913" server_with_store)) !! "482913"
             = Some room ∧ creatorId room = VStr "A") ∧
  ∃ e n, e ∈ out_of (on_joinRoom 1000 "A" "482913" server_with_store) ∧
         e_target e = ToSocket "A" ∧
         e_msg e = RoomJoined "482913" "A" n true (VBool true).
Proof.
  assert (rooms server_with_store !! "482913"%string = None) as Hnone by reflexivity.
  assert (stored_room server_with_store "482913" = None) as Hstore by reflexivity.
  exact (first_join_of_unknown_code 1000 "A" "482913" _ Hnone Hstore).
Defined.

Lemma room_code_has_six_digits_witness : String.length (toString 482913) = 6%nat.
Proof.
  assert (100000 ≤ 482913 ≤ 999999) as Hn by lia.
  exact (room_code_has_six_digits 482913 Hn).
Defined.
